(** * Smart PDF AI backend: authentication, sessions and question pipeline

    A shallow embedding of the Python sources under [app/]:
    - [models/user.py], [models/user_pdf.py]: the persisted rows;
    - [services/user.py]: queries and updates on the relational store;
    - [core/security.py]: token issuing, CSRF check, session resolution,
      the admin predicate;
    - [api/auth.py]: the [/auth] endpoints;
    - [api/endpoints/admin.py]: the admin gate;
    - [api/endpoints/smart_AI_pdf.py]: the question pipeline.

    Conventions.  A Python [str] is a [string] whose characters are the code
    points 0..255; character predicates that Python defines on Unicode are
    written out on that range.  Timestamps are integers (microseconds).
    A table is the list of its rows in insertion order; [query.first()] is
    the first row of that list that passes the filter.  The external
    collaborators (bcrypt, the JWT codec, the OS random source, SMTP, the
    rate limiter, the vector index, the hosted model, the interpreter's
    exception messages) are the methods of type classes. *)

From Stdlib Require Import ZArith Ascii String List Bool Lia.
From stdpp Require Import base option list gmap strings pretty.

Local Open Scope Z_scope.

(** ** Python strings *)

Module PyStr.

Definition code (c : ascii) : N := N_of_ascii c.

(** [c.isascii()] *)
Definition isascii_char (c : ascii) : bool := (code c <? 128)%N.

Fixpoint isascii (s : string) : bool :=
  match s with
  | EmptyString => true
  | String c s' => isascii_char c && isascii s'
  end.

(** [c.isupper()] for one character: A-Z and the Latin-1 capitals. *)
Definition isupper_char (c : ascii) : bool :=
  let n := code c in
  ((65 <=? n) && (n <=? 90)
   || (192 <=? n) && (n <=? 222) && negb (n =? 215))%N.

(** [c.lower()] for one character. *)
Definition lower_char (c : ascii) : ascii :=
  if isupper_char c then ascii_of_N (code c + 32) else c.

Fixpoint lower (s : string) : string :=
  match s with
  | EmptyString => EmptyString
  | String c s' => String (lower_char c) (lower s')
  end.

(** [c.isspace()] *)
Definition isspace_char (c : ascii) : bool :=
  let n := code c in
  ((9 <=? n) && (n <=? 13) || (28 <=? n) && (n <=? 32)
   || (n =? 133) || (n =? 160))%N.

(** [s.startswith(p)] *)
Fixpoint startswith (p s : string) : bool :=
  match p, s with
  | EmptyString, _ => true
  | String a p', String b s' => bool_decide (a = b) && startswith p' s'
  | String _ _, EmptyString => false
  end.

(** [sub in s] *)
Fixpoint contains (sub s : string) : bool :=
  startswith sub s ||
  match s with
  | EmptyString => false
  | String _ s' => contains sub s'
  end.

(** [s[:n]] and [s[n:]] for [n >= 0] *)
Fixpoint take (n : nat) (s : string) : string :=
  match n, s with
  | S k, String c s' => String c (take k s')
  | _, _ => EmptyString
  end.

Fixpoint drop (n : nat) (s : string) : string :=
  match n, s with
  | S k, String _ s' => drop k s'
  | _, _ => s
  end.

Fixpoint lstrip_with (p : ascii → bool) (s : string) : string :=
  match s with
  | String c s' => if p c then lstrip_with p s' else s
  | EmptyString => EmptyString
  end.

Definition rstrip_with (p : ascii → bool) (s : string) : string :=
  String.rev (lstrip_with p (String.rev s)).

Definition strip_with (p : ascii → bool) (s : string) : string :=
  rstrip_with p (lstrip_with p s).

(** [s.strip()] *)
Definition strip : string → string := strip_with isspace_char.

Fixpoint mem_char (c : ascii) (chars : string) : bool :=
  match chars with
  | EmptyString => false
  | String d chars' => bool_decide (c = d) || mem_char c chars'
  end.

(** [s.strip(chars)] *)
Definition strip_chars (chars : string) : string → string :=
  strip_with (λ c, mem_char c chars).

(** [s.split(sep)] for a non-empty [sep]: the pieces between the
    non-overlapping occurrences of [sep], found left to right.  [skip]
    counts the characters of a matched separator still to pass over and
    [cur] is the current piece, reversed. *)
Fixpoint split_go (sep s : string) (skip : nat) (cur : string) : list string :=
  match s with
  | EmptyString => [String.rev cur]
  | String c s' =>
      match skip with
      | S k => split_go sep s' k cur
      | O =>
          if startswith sep s
          then String.rev cur :: split_go sep s' (String.length sep - 1) EmptyString
          else split_go sep s' O (String c cur)
      end
  end.

Definition split (sep s : string) : list string := split_go sep s O EmptyString.

(** [s.split()]: the maximal runs of non-whitespace characters. *)
Fixpoint split_ws_go (cur : option string) (s : string) : list string :=
  match s with
  | EmptyString => option_list (String.rev <$> cur)
  | String c s' =>
      if isspace_char c
      then option_list (String.rev <$> cur) ++ split_ws_go None s'
      else split_ws_go (Some (String c (default EmptyString cur))) s'
  end.

Definition split_ws : string → list string := split_ws_go None.

(** The truth value of a string, and of an optional string
    ([None] and [""] are falsy). *)
Definition truthy (s : string) : bool := negb (bool_decide (s = EmptyString)).

Definition truthy_opt (o : option string) : bool :=
  match o with Some s => truthy s | None => false end.

End PyStr.

(** ** The persisted rows ([models/user.py], [models/user_pdf.py]) *)

Inductive UserRole := ADMIN | USER | MODERATOR.

Global Instance UserRole_eq_dec : EqDecision UserRole.
Proof. solve_decision. Defined.

(** [UserRole] is a [str] enumeration: the value of each member. *)
Definition UserRole_value (r : UserRole) : string :=
  match r with ADMIN => "admin" | USER => "user" | MODERATOR => "moderator" end.

Module User.
Record t := mk {
  id : Z;
  email : string;
  username : string;
  hashed_password : string;
  full_name : option string;
  role : UserRole;
  is_active : bool;
  is_verified : bool;
  created_at : Z;
  updated_at : option Z
}.
End User.

Module RefreshToken.
Record t := mk {
  id : Z;
  token : string;
  expires_at : Z;
  revoked : bool;
  user_id : Z;
  user_agent : option string;
  ip_address : option string;
  created_at : Z
}.

(** [row.revoked = True] *)
Definition set_revoked (r : t) : t :=
  mk (id r) (token r) (expires_at r) true (user_id r)
     (user_agent r) (ip_address r) (created_at r).
End RefreshToken.

Module VerificationToken.
Record t := mk {
  id : Z;
  token : string;
  expires_at : Z;
  user_id : Z;
  created_at : Z
}.
End VerificationToken.

Module PasswordResetToken.
Record t := mk {
  id : Z;
  token : string;
  expires_at : Z;
  user_id : Z;
  created_at : Z
}.
End PasswordResetToken.

Module Subscription.
Record t := mk {
  id : Z;
  user_id : Z;
  plan_name : string;
  start_date : option Z;
  end_date : Z;
  is_active : bool
}.
End Subscription.

Global Instance User_eq_dec : EqDecision User.t.
Proof. solve_decision. Defined.
Global Instance RefreshToken_eq_dec : EqDecision RefreshToken.t.
Proof. solve_decision. Defined.
Global Instance VerificationToken_eq_dec : EqDecision VerificationToken.t.
Proof. solve_decision. Defined.
Global Instance PasswordResetToken_eq_dec : EqDecision PasswordResetToken.t.
Proof. solve_decision. Defined.

(** The database session: the four tables the authentication subsystem
    reads and writes. *)
Record Session := mkSession {
  users : list User.t;
  refresh_tokens : list RefreshToken.t;
  verification_tokens : list VerificationToken.t;
  password_reset_tokens : list PasswordResetToken.t
}.

Global Instance Session_eq_dec : EqDecision Session.
Proof. solve_decision. Defined.

Definition empty_session : Session := mkSession [] [] [] [].

(** The primary key the engine gives an inserted row: one past the largest
    key in the table. *)
Definition next_id (ids : list Z) : Z := 1 + foldr Z.max 0 ids.

(** [query.filter(p).first()] returns a reference to a row of the store;
    the reference is the row's position, so that an attribute assignment
    through it reaches the stored row. *)
Fixpoint first_ref {A} (p : A → bool) (l : list A) : option (nat * A) :=
  match l with
  | [] => None
  | x :: l' => if p x then Some (O, x) else prod_map S id <$> first_ref p l'
  end.

Definition first {A} (p : A → bool) (l : list A) : option A :=
  snd <$> first_ref p l.

(** [query.filter(p).all()] *)
Definition all {A} (p : A → bool) (l : list A) : list A := filter (λ x, p x = true) l.

(** [db.delete(row)] for the row at position [i]. *)
Definition delete_row {A} (i : nat) (l : list A) : list A := delete i l.

(** ** Exceptions and responses *)

Inductive Exn :=
| HTTPException (status_code : Z) (detail : string)
| IntegrityError
| UnhandledError (what : string).

(** The status line the framework answers with: an [HTTPException] carries
    its own, anything else that escapes a handler is a 500. *)
Definition status_of (e : Exn) : Z :=
  match e with
  | HTTPException s _ => s
  | IntegrityError | UnhandledError _ => 500
  end.

Definition HTTP_400_BAD_REQUEST : Z := 400.
Definition HTTP_401_UNAUTHORIZED : Z := 401.
Definition HTTP_403_FORBIDDEN : Z := 403.

(** ** External collaborators *)

(** A JSON value of a token payload. *)
Inductive jval := JStr (s : string) | JInt (n : Z) | JBool (b : bool) | JNull.

Global Instance jval_eq_dec : EqDecision jval.
Proof. solve_decision. Defined.

(** The subclasses of [jose.JWTError] that [jwt.decode] raises. *)
Inductive JWTError := ExpiredSignatureError | JWTClaimsError | JWTError_other.

Section Collaborators.

(** passlib's [CryptContext]. *)
Class PasswordContext := {
  pwd_hash : string → string;
  pwd_verify : string → string → bool
}.

(** python-jose: [jwt.encode claims key algorithm] and
    [jwt.decode token key algorithms] at a given time. *)
Class Jose := {
  jwt_encode : gmap string jval → string → string → string;
  jwt_decode : Z → string → string → list string → JWTError + gmap string jval
}.

(** The OS random source behind [secrets] and [uuid]: the text of the
    n-th draw. *)
Class Entropy := {
  token_urlsafe_at : nat → nat → string;
  uuid4_at : nat → string
}.

(** The relational engine's comparison of an integer column with a bound
    parameter taken from a token payload. *)
Class SqlEngine := {
  int_eq_param : Z → jval → bool
}.

(** Jinja2 rendering and the SMTP relay ([None]: the relay raised), the
    calendar year of a timestamp and the [ipaddress] parser. *)
Class Outside := {
  render_template : string → list (string * string) → string;
  smtp_send : string → string → string → option unit;
  year_of : Z → Z;
  ip_address_ok : string → bool
}.

End Collaborators.

(** [core/config.py] *)
Record Settings := mkSettings {
  API_V1_STR : string;
  SECRET_KEY : string;
  ALGORITHM : string;
  ACCESS_TOKEN_EXPIRE_MINUTES : Z;
  REFRESH_TOKEN_EXPIRE_DAYS : Z;
  EMAIL_FROM : string
}.

Definition default_settings : Settings :=
  mkSettings "/api/v1" "your_super_secret_key_change_in_production" "HS256" 30 7 "".

(** [timedelta] values in microseconds. *)
Definition minutes (n : Z) : Z := n * 60 * 1000000.
Definition hours (n : Z) : Z := n * 3600 * 1000000.
Definition days (n : Z) : Z := n * 86400 * 1000000.

(** [schemas/user.py] *)
Record UserCreate := mkUserCreate {
  uc_email : string;
  uc_username : string;
  uc_full_name : option string;
  uc_password : string;
  uc_confirm_password : string
}.

(** [UserUpdate] as [dict(exclude_unset=True)] sees it: a field is not
    sent ([None]), or sent as null ([Some None]) or as a value. *)
Record UserUpdate := mkUserUpdate {
  uu_email : option (option string);
  uu_username : option (option string);
  uu_full_name : option (option string)
}.

Record PasswordChange := mkPasswordChange {
  pc_current_password : string;
  pc_new_password : string;
  pc_confirm_password : string
}.

(** ** [services/user.py] *)

Module Services.
Section Services.

Context `{PasswordContext}.

Definition get_user_by_id (db : Session) (user_id : Z) : option User.t :=
  first (λ u, bool_decide (User.id u = user_id)) (users db).

Definition get_user_by_email (db : Session) (email : string) : option User.t :=
  first (λ u, bool_decide (User.email u = email)) (users db).

Definition get_user_by_username (db : Session) (username : string) : option User.t :=
  first (λ u, bool_decide (User.username u = username)) (users db).

(** The unique indexes of [users]: the insert is refused when the email
    or the username is already stored. *)
Definition users_insert_ok (db : Session) (u : User.t) : bool :=
  bool_decide (User.email u ∉ User.email <$> users db)
  && bool_decide (User.username u ∉ User.username <$> users db).

Definition create_user (db : Session) (now : Z) (user_create : UserCreate)
  : Exn + (User.t * Session) :=
  let hashed_password := pwd_hash (uc_password user_create) in
  let db_user :=
    User.mk (next_id (User.id <$> users db))
            (uc_email user_create) (uc_username user_create)
            hashed_password (uc_full_name user_create)
            USER true false now None in
  if users_insert_ok db db_user
  then inr (db_user,
            mkSession (users db ++ [db_user]) (refresh_tokens db)
                      (verification_tokens db) (password_reset_tokens db))
  else inl IntegrityError.

Definition authenticate_user (db : Session) (email password : string)
  : option User.t :=
  match get_user_by_email db email with
  | None => None
  | Some user =>
      if negb (pwd_verify password (User.hashed_password user))
      then None else Some user
  end.

(** Attribute assignments on a loaded user; [updated_at] follows the
    column's [onupdate] when the flush writes a changed value. *)
Definition set_is_verified (now : Z) (u : User.t) : User.t :=
  User.mk (User.id u) (User.email u) (User.username u)
          (User.hashed_password u) (User.full_name u) (User.role u)
          (User.is_active u) true (User.created_at u)
          (if User.is_verified u then User.updated_at u else Some now).

Definition set_hashed_password (now : Z) (h : string) (u : User.t) : User.t :=
  User.mk (User.id u) (User.email u) (User.username u)
          h (User.full_name u) (User.role u)
          (User.is_active u) (User.is_verified u) (User.created_at u)
          (if bool_decide (User.hashed_password u = h)
           then User.updated_at u else Some now).

Definition verify_user_email (db : Session) (now : Z) (token : string)
  : option User.t * Session :=
  match first_ref (λ t, bool_decide (VerificationToken.token t = token)
                        && bool_decide (now < VerificationToken.expires_at t))
                  (verification_tokens db) with
  | None => (None, db)
  | Some (ti, db_token) =>
      match first_ref (λ u, bool_decide (User.id u = VerificationToken.user_id db_token))
                      (users db) with
      | None => (None, db)
      | Some (ui, user) =>
          let user' := set_is_verified now user in
          (Some user',
           mkSession (<[ui := user']> (users db)) (refresh_tokens db)
                     (delete_row ti (verification_tokens db))
                     (password_reset_tokens db))
      end
  end.

Definition reset_user_password (db : Session) (now : Z) (token new_password : string)
  : option User.t * Session :=
  match first_ref (λ t, bool_decide (PasswordResetToken.token t = token)
                        && bool_decide (now < PasswordResetToken.expires_at t))
                  (password_reset_tokens db) with
  | None => (None, db)
  | Some (ti, db_token) =>
      match first_ref (λ u, bool_decide (User.id u = PasswordResetToken.user_id db_token))
                      (users db) with
      | None => (None, db)
      | Some (ui, user) =>
          let user' := set_hashed_password now (pwd_hash new_password) user in
          (Some user',
           mkSession (<[ui := user']> (users db)) (refresh_tokens db)
                     (verification_tokens db)
                     (delete_row ti (password_reset_tokens db)))
      end
  end.

Definition get_refresh_token (db : Session) (now : Z) (token : string)
  : option RefreshToken.t :=
  first (λ r, bool_decide (RefreshToken.token r = token)
              && bool_decide (now < RefreshToken.expires_at r)
              && bool_decide (RefreshToken.revoked r = false))
        (refresh_tokens db).

Definition with_refresh_tokens (db : Session) (l : list RefreshToken.t) : Session :=
  mkSession (users db) l (verification_tokens db) (password_reset_tokens db).

Definition revoke_refresh_token (db : Session) (token : string) : bool * Session :=
  match first_ref (λ r, bool_decide (RefreshToken.token r = token))
                  (refresh_tokens db) with
  | None => (false, db)
  | Some (i, db_token) =>
      (true,
       with_refresh_tokens db
         (<[i := RefreshToken.set_revoked db_token]> (refresh_tokens db)))
  end.

(** The rows selected by [.all()] are references into the table: every
    selected row is updated in place. *)
Definition revoke_all_user_refresh_tokens (db : Session) (user_id : Z)
  : bool * Session :=
  let sel := λ r, bool_decide (RefreshToken.user_id r = user_id)
                  && bool_decide (RefreshToken.revoked r = false) in
  match all sel (refresh_tokens db) with
  | [] => (false, db)
  | _ :: _ =>
      (true,
       with_refresh_tokens db
         ((λ r, if sel r then RefreshToken.set_revoked r else r)
            <$> refresh_tokens db))
  end.

(** The loaded [user] object is the stored row with its primary key; an
    object whose row is gone cannot be flushed. *)
Definition loaded (db : Session) (user : User.t) : option (nat * User.t) :=
  first_ref (λ u, bool_decide (User.id u = User.id user)) (users db).

Definition with_users (db : Session) (l : list User.t) : Session :=
  mkSession l (refresh_tokens db) (verification_tokens db)
            (password_reset_tokens db).

(** [update_user]: each sent field is assigned.  [email] and [username]
    are NOT NULL and unique, so a null or a value another row holds fails
    the commit. *)
Definition update_user (db : Session) (now : Z) (user : User.t)
    (user_update : UserUpdate) : Exn + (User.t * Session) :=
  match loaded db user with
  | None => inl (UnhandledError "ObjectDeletedError")
  | Some (i, row) =>
      let email' := default (Some (User.email row)) (uu_email user_update) in
      let username' := default (Some (User.username row)) (uu_username user_update) in
      let full_name' := default (User.full_name row) (uu_full_name user_update) in
      match email', username' with
      | Some e, Some n =>
          let others := delete i (users db) in
          if bool_decide (e ∈ User.email <$> others)
             || bool_decide (n ∈ User.username <$> others)
          then inl IntegrityError
          else
            let changed :=
              negb (bool_decide (e = User.email row ∧ n = User.username row
                                 ∧ full_name' = User.full_name row)) in
            let row' :=
              User.mk (User.id row) e n (User.hashed_password row) full_name'
                      (User.role row) (User.is_active row) (User.is_verified row)
                      (User.created_at row)
                      (if changed then Some now else User.updated_at row) in
            inr (row', with_users db (<[i := row']> (users db)))
      | _, _ => inl IntegrityError
      end
  end.

Definition change_user_password (db : Session) (now : Z) (user : User.t)
    (new_password : string) : Exn + (User.t * Session) :=
  match loaded db user with
  | None => inl (UnhandledError "ObjectDeletedError")
  | Some (i, row) =>
      let row' := set_hashed_password now (pwd_hash new_password) row in
      inr (row', with_users db (<[i := row']> (users db)))
  end.

Definition set_role (now : Z) (r : UserRole) (u : User.t) : User.t :=
  User.mk (User.id u) (User.email u) (User.username u)
          (User.hashed_password u) (User.full_name u) r
          (User.is_active u) (User.is_verified u) (User.created_at u)
          (if bool_decide (User.role u = r) then User.updated_at u else Some now).

Definition update_user_role (db : Session) (now : Z) (user : User.t)
    (role : UserRole) : Exn + (User.t * Session) :=
  match loaded db user with
  | None => inl (UnhandledError "ObjectDeletedError")
  | Some (i, row) =>
      let row' := set_role now role row in
      inr (row', with_users db (<[i := row']> (users db)))
  end.

End Services.
End Services.

(** ** Requests, responses and the handler monad *)

Record Request := mkRequest {
  headers : list (string * string);
  client : option string;
  base_url : string
}.

(** [request.headers.get(name)]: header names compare without case. *)
Definition headers_get (name : string) (req : Request) : option string :=
  snd <$> first (λ kv, bool_decide (PyStr.lower (fst kv) = PyStr.lower name))
                (headers req).

Record Cookie := mkCookie {
  key : string;
  value : string;
  httponly : bool;
  secure : bool;
  samesite : string;
  max_age : Z;
  path : string
}.

(** What a handler does to the cookie jar of its response. *)
Inductive CookieOp :=
| set_cookie (c : Cookie)
| delete_cookie (key path : string).

Definition cookie_key (op : CookieOp) : string :=
  match op with set_cookie c => key c | delete_cookie k _ => k end.

(** [schemas.Token] *)
Record Token := mkToken {
  access_token : string;
  token_type : string;
  expires_in : Z
}.

Record Response (A : Type) := mkResponse {
  cookies : list CookieOp;
  body : A
}.
Arguments mkResponse {A} _ _.
Arguments cookies {A} _.
Arguments body {A} _.

(** The world a handler runs in: the store, the number of draws made from
    the random source, and the messages accepted by the SMTP relay (to,
    subject, content). *)
Record World := mkWorld {
  db : Session;
  drawn : nat;
  outbox : list (string * string * string)
}.

Definition M (A : Type) : Type := World → (Exn + A) * World.

Global Instance M_ret : MRet M := λ A a w, (inr a, w).

Global Instance M_bind : MBind M := λ A B f c w,
  match c w with
  | (inl e, w') => (inl e, w')
  | (inr a, w') => f a w'
  end.

Definition raise {A} (e : Exn) : M A := λ w, (inl e, w).

(** [try: c  except Exception as e: h e] *)
Definition try_except {A} (c : M A) (h : Exn → M A) : M A := λ w,
  match c w with
  | (inl e, w') => h e w'
  | (inr a, w') => (inr a, w')
  end.

Definition get_session : M Session := λ w, (inr (db w), w).

Definition put_session (d : Session) : M unit := λ w,
  (inr tt, mkWorld d (drawn w) (outbox w)).

(** Run a store operation that may fail at commit. *)
Definition commit {A} (op : Session → Exn + (A * Session)) : M A := λ w,
  match op (db w) with
  | inl e => (inl e, w)
  | inr (a, d) => (inr a, mkWorld d (drawn w) (outbox w))
  end.

(** Run a store operation that cannot fail. *)
Definition run {A} (op : Session → A * Session) : M A := λ w,
  let '(a, d) := op (db w) in (inr a, mkWorld d (drawn w) (outbox w)).

Definition draw : M nat := λ w,
  (inr (drawn w), mkWorld (db w) (S (drawn w)) (outbox w)).

Definition post (msg : string * string * string) : M unit := λ w,
  (inr tt, mkWorld (db w) (drawn w) (outbox w ++ [msg])).

Definition http_error {A} (status_code : Z) (detail : string) : M A :=
  raise (HTTPException status_code detail).

(** fastapi-limiter's [RateLimiter(times, seconds)] used as a route
    dependency: its verdict on a request at a given time.  [None] lets the
    request through; otherwise the dependency raises, a 429 when the quota
    is used up, or the library's own exception when [FastAPILimiter.init]
    was not called.  The counters live in Redis, outside the store. *)
Class Limiter := {
  RateLimiter : Z → Z → Z → Request → option Exn
}.

(** [core/rate_limiter.py]: [RateLimiter(times=3, seconds=3600)] *)
Definition password_reset_rate_limiter `{Limiter} : Z → Request → option Exn :=
  RateLimiter 3 3600.

(** [_: None = Depends(limiter)]: the dependency is resolved before the
    body of the handler runs. *)
Definition Depends (verdict : option Exn) : M unit :=
  match verdict with
  | Some e => raise e
  | None => mret tt
  end.

(** ** [core/security.py] *)

Module Security.

(** [secrets.compare_digest] on two [str]: a [TypeError] ([None]) unless
    both are ASCII; otherwise the comparison loop of the C library, which
    folds the differences of every position into [result] (starting
    from 1 and comparing [b] with itself when the lengths differ) and
    only then tests it. *)
Fixpoint tscmp_fold (left right : string) (result : N) : N :=
  match left, right with
  | String x left', String y right' =>
      tscmp_fold left' right' (N.lor result (N.lxor (PyStr.code x) (PyStr.code y)))
  | _, _ => result
  end.

Definition tscmp (a b : string) : bool :=
  let same_len := bool_decide (String.length a = String.length b) in
  let left := if same_len then a else b in
  let result := if same_len then 0%N else 1%N in
  (tscmp_fold left b result =? 0)%N.

Definition compare_digest (a b : string) : option bool :=
  if PyStr.isascii a && PyStr.isascii b then Some (tscmp a b) else None.

Definition verify_csrf_token (csrf_token csrf_cookie : string) : bool :=
  if negb (PyStr.truthy csrf_token) || negb (PyStr.truthy csrf_cookie)
  then false
  else match compare_digest csrf_token csrf_cookie with
       | Some r => r
       | None => false
       end.

(** [is_admin]: the ORM class [User] declares no [is_admin] attribute,
    so [hasattr(user, "is_admin")] holds only for an object that carries
    one; [attr] is that attribute when present. *)
Definition is_admin_of (attr : option bool) (user : User.t) : bool :=
  if default false attr then true
  else if PyStr.contains "admin" (PyStr.lower (User.email user)) then true
  else false.

Definition is_admin (user : User.t) : bool := is_admin_of None user.

Section Security.

Context `{PasswordContext} `{Jose} `{Entropy} `{SqlEngine}.
Variable settings : Settings.

Definition verify_password (plain_password hashed_password : string) : bool :=
  pwd_verify plain_password hashed_password.

Definition get_password_hash (password : string) : string := pwd_hash password.

(** [secrets.token_urlsafe(nbytes)] and [str(uuid.uuid4())] *)
Definition token_urlsafe (nbytes : nat) : M string :=
  n ← draw; mret (token_urlsafe_at n nbytes).

Definition uuid4 : M string := n ← draw; mret (uuid4_at n).

(** A [timedelta] is falsy when it is zero. *)
Definition create_access_token (now : Z) (subject : Z) (role : UserRole)
    (expires_delta : option Z) : M string :=
  let expire :=
    match expires_delta with
    | Some d => if bool_decide (d = 0)
                then now + minutes (ACCESS_TOKEN_EXPIRE_MINUTES settings)
                else now + d
    | None => now + minutes (ACCESS_TOKEN_EXPIRE_MINUTES settings)
    end in
  jti ← uuid4;
  let to_encode : gmap string jval :=
    <["exp" := JInt (expire `div` 1000000)]>
    (<["sub" := JStr (pretty subject)]>
    (<["role" := JStr (UserRole_value role)]>
    (<["jti" := JStr jti]>
    (<["type" := JStr "access"]> ∅)))) in
  mret (jwt_encode to_encode (SECRET_KEY settings) (ALGORITHM settings)).

(** The unique index on [refresh_tokens.token]. *)
Definition insert_refresh_token (r : RefreshToken.t) (d : Session)
  : Exn + (unit * Session) :=
  if bool_decide (RefreshToken.token r ∈ RefreshToken.token <$> refresh_tokens d)
  then inl IntegrityError
  else inr (tt, Services.with_refresh_tokens d (refresh_tokens d ++ [r])).

Definition create_refresh_token (now : Z) (user_id : Z)
    (user_agent ip_address : option string) : M string :=
  token ← token_urlsafe 64;
  let expires_delta := days (REFRESH_TOKEN_EXPIRE_DAYS settings) in
  let expires_at := now + expires_delta in
  d ← get_session;
  let db_refresh_token :=
    RefreshToken.mk (next_id (RefreshToken.id <$> refresh_tokens d))
                    token expires_at false user_id user_agent ip_address now in
  commit (insert_refresh_token db_refresh_token);;
  mret token.

Definition generate_csrf_token : M string := token_urlsafe 32.

Definition unauthorized {A} (detail : string) : Exn + A :=
  inl (HTTPException HTTP_401_UNAUTHORIZED detail).

(** [get_current_user]: [token] is the bearer header, which the body
    never reads; [access_token] is the cookie. *)
Definition get_current_user (d : Session) (now : Z)
    (token access_token : option string) : Exn + User.t :=
  match access_token with
  | None => unauthorized "Not authenticated"
  | Some tok =>
      if negb (PyStr.truthy tok) then unauthorized "Not authenticated"
      else
        match jwt_decode now tok (SECRET_KEY settings) [ALGORITHM settings] with
        | inl _ => unauthorized "Invalid token"
        | inr payload =>
            if negb (bool_decide (payload !! "type" = Some (JStr "access")))
            then unauthorized "Invalid token type"
            else
              match payload !! "sub" with
              | None | Some JNull => unauthorized "Invalid token"
              | Some user_id =>
                  match first (λ u, int_eq_param (User.id u) user_id) (users d) with
                  | None => unauthorized "User not found"
                  | Some user =>
                      if negb (User.is_active user)
                      then unauthorized "Inactive user"
                      else inr user
                  end
              end
        end
  end.

Definition get_current_active_verified_user (current_user : User.t)
  : Exn + User.t :=
  if negb (User.is_verified current_user)
  then inl (HTTPException HTTP_403_FORBIDDEN "Email not verified")
  else inr current_user.

End Security.
End Security.

(** ** [core/rate_limiter.py] and [services/email.py] *)

Module Email.
Section Email.

Context `{Entropy} `{Outside}.

(** [request.client.host] raises when the server gave no peer address. *)
Definition get_client_ip (request : Request) : Exn + string :=
  let fallback :=
    match client request with
    | Some host => inr host
    | None => inl (UnhandledError "AttributeError")
    end in
  match headers_get "X-Forwarded-For" request with
  | Some forwarded_for =>
      if PyStr.truthy forwarded_for then
        let ip := PyStr.strip (default "" (head (PyStr.split "," forwarded_for))) in
        if ip_address_ok ip then inr ip else fallback
      else fallback
  | None => fallback
  end.

Definition send_email (to_email subject html_content : string) : M unit :=
  match smtp_send to_email subject html_content with
  | Some _ => post (to_email, subject, html_content)
  | None => raise (UnhandledError "SMTPException")
  end.

Definition insert_verification_token (t : VerificationToken.t) (d : Session)
  : Exn + (unit * Session) :=
  if bool_decide (VerificationToken.token t
                  ∈ VerificationToken.token <$> verification_tokens d)
  then inl IntegrityError
  else inr (tt, mkSession (users d) (refresh_tokens d)
                          (verification_tokens d ++ [t])
                          (password_reset_tokens d)).

Definition insert_password_reset_token (t : PasswordResetToken.t) (d : Session)
  : Exn + (unit * Session) :=
  if bool_decide (PasswordResetToken.token t
                  ∈ PasswordResetToken.token <$> password_reset_tokens d)
  then inl IntegrityError
  else inr (tt, mkSession (users d) (refresh_tokens d)
                          (verification_tokens d)
                          (password_reset_tokens d ++ [t])).

Definition create_verification_token (now : Z) (user : User.t) : M string :=
  token ← Security.token_urlsafe 32;
  let expires_at := now + hours 24 in
  d ← get_session;
  let db_token :=
    VerificationToken.mk (next_id (VerificationToken.id <$> verification_tokens d))
                         token expires_at (User.id user) now in
  commit (insert_verification_token db_token);;
  mret token.

Definition create_password_reset_token (now : Z) (user : User.t) : M string :=
  token ← Security.token_urlsafe 32;
  let expires_at := now + hours 1 in
  d ← get_session;
  let db_token :=
    PasswordResetToken.mk
      (next_id (PasswordResetToken.id <$> password_reset_tokens d))
      token expires_at (User.id user) now in
  commit (insert_password_reset_token db_token);;
  mret token.

Definition send_verification_email (now : Z) (user : User.t) (base_url : string)
  : M unit :=
  token ← create_verification_token now user;
  let verification_url := base_url +:+ "/verify-email?token=" +:+ token in
  let html_content :=
    render_template "verification.html"
      [("username", User.username user);
       ("verification_url", verification_url);
       ("year", pretty (year_of now))] in
  send_email (User.email user) "Verify Your Email" html_content.

Definition send_password_reset_email (now : Z) (user : User.t) (base_url : string)
  : M unit :=
  token ← create_password_reset_token now user;
  let reset_url := base_url +:+ "/reset-password?token=" +:+ token in
  let html_content :=
    render_template "password_reset.html"
      [("username", User.username user);
       ("reset_url", reset_url);
       ("year", pretty (year_of now))] in
  send_email (User.email user) "Reset Your Password" html_content.

End Email.
End Email.

(** ** [api/auth.py] *)

Module Auth.
Section Auth.

Context `{PasswordContext} `{Jose} `{Entropy} `{SqlEngine} `{Outside} `{Limiter}.
Variable settings : Settings.

Definition lift {A} (r : Exn + A) : M A := λ w, (r, w).

Definition register (now : Z) (request : Request) (user_create : UserCreate)
  : M User.t :=
  d ← get_session;
  if bool_decide (is_Some (Services.get_user_by_email d (uc_email user_create)))
  then http_error HTTP_400_BAD_REQUEST "Email already registered"
  else if bool_decide (is_Some (Services.get_user_by_username d (uc_username user_create)))
  then http_error HTTP_400_BAD_REQUEST "Username already taken"
  else
    user ← commit (λ d, Services.create_user d now user_create);
    try_except (Email.send_verification_email now user (base_url request))
               (λ _, mret tt);;
    mret user.

(** The part shared by [login] and [login_json] once the credentials are
    read: [email] is [form_data.username], resp. [user_login.email]. *)
Definition login_with (now : Z) (request : Request) (email password : string)
  : M (Response Token) :=
  d ← get_session;
  match Services.authenticate_user d email password with
  | None => http_error HTTP_401_UNAUTHORIZED "Incorrect email or password"
  | Some user =>
      if negb (User.is_active user)
      then http_error HTTP_401_UNAUTHORIZED "Inactive user"
      else
        let access_token_expires :=
          minutes (ACCESS_TOKEN_EXPIRE_MINUTES settings) in
        access_token ←
          Security.create_access_token settings now (User.id user)
            (User.role user) (Some access_token_expires);
        ip ← lift (Email.get_client_ip request);
        refresh_token ←
          Security.create_refresh_token settings now (User.id user)
            (headers_get "User-Agent" request) (Some ip);
        csrf_token ← Security.generate_csrf_token;
        mret (mkResponse
          [set_cookie (mkCookie "access_token" access_token true true "lax"
                         (ACCESS_TOKEN_EXPIRE_MINUTES settings * 60) "/");
           set_cookie (mkCookie "refresh_token" refresh_token true true "lax"
                         (REFRESH_TOKEN_EXPIRE_DAYS settings * 24 * 60 * 60) "/");
           set_cookie (mkCookie "csrf_token" csrf_token false true "lax"
                         (ACCESS_TOKEN_EXPIRE_MINUTES settings * 60) "/")]
          (mkToken access_token "bearer"
                   (ACCESS_TOKEN_EXPIRE_MINUTES settings * 60)))
  end.

Definition login (now : Z) (request : Request)
    (form_username form_password : string) : M (Response Token) :=
  login_with now request form_username form_password.

Definition login_json (now : Z) (request : Request)
    (email password : string) : M (Response Token) :=
  login_with now request email password.

Definition refresh_token (now : Z) (refresh_token csrf_token x_csrf_token : option string)
  : M (Response Token) :=
  if negb (PyStr.truthy_opt refresh_token)
  then http_error HTTP_401_UNAUTHORIZED "Refresh token missing"
  else if negb (PyStr.truthy_opt csrf_token) || negb (PyStr.truthy_opt x_csrf_token)
  then http_error HTTP_401_UNAUTHORIZED "CSRF token missing"
  else if negb (Security.verify_csrf_token (default "" x_csrf_token)
                                           (default "" csrf_token))
  then http_error HTTP_401_UNAUTHORIZED "Invalid CSRF token"
  else
    d ← get_session;
    match Services.get_refresh_token d now (default "" refresh_token) with
    | None => http_error HTTP_401_UNAUTHORIZED "Invalid or expired refresh token"
    | Some db_refresh_token =>
        match Services.get_user_by_id d (RefreshToken.user_id db_refresh_token) with
        | None => http_error HTTP_401_UNAUTHORIZED "User not found or inactive"
        | Some user =>
            if negb (User.is_active user)
            then http_error HTTP_401_UNAUTHORIZED "User not found or inactive"
            else
              let access_token_expires :=
                minutes (ACCESS_TOKEN_EXPIRE_MINUTES settings) in
              access_token ←
                Security.create_access_token settings now (User.id user)
                  (User.role user) (Some access_token_expires);
              new_csrf_token ← Security.generate_csrf_token;
              mret (mkResponse
                [set_cookie (mkCookie "access_token" access_token true true "lax"
                               (ACCESS_TOKEN_EXPIRE_MINUTES settings * 60) "/");
                 set_cookie (mkCookie "csrf_token" new_csrf_token false true "lax"
                               (ACCESS_TOKEN_EXPIRE_MINUTES settings * 60) "/")]
                (mkToken access_token "bearer"
                         (ACCESS_TOKEN_EXPIRE_MINUTES settings * 60)))
        end
    end.

Definition logout (refresh_token : option string) : M (Response string) :=
  (if PyStr.truthy_opt refresh_token
   then run (λ d, Services.revoke_refresh_token d (default "" refresh_token));; mret tt
   else mret tt);;
  mret (mkResponse
    [delete_cookie "access_token" "/";
     delete_cookie "refresh_token" "/";
     delete_cookie "csrf_token" "/"]
    "Successfully logged out").

Definition verify_email (now : Z) (token : string) : M string :=
  user ← run (λ d, Services.verify_user_email d now token);
  match user with
  | None => http_error HTTP_400_BAD_REQUEST "Invalid or expired verification token"
  | Some _ => mret "Email successfully verified"
  end.

Definition request_password_reset (now : Z) (request : Request) (email : string)
  : M string :=
  Depends (password_reset_rate_limiter now request);;
  d ← get_session;
  match Services.get_user_by_email d email with
  | Some user =>
      try_except (Email.send_password_reset_email now user (base_url request))
                 (λ _, mret tt)
  | None => mret tt
  end;;
  mret "If your email is registered, you will receive a password reset link".

Definition reset_password (now : Z) (token new_password : string) : M string :=
  user ← run (λ d, Services.reset_user_password d now token new_password);
  match user with
  | None => http_error HTTP_400_BAD_REQUEST "Invalid or expired password reset token"
  | Some user =>
      run (λ d, Services.revoke_all_user_refresh_tokens d (User.id user));;
      mret "Password successfully reset"
  end.

End Auth.
End Auth.

(** ** [api/endpoints/admin.py] *)

Module Admin.

Record DashboardStats := mkDashboardStats {
  total_users : Z;
  active_users : Z;
  total_pdfs : Z;
  total_questions_generated : Z;
  users_by_tier : list (string * Z);
  recent_activity : list (list (string * string))
}.

(** The check every admin endpoint opens with. *)
Definition admin_gate (current_user : User.t) : Exn + unit :=
  if negb (Security.is_admin current_user)
  then inl (HTTPException HTTP_403_FORBIDDEN "Admin access required")
  else inr tt.

(** The timestamps of the two mocked activity records are rendered by
    the caller of this model and left out here. *)
Definition get_dashboard_stats (current_user : User.t) : Exn + DashboardStats :=
  match admin_gate current_user with
  | inl e => inl e
  | inr _ =>
      inr (mkDashboardStats 156 89 342 2589
             [("free", 98); ("pro", 45); ("enterprise", 13)]
             [[("type", "pdf_upload"); ("user_id", "user123");
               ("user_email", "user@example.com");
               ("details", "uploaded physics_textbook.pdf")];
              [("type", "question_generation"); ("user_id", "user456");
               ("user_email", "another@example.com");
               ("details", "generated 10 questions")]])
  end.

Definition delete_user (user_id : string) (current_user : User.t)
  : Exn + (string * string) :=
  match admin_gate current_user with
  | inl e => inl e
  | inr _ => inr ("success", "User " +:+ user_id +:+ " deleted successfully")
  end.

End Admin.

(** ** [api/endpoints/smart_AI_pdf.py] *)

Module SmartPdf.

Record QuestionRequest := mkQuestionRequest {
  pdf_id : string;
  num_questions : Z;
  question_types : list string
}.

Record Question := mkQuestion {
  question : string;
  answer : string;
  question_type : string;
  options : option (list string)
}.

Record QuestionResponse := mkQuestionResponse { questions : list Question }.

(** The collaborators of the pipeline: the hosted model (its answer to
    the n-th call of a request, or the text of the exception it raised),
    the file system, and the loading of a stored index, which gives the
    retriever (query to page contents, two nearest chunks) or fails. *)
Class Pipeline := {
  text_generation : nat → string → string + string;
  path_exists : string → bool;
  load_local : string → option (string → list string)
}.

(** [str(e)], which the handler formats into the detail of a 500: the
    interpreter's message for an exception raised inside the handler,
    named here by its class, and the message of whatever the loading of
    the index at a path raised.  Both vary with the versions of Python
    and of the libraries. *)
Class Messages := {
  str_of_exception : string → string;
  str_of_load_error : string → string
}.

Definition nl : string := String "010"%char EmptyString.

Definition canned_multiple_choice : string :=
  "Question: What is the main topic discussed in this content?" +:+ nl +:+
  "Options:" +:+ nl +:+
  "A) The primary subject matter" +:+ nl +:+
  "B) A secondary concept" +:+ nl +:+
  "C) An unrelated topic" +:+ nl +:+
  "D) A tangential reference" +:+ nl +:+
  "Answer: A - The primary subject matter is the main focus of the text.".

Definition canned_descriptive : string :=
  "Question: Explain the key concept presented in this text." +:+ nl +:+
  "Answer: The text discusses important information related to the main topic. It provides details, explanations, and examples to help understand the concept.".

Definition system_prompt : string :=
  "Create clear questions based on the provided text. Format exactly as instructed.".

Section Generate.
Context `{Pipeline}.

(** [generate_text]: [n] numbers the call to the hosted model. *)
Definition generate_text (n : nat) (prompt : string) : string :=
  let prompt :=
    if (800 <? String.length prompt)%nat then PyStr.take 800 prompt else prompt in
  let full_prompt := system_prompt +:+ nl +:+ nl +:+ prompt in
  match text_generation n full_prompt with
  | inl e => "Error: Could not generate question. Details: " +:+ e
  | inr response =>
      let cleaned_response := PyStr.strip response in
      if negb (PyStr.contains "Question:" cleaned_response) then
        if PyStr.contains "multiple_choice" prompt
        then canned_multiple_choice
        else canned_descriptive
      else cleaned_response
  end.
End Generate.

(** [check_question_generation_limits]: every branch answers [True]. *)
Definition check_question_generation_limits (now : Z)
    (subscriptions : list Subscription.t) : bool :=
  match first (λ sub, Subscription.is_active sub
                      && bool_decide (now < Subscription.end_date sub))
              subscriptions with
  | None => true
  | Some active_subscription =>
      let plan := PyStr.lower (Subscription.plan_name active_subscription) in
      if bool_decide (plan = "free") then true
      else if bool_decide (plan = "pro") then true
      else true
  end.

Definition query_topics : list string :=
  ["main concepts and principles"; "key terms and definitions";
   "important facts and figures"; "processes and methods";
   "theories and frameworks"; "examples and case studies";
   "problems and solutions"; "causes and effects";
   "advantages and disadvantages"; "historical developments";
   "practical applications"; "future implications"].

(** The pool of chunks: a chunk is kept unless its whole content is in
    [used_contexts], which records the first 100 characters of each kept
    chunk. *)
Definition add_docs (docs : list string) (st : list string * gset string)
  : list string * gset string :=
  foldl (λ '(all_docs, used_contexts) page_content,
           if bool_decide (page_content ∈ used_contexts)
           then (all_docs, used_contexts)
           else (all_docs ++ [page_content],
                 {[PyStr.take 100 page_content]} ∪ used_contexts))
        st docs.

Fixpoint more_docs (retriever : string → list string) (num_questions : Z)
    (idxs : list nat) (st : list string * gset string) : list string * gset string :=
  match idxs with
  | [] => st
  | i :: idxs' =>
      let random_term := "topic_" +:+ pretty i in
      let st' := add_docs (retriever random_term) st in
      if bool_decide (num_questions * 2 ≤ Z.of_nat (length (fst st')))
      then st'
      else more_docs retriever num_questions idxs' st'
  end.

Definition gather_docs (retriever : string → list string) (num_questions : Z)
  : list string :=
  let st := foldl (λ st topic, add_docs (retriever topic) st)
                  ([], ∅) (take 6 query_topics) in
  let st :=
    if bool_decide (Z.of_nat (length (fst st)) < num_questions * 2)
    then more_docs retriever num_questions (seq 0 10) st
    else st in
  fst st.

(** The prompt templates.  The four option lines and the answer line
    are common to the three multiple-choice templates. *)
Definition options_format : string :=
  "Options:" +:+ nl +:+
  "A) (correct answer)" +:+ nl +:+
  "B) (plausible but incorrect answer)" +:+ nl +:+
  "C) (plausible but incorrect answer)" +:+ nl +:+
  "D) (plausible but incorrect answer)" +:+ nl +:+
  "Answer: (letter) - (brief explanation based on the text)".

Definition multiple_choice_prompts (context subject : string) : list string :=
  ["Based on this text: " +:+ context +:+ nl +:+ nl +:+
   "Create a multiple choice question about " +:+ subject +:+
   " using this format:" +:+ nl +:+
   "Question: (Ask about " +:+ subject +:+
   " and its significance, purpose, or function)" +:+ nl +:+ options_format;
   "From the following content: " +:+ context +:+ nl +:+ nl +:+
   "Generate a multiple choice question that tests understanding of " +:+
   subject +:+ " with this format:" +:+ nl +:+
   "Question: (Ask about how " +:+ subject +:+
   " works, relates to other concepts, or is applied)" +:+ nl +:+ options_format;
   "Using this excerpt: " +:+ context +:+ nl +:+ nl +:+
   "Create a conceptual multiple choice question about " +:+ subject +:+
   " using this format:" +:+ nl +:+
   "Question: (Ask about the characteristics, types, or components of " +:+
   subject +:+ ")" +:+ nl +:+ options_format].

Definition descriptive_prompts (context subject : string) : list string :=
  ["Based on this text: " +:+ context +:+ nl +:+ nl +:+
   "Create a descriptive question about " +:+ subject +:+
   " using this format:" +:+ nl +:+
   "Question: (Ask about what " +:+ subject +:+
   " is and why it's important)" +:+ nl +:+
   "Answer: (Detailed explanation with relevant information from the text)";
   "From the following content: " +:+ context +:+ nl +:+ nl +:+
   "Generate a descriptive question that explores " +:+ subject +:+
   " with this format:" +:+ nl +:+
   "Question: (Ask about how " +:+ subject +:+
   " works or is implemented)" +:+ nl +:+
   "Answer: (Step-by-step explanation with examples from the text)";
   "Using this excerpt: " +:+ context +:+ nl +:+ nl +:+
   "Create an analytical descriptive question about " +:+ subject +:+
   " using this format:" +:+ nl +:+
   "Question: (Ask about the impact, benefits, or challenges of " +:+
   subject +:+ ")" +:+ nl +:+
   "Answer: (Analytical explanation with evidence from the text)"].

Definition punctuation : string := ".,():;!?".

Definition first_isupper (w : string) : bool :=
  match w with String c _ => PyStr.isupper_char c | EmptyString => false end.

(** The phrases made of two consecutive capitalised words. *)
Fixpoint key_phrases (words : list string) : list string :=
  match words with
  | w1 :: ((w2 :: _) as rest) =>
      (if (2 <? String.length w1)%nat && first_isupper w1
          && (2 <? String.length w2)%nat && first_isupper w2
       then [PyStr.strip_chars punctuation (w1 +:+ " " +:+ w2)]
       else [])
      ++ key_phrases rest
  | _ => []
  end.

Definition choose_subject (used_subjects : gset string) (context : string)
    (i : nat) : string :=
  let words := PyStr.split_ws context in
  let potential_subjects :=
    omap (λ w, if (3 <? String.length w)%nat && first_isupper w
                  && negb (bool_decide
                             (PyStr.strip_chars punctuation w ∈ used_subjects))
               then Some (PyStr.strip_chars punctuation w) else None) words in
  match key_phrases words with
  | phrase :: _ => phrase
  | [] =>
      match potential_subjects with
      | s :: _ => s
      | [] =>
          let technical_terms :=
            omap (λ w, if (5 <? String.length w)%nat
                          && negb (bool_decide
                               (PyStr.lower w ∈
                                  ["because"; "therefore"; "however"; "although"]))
                       then Some (PyStr.strip_chars punctuation w) else None)
                 words in
          match technical_terms with
          | t :: _ => t
          | [] => "topic " +:+ pretty (i + 1)%nat
          end
      end
  end.

(** The local state of the generation loops.  [subject] is the local
    variable of that name: unbound ([None]) until a slot assigns it. *)
Record Loop := mkLoop {
  l_questions : list Question;
  used_subjects : gset string;
  used_questions : gset string;
  calls : nat;
  subject : option string
}.

Definition initial_loop : Loop := mkLoop [] ∅ ∅ O None.

Definition mc_markers : list string := ["A)"; "B)"; "C)"; "D)"].

(** The option lines of a multiple-choice answer. *)
Definition parse_options (options_text : string) : list string :=
  omap (λ opt,
          let o := PyStr.strip opt in
          if PyStr.truthy o && existsb (λ m, PyStr.startswith m o) mc_markers
          then Some (PyStr.strip (PyStr.drop 3 o)) else None)
       (PyStr.split nl options_text).

(** From [result] to a question record, or the [ValueError] raised on
    the way ([IndexError] where an index would be out of range); the
    second component is [used_questions] as the statements executed up
    to that point leave it. *)
Definition parse_result (q_type result : string) (used : gset string)
  : (string + Question) * gset string :=
  let mc := bool_decide (q_type = "multiple_choice") in
  if PyStr.contains "Error:" result then (inl "ValueError", used)
  else
    let parts := PyStr.split "Question:" result in
    if (length parts <? 2)%nat then (inl "ValueError", used)
    else
      match parts !! 1%nat with
      | None => (inl "IndexError", used)
      | Some part1 =>
        let question_text :=
          PyStr.strip (default ""
            (head (PyStr.split (if mc then "Options:" else "Answer:") part1))) in
        if bool_decide (question_text ∈ used) then (inl "ValueError", used)
        else
          let used := {[question_text]} ∪ used in
          if mc then
            if negb (PyStr.contains "Options:" result)
               || negb (PyStr.contains "Answer:" result)
            then (inl "ValueError", used)
            else
              match PyStr.split "Options:" result !! 1%nat,
                    PyStr.split "Answer:" result !! 1%nat with
              | Some after_options, Some after_answer =>
                  let options_text :=
                    PyStr.strip (default ""
                      (head (PyStr.split "Answer:" after_options))) in
                  let options := parse_options options_text in
                  if negb (bool_decide (length options = 4%nat))
                  then (inl "ValueError", used)
                  else (inr (mkQuestion question_text (PyStr.strip after_answer)
                                        q_type (Some options)), used)
              | _, _ => (inl "IndexError", used)
              end
          else
            if negb (PyStr.contains "Answer:" result)
            then (inl "ValueError", used)
            else
              match PyStr.split "Answer:" result !! 1%nat with
              | Some after_answer =>
                  (inr (mkQuestion question_text (PyStr.strip after_answer)
                                   q_type None), used)
              | None => (inl "IndexError", used)
              end
      end.

(** The fallback templates: question, answer, options. *)
Definition multiple_choice_fallbacks (subject : string)
  : list (string * string * list string) :=
  [("What is the primary role of " +:+ subject +:+ " described in the text?",
    "A - It serves as a fundamental concept central to the topic being discussed.",
    ["It serves as a fundamental concept central to the topic being discussed";
     "It represents a minor detail with limited relevance";
     "It contradicts the main principles presented";
     "It is mentioned only as a historical reference"]);
   ("How does " +:+ subject +:+ " relate to the other concepts in the text?",
    "B - It works in conjunction with other elements to form a complete system.",
    ["It operates independently of all other components";
     "It works in conjunction with other elements to form a complete system";
     "It replaces older concepts mentioned in the text";
     "It serves as a counterexample to the main theory"]);
   ("What characteristic of " +:+ subject +:+ " is emphasized in the content?",
    "C - Its practical applications in real-world scenarios.",
    ["Its theoretical foundation and origins";
     "Its limitations and constraints";
     "Its practical applications in real-world scenarios";
     "Its historical development over time"])].

Definition descriptive_fallbacks (subject : string) : list (string * string) :=
  [("Explain the concept of " +:+ subject +:+ " as presented in the text.",
    "The text discusses " +:+ subject +:+ " as an important element that contributes to understanding the main topic. It has specific characteristics and functions that make it relevant in this context.");
   ("What are the key aspects of " +:+ subject +:+ " mentioned in the content?",
    "According to the text, " +:+ subject +:+ " encompasses several important aspects. These include its definition, purpose, and application within the broader framework discussed in the document.");
   ("How does " +:+ subject +:+ " function within the system described in the text?",
    "The text explains that " +:+ subject +:+ " functions by interacting with other components in the system. This interaction facilitates processes that are essential to the overall operation or concept being discussed.")].

(** The question the handler of a failed slot builds; [n] is
    [len(questions)]. *)
Definition fallback_question (q_type subject : string) (i n : nat)
    (used : gset string) : Question :=
  let template_index := ((i + n) mod 3)%nat in
  if bool_decide (q_type = "multiple_choice") then
    let '(q, a, opts) :=
      default ("", "", []) (multiple_choice_fallbacks subject !! template_index) in
    let question_text :=
      if bool_decide (q ∈ used) then q +:+ " (expanded)" else q in
    mkQuestion question_text a q_type (Some opts)
  else
    let '(q, a) :=
      default ("", "") (descriptive_fallbacks subject !! template_index) in
    let question_text :=
      if bool_decide (q ∈ used) then q +:+ " (in detail)" else q in
    mkQuestion question_text a q_type None.

Section Loops.
Context `{Pipeline} `{Messages}.

(** The body of the [try] of one slot, up to the construction of the
    question: the outcome and the loop state at that point. *)
Definition try_slot (all_docs : list string) (q_type : string) (i : nat)
    (st : Loop) : (string + Question) * Loop :=
  if bool_decide (length all_docs = O) then (inl "ZeroDivisionError", st)
  else
    let doc_index := ((i + length (l_questions st)) mod length all_docs)%nat in
    match all_docs !! doc_index with
    | None => (inl "IndexError", st)
    | Some page_content =>
        let context := PyStr.take 350 page_content in
        let subject := choose_subject (used_subjects st) context i in
        let used_subjects' := {[subject]} ∪ used_subjects st in
        let prompt_templates :=
          if bool_decide (q_type = "multiple_choice")
          then multiple_choice_prompts context subject
          else descriptive_prompts context subject in
        let prompt := default "" (prompt_templates !! (i mod 3)%nat) in
        let result := generate_text (calls st) prompt in
        let '(r, used_questions') :=
          parse_result q_type result (used_questions st) in
        (r, mkLoop (l_questions st) used_subjects' used_questions'
                   (S (calls st)) (Some subject))
    end.

(** One slot: the [try] and its handler.  The handler reads [subject];
    when no slot has assigned it yet, that read raises out of the
    handler. *)
Definition slot (all_docs : list string) (q_type : string) (i : nat)
    (st : Loop) : Exn + Loop :=
  match try_slot all_docs q_type i st with
  | (inr q, st') =>
      inr (mkLoop (l_questions st' ++ [q]) (used_subjects st')
                  (used_questions st') (calls st') (subject st'))
  | (inl _, st') =>
      match subject st' with
      | None => inl (UnhandledError "UnboundLocalError")
      | Some subj =>
          let q := fallback_question q_type subj i (length (l_questions st'))
                                     (used_questions st') in
          inr (mkLoop (l_questions st' ++ [q]) (used_subjects st')
                      ({[question q]} ∪ used_questions st')
                      (calls st') (subject st'))
      end
  end.

Fixpoint run_slots (all_docs : list string) (q_type : string)
    (idxs : list nat) (st : Loop) : Exn + Loop :=
  match idxs with
  | [] => inr st
  | i :: idxs' =>
      match slot all_docs q_type i st with
      | inl e => inl e
      | inr st' => run_slots all_docs q_type idxs' st'
      end
  end.

(** [range(n)] *)
Definition range (n : Z) : list nat := seq 0 (Z.to_nat n).

Fixpoint run_types (all_docs : list string)
    (questions_per_type remaining_questions : Z) (types : list string)
    (st : Loop) : Exn + Loop :=
  match types with
  | [] => inr st
  | q_type :: types' =>
      let extra := if bool_decide (0 < remaining_questions) then 1 else 0 in
      let num_questions := questions_per_type + extra in
      let remaining_questions := remaining_questions - extra in
      match run_slots all_docs q_type (range num_questions) st with
      | inl e => inl e
      | inr st' =>
          run_types all_docs questions_per_type remaining_questions types' st'
      end
  end.

(** [generate_questions] for a resolved [current_user], whose
    subscriptions are [subscriptions].  The text after the colon of a 500
    detail is [str(e)], the message of the exception caught. *)
Definition generate_questions (now : Z) (request : QuestionRequest)
    (subscriptions : list Subscription.t) : Exn + QuestionResponse :=
  if negb (check_question_generation_limits now subscriptions)
  then inl (HTTPException 403 "Monthly question generation limit reached")
  else
    let vectorstore_path := "vectorstores/" +:+ pdf_id request in
    if negb (path_exists vectorstore_path)
    then inl (HTTPException 404
                ("PDF with ID " +:+ pdf_id request +:+ " not found"))
    else
      match load_local vectorstore_path with
      | None =>
          inl (HTTPException 500
                 ("Error loading PDF data: "
                  +:+ str_of_load_error vectorstore_path))
      | Some retriever =>
          let n_types := Z.of_nat (length (question_types request)) in
          if bool_decide (n_types = 0)
          then inl (HTTPException 500
                      ("Error generating questions: "
                       +:+ str_of_exception "ZeroDivisionError"))
          else
            let questions_per_type := num_questions request `div` n_types in
            let remaining_questions := num_questions request `mod` n_types in
            let all_docs := gather_docs retriever (num_questions request) in
            match run_types all_docs questions_per_type remaining_questions
                            (question_types request) initial_loop with
            | inl (HTTPException c d) => inl (HTTPException c d)
            | inl IntegrityError =>
                inl (HTTPException 500
                       ("Error generating questions: "
                        +:+ str_of_exception "IntegrityError"))
            | inl (UnhandledError what) =>
                inl (HTTPException 500
                       ("Error generating questions: "
                        +:+ str_of_exception what))
            | inr st => inr (mkQuestionResponse (l_questions st))
            end
      end.

End Loops.

(** [check_user_pdf_limits]: [n_pdfs] is [len(user.pdfs)]. *)
Definition check_user_pdf_limits (now : Z) (subscriptions : list Subscription.t)
    (n_pdfs : nat) : bool :=
  match first (λ sub, Subscription.is_active sub
                      && bool_decide (now < Subscription.end_date sub))
              subscriptions with
  | None => (n_pdfs <? 3)%nat
  | Some active_subscription =>
      let plan := PyStr.lower (Subscription.plan_name active_subscription) in
      if bool_decide (plan = "free") then (n_pdfs <? 3)%nat
      else if bool_decide (plan = "pro") then (n_pdfs <? 10)%nat
      else true
  end.

End SmartPdf.

(** ** [core/rbac.py] *)

Module Rbac.
Section Rbac.

(** The text an f-string gives a member of [UserRole]; it differs between
    interpreter versions. *)
Variable role_text : UserRole → string.

(** [RoleChecker(allowed_roles)(user)], for a resolved [user]. *)
Definition RoleChecker (allowed_roles : list UserRole) (user : User.t)
  : Exn + User.t :=
  if negb (bool_decide (User.role user ∈ allowed_roles))
  then inl (HTTPException HTTP_403_FORBIDDEN
              ("Role " +:+ role_text (User.role user)
               +:+ " not authorized to access this resource"))
  else inr user.

Definition allow_admin : User.t → Exn + User.t := RoleChecker [ADMIN].
Definition allow_moderator : User.t → Exn + User.t :=
  RoleChecker [ADMIN; MODERATOR].
Definition allow_all_users : User.t → Exn + User.t :=
  RoleChecker [ADMIN; MODERATOR; USER].

End Rbac.
End Rbac.

(** ** [api/users.py] *)

Module Users.
Section Users.

Context `{PasswordContext}.
Variable role_text : UserRole → string.

Definition HTTP_404_NOT_FOUND : Z := 404.

Definition update_current_user (now : Z) (user_update : UserUpdate)
    (current_user : User.t) : M User.t :=
  commit (λ d, Services.update_user d now current_user user_update).

Definition change_current_user_password (now : Z)
    (password_change : PasswordChange) (current_user : User.t) : M string :=
  if negb (Security.verify_password (pc_current_password password_change)
                                    (User.hashed_password current_user))
  then http_error HTTP_400_BAD_REQUEST "Incorrect current password"
  else
    commit (λ d, Services.change_user_password d now current_user
                   (pc_new_password password_change));;
    mret "Password successfully changed".

(** [get_user], behind [allow_moderator]. *)
Definition get_user (user_id : Z) (current_user : User.t) : M User.t :=
  d ← get_session;
  match Services.get_user_by_id d user_id with
  | None => http_error HTTP_404_NOT_FOUND "User not found"
  | Some user => mret user
  end.

(** [update_user_role_endpoint], behind [allow_admin]. *)
Definition update_user_role_endpoint (now : Z) (user_id : Z) (role : UserRole)
    (current_user : User.t) : M string :=
  d ← get_session;
  match Services.get_user_by_id d user_id with
  | None => http_error HTTP_404_NOT_FOUND "User not found"
  | Some user =>
      if bool_decide (User.id user = User.id current_user)
      then http_error HTTP_400_BAD_REQUEST "Cannot change own role"
      else
        commit (λ d, Services.update_user_role d now user role);;
        mret ("User role updated to " +:+ role_text role)
  end.

End Users.
End Users.

(** ** The session states of the specification *)

Module SessionStates.

(** The outcomes of session resolution the specification names. *)
Inductive SessionState :=
| NoToken | Expired | Malformed | WrongType | UserMissing | UserInactive
| Valid (user : User.t).

Section Classify.
Context `{Jose} `{SqlEngine}.
Variable settings : Settings.

(** The state of a request, following the specification's words: no
    token present; a token that has expired; a token that does not
    decode or names no subject; a token whose type is not "access"; a
    subject that is not in the store; a subject that is not active;
    otherwise valid. *)
Definition session_state (d : Session) (now : Z) (access_token : option string)
  : SessionState :=
  match access_token with
  | None | Some EmptyString => NoToken
  | Some tok =>
      match jwt_decode now tok (SECRET_KEY settings) [ALGORITHM settings] with
      | inl ExpiredSignatureError => Expired
      | inl _ => Malformed
      | inr payload =>
          match payload !! "type" with
          | Some (JStr "access") =>
              match payload !! "sub" with
              | None | Some JNull => Malformed
              | Some subject =>
                  match filter (λ u, int_eq_param (User.id u) subject = true)
                               (users d) with
                  | [] => UserMissing
                  | user :: _ =>
                      if User.is_active user then Valid user else UserInactive
                  end
              end
          | _ => WrongType
          end
      end
  end.
End Classify.

End SessionStates.

(** ** The operations of the token subsystem *)

Module Lifecycle.

Inductive Op :=
| OpRegister (now : Z) (request : Request) (user_create : UserCreate)
| OpLogin (now : Z) (request : Request) (email password : string)
| OpCreate (now : Z) (user_id : Z) (user_agent ip_address : option string)
| OpLookup (now : Z) (token : string)
| OpRevoke (token : string)
| OpRevokeAll (user_id : Z)
| OpLogout (refresh_token : option string)
| OpRefresh (now : Z) (refresh_token csrf_token x_csrf_token : option string)
| OpVerifyEmail (now : Z) (token : string)
| OpRequestPasswordReset (now : Z) (request : Request) (email : string)
| OpResetPassword (now : Z) (token new_password : string).

Section Step.
Context `{PasswordContext} `{Jose} `{Entropy} `{SqlEngine} `{Outside} `{Limiter}.
Variable settings : Settings.

(** The world an operation leaves, whether it answers or raises. *)
Definition step (w : World) (op : Op) : World :=
  match op with
  | OpRegister now request uc => (Auth.register now request uc w).2
  | OpLogin now request email password =>
      (Auth.login settings now request email password w).2
  | OpCreate now user_id ua ip =>
      (Security.create_refresh_token settings now user_id ua ip w).2
  | OpLookup now token =>
      let _ := Services.get_refresh_token (db w) now token in w
  | OpRevoke token => (run (λ d, Services.revoke_refresh_token d token) w).2
  | OpRevokeAll user_id =>
      (run (λ d, Services.revoke_all_user_refresh_tokens d user_id) w).2
  | OpLogout refresh_token => (Auth.logout refresh_token w).2
  | OpRefresh now rt csrf x_csrf =>
      (Auth.refresh_token settings now rt csrf x_csrf w).2
  | OpVerifyEmail now token => (Auth.verify_email now token w).2
  | OpRequestPasswordReset now request email =>
      (Auth.request_password_reset now request email w).2
  | OpResetPassword now token new_password =>
      (Auth.reset_password now token new_password w).2
  end.

Definition steps (w : World) (ops : list Op) : World := foldl step w ops.
End Step.

End Lifecycle.

(** ** Concrete collaborators, for evaluating the model *)

Module Sample.

Definition pwd : PasswordContext :=
  {| pwd_hash := λ p, "h:" +:+ p;
     pwd_verify := λ p h, bool_decide (h = "h:" +:+ p) |}.

(** A token is ["sub:<id>"] (an access token for that subject),
    ["refresh:<id>"] (another type), ["expired"], or noise. *)
Definition jose : Jose :=
  {| jwt_encode := λ claims _ _,
       match claims !! "sub" with
       | Some (JStr s) => "sub:" +:+ s
       | _ => "noise"
       end;
     jwt_decode := λ _ tok _ _,
       if bool_decide (tok = "expired") then inl ExpiredSignatureError
       else if PyStr.startswith "sub:" tok
       then inr (<["type" := JStr "access"]>
                 (<["sub" := JStr (PyStr.drop 4 tok)]> ∅))
       else if PyStr.startswith "refresh:" tok
       then inr (<["type" := JStr "refresh"]>
                 (<["sub" := JStr (PyStr.drop 8 tok)]> ∅))
       else inl JWTError_other |}.

Definition entropy : Entropy :=
  {| token_urlsafe_at := λ n _, "tok" +:+ pretty n;
     uuid4_at := λ n, "uuid" +:+ pretty n |}.

Definition engine : SqlEngine :=
  {| int_eq_param := λ i v,
       match v with
       | JStr s => bool_decide (pretty i = s)
       | JInt n => bool_decide (i = n)
       | _ => false
       end |}.

Definition outside : Outside :=
  {| render_template := λ name _, name;
     smtp_send := λ _ _ _, Some tt;
     year_of := λ _, 2026;
     ip_address_ok := λ _, false |}.

Definition pipeline : SmartPdf.Pipeline :=
  {| SmartPdf.text_generation := λ _ _, inr "Question: What is Alpha Beta? Answer: A chunk.";
     SmartPdf.path_exists := λ _, true;
     SmartPdf.load_local := λ _, Some (λ _, ["Alpha Beta gamma delta"]) |}.

Definition alice : User.t :=
  User.mk 1 "alice@x.com" "alice" "h:pw12345678" None USER true false 0 None.

Definition bob_inactive : User.t :=
  User.mk 2 "bob@x.com" "bob" "h:pw12345678" None USER false false 0 None.

Definition admin_by_email : User.t :=
  User.mk 3 "admin@example.com" "mallory" "h:pw12345678" None USER true false 0 None.

Definition rt1 : RefreshToken.t :=
  RefreshToken.mk 1 "r1" 1000 false 1 None None 0.
Definition rt2 : RefreshToken.t :=
  RefreshToken.mk 2 "r2" 1000 true 1 None None 0.
Definition rt3 : RefreshToken.t :=
  RefreshToken.mk 3 "r3" 1000 false 2 None None 0.

Definition vt1 : VerificationToken.t := VerificationToken.mk 1 "v1" 1000 1 0.
Definition pt1 : PasswordResetToken.t := PasswordResetToken.mk 1 "p1" 1000 1 0.

Definition store : Session :=
  mkSession [alice; bob_inactive; admin_by_email] [rt1; rt2; rt3] [vt1] [pt1].

Definition world : World := mkWorld store 0 [].

Definition request : Request := mkRequest [("User-Agent", "curl")] (Some "10.0.0.1") "http://h".

(** An index without chunks. *)
Definition empty_pipeline : SmartPdf.Pipeline :=
  {| SmartPdf.text_generation := λ _ _, inr "Question: What is Alpha Beta? Answer: A chunk.";
     SmartPdf.path_exists := λ _, true;
     SmartPdf.load_local := λ _, Some (λ _, []) |}.

Definition negative_request : SmartPdf.QuestionRequest :=
  SmartPdf.mkQuestionRequest "doc" (-1) ["multiple_choice"].

(** An index whose file is there but does not load. *)
Definition unloadable_pipeline : SmartPdf.Pipeline :=
  {| SmartPdf.text_generation := λ _ _, inr "Question: What is Alpha Beta? Answer: A chunk.";
     SmartPdf.path_exists := λ _, true;
     SmartPdf.load_local := λ _, None |}.

Definition one_request : SmartPdf.QuestionRequest :=
  SmartPdf.mkQuestionRequest "doc" 1 ["multiple_choice"].

(** The messages of CPython 3.12. *)
Definition messages : SmartPdf.Messages :=
  {| SmartPdf.str_of_exception := λ class,
       if bool_decide (class = "ZeroDivisionError")
       then "integer division or modulo by zero"
       else if bool_decide (class = "UnboundLocalError")
       then "cannot access local variable 'subject' where it is not associated with a value"
       else class;
     SmartPdf.str_of_load_error := λ path, "could not open " +:+ path |}.

(** A limiter that lets every request through, and one that was never
    initialised. *)
Definition limiter : Limiter := {| RateLimiter := λ _ _ _ _, None |}.

Definition uninitialised_limiter : Limiter :=
  {| RateLimiter := λ _ _ _ _, Some (UnhandledError "Exception") |}.

(** A request that reaches the application without a peer address and
    without a forwarding header. *)
Definition request_no_peer : Request :=
  mkRequest [("User-Agent", "curl")] None "http://h".

(** A store that already holds the token the next draw gives. *)
Definition rt_next : RefreshToken.t :=
  RefreshToken.mk 4 "tok1" 1000 false 2 None None 0.

Definition colliding_world : World :=
  mkWorld (mkSession [alice; bob_inactive; admin_by_email]
                     [rt1; rt2; rt3; rt_next] [vt1] [pt1]) 0 [].

End Sample.

(** ** Vocabulary of the statements *)

(** A row after an update: untouched, or the same row with the flag set. *)
Definition kept_or_revoked (r r' : RefreshToken.t) : Prop :=
  r' = r ∨ r' = RefreshToken.set_revoked r.

(** The rows of one table after an operation, position by position. *)
Definition rows_preserved (l l' : list RefreshToken.t) : Prop :=
  ∀ i r, l !! i = Some r → ∃ r', l' !! i = Some r' ∧ kept_or_revoked r r'.

(** A computation keeps the refresh-token table when, whatever it answers,
    the table it leaves preserves the rows of the table it found. *)
Definition keeps_tokens {A} (c : M A) : Prop :=
  ∀ w, rows_preserved (refresh_tokens (db w)) (refresh_tokens (db (c w).2)).

(** The unique indexes of the store: primary keys, emails and usernames
    of [users], and the token strings of the three token tables. *)
Record unique_indexes (d : Session) : Prop := mk_unique_indexes {
  ui_user_id : NoDup (User.id <$> users d);
  ui_email : NoDup (User.email <$> users d);
  ui_username : NoDup (User.username <$> users d);
  ui_refresh : NoDup (RefreshToken.token <$> refresh_tokens d);
  ui_verification : NoDup (VerificationToken.token <$> verification_tokens d);
  ui_reset : NoDup (PasswordResetToken.token <$> password_reset_tokens d)
}.

(** A question of a response is well formed: four options exactly when
    its type is "multiple_choice", none otherwise. *)
Definition well_formed_question (q : SmartPdf.Question) : Prop :=
  if bool_decide (SmartPdf.question_type q = "multiple_choice")
  then ∃ opts, SmartPdf.options q = Some opts ∧ length opts = 4%nat
  else SmartPdf.options q = None.

(** A handler preserves a property of the store when the store it
    leaves, whether it answers or raises, has the property whenever the
    store it found had it. *)
Definition preserves {A} (P : Session → Prop) (c : M A) : Prop :=
  ∀ w, P (db w) → P (db (c w).2).

(** The invariant of the generation loops, for a pool [all_docs] and the
    requested [types]: every question so far is well formed and of a
    requested type, there has been one call to the model per question, the
    text of every question so far is recorded as used, and [subject] is
    unbound as long as the pool is empty. *)
Definition loop_invariant (all_docs : list string) (types : list string)
    (st : SmartPdf.Loop) : Prop :=
  Forall (λ q, well_formed_question q ∧ (SmartPdf.question_type q ∈ types))
         (SmartPdf.l_questions st)
  ∧ SmartPdf.calls st = length (SmartPdf.l_questions st)
  ∧ (∀ q, q ∈ SmartPdf.l_questions st →
          SmartPdf.question q ∈ SmartPdf.used_questions st)
  ∧ (all_docs = [] → SmartPdf.subject st = None).

(** The subject and the text of a slot: what the [try] chooses from the
    chunk of the slot, and what the model returns for the prompt of the
    slot.  There is neither when the pool is empty. *)
Definition slot_subject (all_docs : list string) (i : nat) (st : SmartPdf.Loop)
  : option string :=
  page_content ←
    all_docs !! ((i + length (SmartPdf.l_questions st)) mod length all_docs)%nat;
  Some (SmartPdf.choose_subject (SmartPdf.used_subjects st)
          (PyStr.take 350 page_content) i).

Definition slot_text `{SmartPdf.Pipeline} (all_docs : list string)
    (q_type : string) (i : nat) (st : SmartPdf.Loop) : option string :=
  page_content ←
    all_docs !! ((i + length (SmartPdf.l_questions st)) mod length all_docs)%nat;
  let context := PyStr.take 350 page_content in
  let subject := SmartPdf.choose_subject (SmartPdf.used_subjects st) context i in
  let prompt_templates :=
    if bool_decide (q_type = "multiple_choice")
    then SmartPdf.multiple_choice_prompts context subject
    else SmartPdf.descriptive_prompts context subject in
  Some (SmartPdf.generate_text (SmartPdf.calls st)
          (default "" (prompt_templates !! (i mod 3)%nat))).

(** What the [try] reads in a generated text: the question text, between
    the first "Question:" and the next section, and the option lines,
    between the first "Options:" and the next "Answer:". *)
Definition question_text_of (q_type result : string) : string :=
  PyStr.strip (default ""
    (head (PyStr.split
             (if bool_decide (q_type = "multiple_choice")
              then "Options:" else "Answer:")
             (default "" (PyStr.split "Question:" result !! 1%nat))))).

Definition options_of (result : string) : list string :=
  SmartPdf.parse_options
    (PyStr.strip (default ""
       (head (PyStr.split "Answer:"
                (default "" (PyStr.split "Options:" result !! 1%nat)))))).

(** The three ways a generated text is turned down.  It does not parse: it
    reports an error, or lacks the question section, the answer section
    or, for a multiple-choice slot, the options section.  A multiple-choice
    text does not have exactly four options.  The question text is one
    already recorded as used. *)
Definition parse_fails (q_type result : string) : Prop :=
  PyStr.contains "Error:" result = true
  ∨ (length (PyStr.split "Question:" result) < 2)%nat
  ∨ (q_type = "multiple_choice" ∧ PyStr.contains "Options:" result = false)
  ∨ PyStr.contains "Answer:" result = false.

Definition wrong_option_count (q_type result : string) : Prop :=
  q_type = "multiple_choice" ∧ length (options_of result) ≠ 4%nat.

Definition duplicate_text (q_type result : string) (st : SmartPdf.Loop) : Prop :=
  question_text_of q_type result ∈ SmartPdf.used_questions st.

(** The text of every question produced so far is recorded as used. *)
Definition texts_recorded (st : SmartPdf.Loop) : Prop :=
  ∀ q, q ∈ SmartPdf.l_questions st →
       SmartPdf.question q ∈ SmartPdf.used_questions st.

(** * Properties *)

(** ** Queries on a table *)

Section Queries.
Context {A : Type}.
Implicit Types (p : A → bool) (l : list A).

Lemma first_ref_Some p l i x :
  first_ref p l = Some (i, x) →
  l !! i = Some x ∧ p x = true ∧ ∀ j y, (j < i)%nat → l !! j = Some y → p y = false.
Proof.
  revert i. induction l as [|a l IH]; intros i Hf; simpl in Hf; [done|].
  destruct (p a) eqn:Hpa.
  - injection Hf as <- <-. repeat split; [done|]. intros; lia.
  - destruct (first_ref p l) as [[k z]|] eqn:Hr; simpl in Hf; [|done].
    injection Hf as <- <-. destruct (IH k eq_refl) as (Hl & Hp & Hlt).
    repeat split; [done..|]. intros [|j] y Hj Hy; simpl in Hy.
    + by injection Hy as <-.
    + apply (Hlt j); [lia|done].
Qed.

Lemma first_ref_None p l :
  first_ref p l = None ↔ ∀ x, x ∈ l → p x = false.
Proof.
  induction l as [|a l IH]; simpl.
  - split; [|done]. intros _ x Hx. by apply elem_of_nil in Hx.
  - destruct (p a) eqn:Hpa.
    + split; [done|]. intros Hall.
      rewrite (Hall a) in Hpa; [done|by left].
    + destruct (first_ref p l) as [[k z]|] eqn:Hr; simpl.
      * split; [done|]. intros Hall.
        assert (Hn : None = Some (k, z)); [|done].
        symmetry. apply IH. intros x Hx. apply Hall. by right.
      * split; [|done]. intros _ x Hx.
        apply elem_of_cons in Hx as [->|Hx]; [done|]. by apply IH.
Qed.

Lemma first_None p l : first p l = None ↔ ∀ x, x ∈ l → p x = false.
Proof.
  unfold first. rewrite <- first_ref_None.
  destruct (first_ref p l); simpl; split; congruence.
Qed.

Lemma first_Some_elem p l x : first p l = Some x → x ∈ l ∧ p x = true.
Proof.
  unfold first. destruct (first_ref p l) as [[i y]|] eqn:Hr; simpl; [|done].
  intros [= <-]. apply first_ref_Some in Hr as (Hl & Hp & _).
  split; [|done]. by eapply list_elem_of_lookup_2.
Qed.

Lemma first_is_Some p l x : x ∈ l → p x = true → is_Some (first p l).
Proof.
  intros Hx Hp. destruct (first p l) eqn:Hf; [by eexists|].
  rewrite first_None in Hf. rewrite (Hf x Hx) in Hp. done.
Qed.

(** Writing through the reference keeps it the first match, as long as
    the written row still passes the filter. *)
Lemma first_ref_insert p l i x y :
  first_ref p l = Some (i, x) → p y = true →
  first_ref p (<[i := y]> l) = Some (i, y).
Proof.
  revert i. induction l as [|a l IH]; intros i Hf Hy; simpl in Hf; [done|].
  destruct (p a) eqn:Hpa.
  - injection Hf as <- <-. simpl. by rewrite Hy.
  - destruct (first_ref p l) as [[k z]|] eqn:Hr; simpl in Hf; [|done].
    injection Hf as <- <-. simpl. rewrite Hpa, (IH k eq_refl Hy). done.
Qed.

(** With a unique column [f], deleting the row at [i] leaves no row
    with that row's value of [f]. *)
Lemma delete_unique {B} (f : A → B) l i x y :
  NoDup (f <$> l) → l !! i = Some x → y ∈ delete i l → f y ≠ f x.
Proof.
  intros Hnd Hi Hy Heq.
  apply list_elem_of_lookup in Hy as [j Hj].
  destruct (decide (j < i)%nat) as [Hlt|Hge].
  - rewrite list_lookup_delete_lt in Hj by done.
    assert (j = i); [|lia].
    eapply (NoDup_lookup _ j i (f x) Hnd); rewrite list_lookup_fmap.
    + rewrite Hj. simpl. by f_equal.
    + by rewrite Hi.
  - rewrite list_lookup_delete_ge in Hj by lia.
    assert (S j = i); [|lia].
    eapply (NoDup_lookup _ (S j) i (f x) Hnd); rewrite list_lookup_fmap.
    + rewrite Hj. simpl. by f_equal.
    + by rewrite Hi.
Qed.

End Queries.

(** ** Revocation ([services/user.py]) *)

Lemma set_revoked_idemp r :
  RefreshToken.set_revoked (RefreshToken.set_revoked r) = RefreshToken.set_revoked r.
Proof. by destruct r. Qed.

Lemma set_revoked_revoked r :
  RefreshToken.revoked r = true → RefreshToken.set_revoked r = r.
Proof. destruct r; simpl; by intros ->. Qed.

Lemma set_revoked_token r :
  RefreshToken.token (RefreshToken.set_revoked r) = RefreshToken.token r.
Proof. done. Qed.

Lemma kept_or_revoked_refl r : kept_or_revoked r r.
Proof. by left. Qed.

Lemma kept_or_revoked_trans r1 r2 r3 :
  kept_or_revoked r1 r2 → kept_or_revoked r2 r3 → kept_or_revoked r1 r3.
Proof.
  intros [->| ->] [->| ->]; try (by left); by right.
Qed.

Lemma kept_or_revoked_mono r r' :
  kept_or_revoked r r' → RefreshToken.revoked r = true → r' = r.
Proof. intros [->| ->] Hr; [done|]. by apply set_revoked_revoked. Qed.

Lemma rows_preserved_refl l : rows_preserved l l.
Proof. intros i r Hi. exists r. split; [done|apply kept_or_revoked_refl]. Qed.

Lemma rows_preserved_trans l1 l2 l3 :
  rows_preserved l1 l2 → rows_preserved l2 l3 → rows_preserved l1 l3.
Proof.
  intros H12 H23 i r Hi.
  destruct (H12 i r Hi) as (r2 & Hi2 & Hk2).
  destruct (H23 i r2 Hi2) as (r3 & Hi3 & Hk3).
  exists r3. split; [done|]. by eapply kept_or_revoked_trans.
Qed.

Lemma rows_preserved_app l r : rows_preserved l (l ++ [r]).
Proof.
  intros i x Hi. exists x. split; [|apply kept_or_revoked_refl].
  by apply lookup_app_l_Some.
Qed.

Lemma revoke_refresh_token_rows db token :
  rows_preserved (refresh_tokens db)
                 (refresh_tokens (Services.revoke_refresh_token db token).2).
Proof.
  unfold Services.revoke_refresh_token.
  destruct (first_ref _ (refresh_tokens db)) as [[i x]|] eqn:Hf; simpl;
    [|apply rows_preserved_refl].
  apply first_ref_Some in Hf as (Hi & _ & _).
  intros j r Hj. destruct (decide (i = j)) as [->|Hne].
  - exists (RefreshToken.set_revoked x). split.
    + apply list_lookup_insert_eq. by eapply lookup_lt_Some.
    + right. congruence.
  - exists r. split; [|apply kept_or_revoked_refl].
    by rewrite list_lookup_insert_ne.
Qed.

Lemma revoke_all_rows db user_id :
  rows_preserved (refresh_tokens db)
                 (refresh_tokens (Services.revoke_all_user_refresh_tokens db user_id).2).
Proof.
  unfold Services.revoke_all_user_refresh_tokens.
  destruct (all _ (refresh_tokens db)); simpl; [apply rows_preserved_refl|].
  intros j r Hj. rewrite list_lookup_fmap, Hj. simpl.
  eexists. split; [done|].
  destruct (_ && _); [by right|by left].
Qed.

(** C3: revoking a refresh token twice leaves exactly the store that
    revoking it once leaves, with the same answer, and revoking deletes
    no row: the table keeps its length and every row stays at its
    position, untouched or with only its flag set. *)
Theorem revoke_refresh_token_idempotent (db : Session) (token : string) :
  let once := Services.revoke_refresh_token db token in
  let twice := Services.revoke_refresh_token once.2 token in
  twice.2 = once.2
  ∧ twice.1 = once.1
  ∧ length (refresh_tokens once.2) = length (refresh_tokens db)
  ∧ rows_preserved (refresh_tokens db) (refresh_tokens once.2)
  ∧ users once.2 = users db
  ∧ verification_tokens once.2 = verification_tokens db
  ∧ password_reset_tokens once.2 = password_reset_tokens db.
Proof.
  intros once twice.
  split; [|split; [|split; [|split; [apply revoke_refresh_token_rows|]]]];
    subst once twice; unfold Services.revoke_refresh_token;
    destruct (first_ref _ (refresh_tokens db)) as [[i x]|] eqn:Hf; simpl;
    try rewrite Hf; simpl; try done.
  - rewrite (first_ref_insert _ _ _ _ (RefreshToken.set_revoked x) Hf)
      by (apply first_ref_Some in Hf as (_ & Hp & _); done).
    simpl. unfold Services.with_refresh_tokens. simpl.
    by rewrite list_insert_insert_eq, set_revoked_idemp.
  - by rewrite (first_ref_insert _ _ _ _ (RefreshToken.set_revoked x) Hf)
      by (apply first_ref_Some in Hf as (_ & Hp & _); done).
  - by rewrite length_insert.
Qed.

(** ** Handlers and the refresh-token table *)

Lemma keeps_ret {A} (a : A) : keeps_tokens (mret a).
Proof. intros w. apply rows_preserved_refl. Qed.

Lemma keeps_raise {A} (e : Exn) : keeps_tokens (@raise A e).
Proof. intros w. apply rows_preserved_refl. Qed.

Lemma keeps_http_error {A} s d : keeps_tokens (@http_error A s d).
Proof. apply keeps_raise. Qed.

Lemma keeps_bind {A B} (c : M A) (f : A → M B) :
  keeps_tokens c → (∀ a, keeps_tokens (f a)) → keeps_tokens (c ≫= f).
Proof.
  intros Hc Hf w. unfold mbind, M_bind. specialize (Hc w).
  destruct (c w) as [[e|a] w']; simpl in *; [done|].
  eapply rows_preserved_trans; [exact Hc|apply Hf].
Qed.

Lemma keeps_try_except {A} (c : M A) (h : Exn → M A) :
  keeps_tokens c → (∀ e, keeps_tokens (h e)) → keeps_tokens (try_except c h).
Proof.
  intros Hc Hh w. unfold try_except. specialize (Hc w).
  destruct (c w) as [[e|a] w']; simpl in *; [|done].
  eapply rows_preserved_trans; [exact Hc|apply Hh].
Qed.

Lemma keeps_get_session : keeps_tokens get_session.
Proof. intros w. apply rows_preserved_refl. Qed.

Lemma keeps_draw : keeps_tokens draw.
Proof. intros w. apply rows_preserved_refl. Qed.

Lemma keeps_post msg : keeps_tokens (post msg).
Proof. intros w. apply rows_preserved_refl. Qed.

Lemma keeps_lift {A} (r : Exn + A) : keeps_tokens (Auth.lift r).
Proof. intros w. apply rows_preserved_refl. Qed.

Lemma keeps_commit {A} (op : Session → Exn + (A * Session)) :
  (∀ d a d', op d = inr (a, d') →
             rows_preserved (refresh_tokens d) (refresh_tokens d')) →
  keeps_tokens (commit op).
Proof.
  intros Hop w. unfold commit.
  destruct (op (db w)) as [e|[a d']] eqn:Ho; simpl.
  - apply rows_preserved_refl.
  - by eapply Hop.
Qed.

Lemma keeps_run {A} (op : Session → A * Session) :
  (∀ d, rows_preserved (refresh_tokens d) (refresh_tokens (op d).2)) →
  keeps_tokens (run op).
Proof.
  intros Hop w. unfold run. specialize (Hop (db w)).
  by destruct (op (db w)) as [a d'].
Qed.

Create HintDb keeps discriminated.
#[local] Hint Resolve keeps_ret keeps_raise keeps_http_error keeps_get_session
  keeps_draw keeps_post keeps_lift rows_preserved_refl : keeps.

Lemma keeps_Depends verdict : keeps_tokens (Depends verdict).
Proof. destruct verdict; simpl; auto with keeps. Qed.

#[local] Hint Resolve keeps_Depends : keeps.

(** Decompose a handler along its binds, handlers and branches. *)
Ltac keeps_step :=
  match goal with
  | |- keeps_tokens (_ ≫= _) => apply keeps_bind; [|intros ?]
  | |- keeps_tokens (try_except _ _) => apply keeps_try_except; [|intros ?]
  | |- keeps_tokens (if ?b then _ else _) => destruct b
  | |- keeps_tokens (match ?x with _ => _ end) => destruct x
  | |- keeps_tokens _ => solve [auto with keeps]
  end.

Section TokenTable.
Context `{PasswordContext} `{Jose} `{Entropy} `{SqlEngine} `{Outside} `{Limiter}.
Variable settings : Settings.

Lemma keeps_token_urlsafe n : keeps_tokens (Security.token_urlsafe n).
Proof. unfold Security.token_urlsafe. repeat keeps_step. Qed.

Lemma keeps_create_access_token now subject role delta :
  keeps_tokens (Security.create_access_token settings now subject role delta).
Proof. unfold Security.create_access_token, Security.uuid4. repeat keeps_step. Qed.

Lemma insert_refresh_token_rows r d a d' :
  Security.insert_refresh_token r d = inr (a, d') →
  refresh_tokens d' = refresh_tokens d ++ [r].
Proof.
  unfold Security.insert_refresh_token. case_bool_decide; [done|].
  by intros [= <- <-].
Qed.

Lemma keeps_create_refresh_token now user_id ua ip :
  keeps_tokens (Security.create_refresh_token settings now user_id ua ip).
Proof.
  unfold Security.create_refresh_token.
  pose proof keeps_token_urlsafe. repeat keeps_step.
  apply keeps_commit. intros dA rA dB Hi.
  rewrite (insert_refresh_token_rows _ _ _ _ Hi). apply rows_preserved_app.
Qed.

Lemma keeps_create_verification_token now user :
  keeps_tokens (Email.create_verification_token now user).
Proof.
  unfold Email.create_verification_token.
  pose proof keeps_token_urlsafe. repeat keeps_step.
  apply keeps_commit. intros dA rA dB. unfold Email.insert_verification_token.
  case_bool_decide; [done|]. intros [= <- <-]. apply rows_preserved_refl.
Qed.

Lemma keeps_create_password_reset_token now user :
  keeps_tokens (Email.create_password_reset_token now user).
Proof.
  unfold Email.create_password_reset_token.
  pose proof keeps_token_urlsafe. repeat keeps_step.
  apply keeps_commit. intros dA rA dB. unfold Email.insert_password_reset_token.
  case_bool_decide; [done|]. intros [= <- <-]. apply rows_preserved_refl.
Qed.

Lemma keeps_send_email to subject html :
  keeps_tokens (Email.send_email to subject html).
Proof. unfold Email.send_email. repeat keeps_step. Qed.

Lemma keeps_register now request uc : keeps_tokens (Auth.register now request uc).
Proof.
  unfold Auth.register, Email.send_verification_email.
  pose proof keeps_create_verification_token. pose proof keeps_send_email.
  repeat keeps_step.
  apply keeps_commit. intros dA rA dB. unfold Services.create_user.
  destruct (Services.users_insert_ok _ _); [|done].
  intros [= <- <-]. apply rows_preserved_refl.
Qed.

Lemma keeps_login now request email password :
  keeps_tokens (Auth.login settings now request email password).
Proof.
  unfold Auth.login, Auth.login_with, Security.generate_csrf_token.
  pose proof keeps_create_access_token. pose proof keeps_create_refresh_token.
  pose proof keeps_token_urlsafe. repeat keeps_step.
Qed.

Lemma keeps_refresh_token now rt csrf x_csrf :
  keeps_tokens (Auth.refresh_token settings now rt csrf x_csrf).
Proof.
  unfold Auth.refresh_token, Security.generate_csrf_token.
  pose proof keeps_create_access_token. pose proof keeps_token_urlsafe.
  repeat keeps_step.
Qed.

Lemma keeps_logout rt : keeps_tokens (Auth.logout rt).
Proof.
  unfold Auth.logout. repeat keeps_step.
  apply keeps_run. intros d. apply revoke_refresh_token_rows.
Qed.

Lemma keeps_verify_email now token : keeps_tokens (Auth.verify_email now token).
Proof.
  unfold Auth.verify_email. apply keeps_bind; [|intros ?; repeat keeps_step].
  apply keeps_run. intros d. unfold Services.verify_user_email.
  repeat case_match; apply rows_preserved_refl.
Qed.

Lemma keeps_request_password_reset now request email :
  keeps_tokens (Auth.request_password_reset now request email).
Proof.
  unfold Auth.request_password_reset, Email.send_password_reset_email.
  pose proof keeps_create_password_reset_token. pose proof keeps_send_email.
  repeat keeps_step.
Qed.

Lemma keeps_reset_password now token new_password :
  keeps_tokens (Auth.reset_password now token new_password).
Proof.
  unfold Auth.reset_password. apply keeps_bind.
  - apply keeps_run. intros d. unfold Services.reset_user_password.
    repeat case_match; apply rows_preserved_refl.
  - intros [u|]; repeat keeps_step.
    apply keeps_run. intros d. apply revoke_all_rows.
Qed.

Lemma step_rows w op :
  rows_preserved (refresh_tokens (db w))
                 (refresh_tokens (db (Lifecycle.step settings w op))).
Proof.
  destruct op; simpl.
  - apply keeps_register.
  - apply keeps_login.
  - apply keeps_create_refresh_token.
  - apply rows_preserved_refl.
  - apply (keeps_run (λ d, Services.revoke_refresh_token d token)).
    intros d. apply revoke_refresh_token_rows.
  - apply (keeps_run (λ d, Services.revoke_all_user_refresh_tokens d user_id)).
    intros d. apply revoke_all_rows.
  - apply keeps_logout.
  - apply keeps_refresh_token.
  - apply keeps_verify_email.
  - apply keeps_request_password_reset.
  - apply keeps_reset_password.
Qed.

Lemma steps_rows ops : ∀ w,
  rows_preserved (refresh_tokens (db w))
                 (refresh_tokens (db (Lifecycle.steps settings w ops))).
Proof.
  induction ops as [|op ops IH]; intros w; simpl.
  - apply rows_preserved_refl.
  - eapply rows_preserved_trans; [apply step_rows|apply IH].
Qed.

End TokenTable.

(** C9: the revoked flag of a refresh-token row is monotonic.  A token is
    created with the flag unset; and along any sequence of operations of
    the subsystem (register, login, create, lookup, revoke, revoke-all,
    logout, refresh, verify-email, request-password-reset, reset-password)
    a revoked row stays where it is, unchanged, and every row stays at its
    position, untouched or with only its flag set. *)
Theorem revoked_flag_monotonic
    `{PasswordContext} `{Jose} `{Entropy} `{SqlEngine} `{Outside} `{Limiter}
    (settings : Settings) :
  (∀ w now user_id ua ip tok w',
     Security.create_refresh_token settings now user_id ua ip w = (inr tok, w') →
     ∃ r, refresh_tokens (db w') = refresh_tokens (db w) ++ [r]
          ∧ RefreshToken.token r = tok ∧ RefreshToken.revoked r = false)
  ∧ (∀ w ops i r,
       refresh_tokens (db w) !! i = Some r → RefreshToken.revoked r = true →
       refresh_tokens (db (Lifecycle.steps settings w ops)) !! i = Some r)
  ∧ (∀ w ops,
       rows_preserved (refresh_tokens (db w))
                      (refresh_tokens (db (Lifecycle.steps settings w ops)))).
Proof.
  split; [|split].
  - intros w now user_id ua ip tok w'.
    unfold Security.create_refresh_token, Security.token_urlsafe, draw,
      get_session, commit, Security.insert_refresh_token, mbind, M_bind, mret, M_ret.
    simpl. case_bool_decide; simpl; [done|].
    intros [= <- <-]. simpl. by eexists.
  - intros w ops i r Hi Hr.
    destruct (steps_rows settings ops w i r Hi) as (r' & Hi' & Hk).
    by rewrite Hi', (kept_or_revoked_mono _ _ Hk Hr).
  - intros w ops. apply steps_rows.
Qed.

Lemma revoked_flag_monotonic_witness :
  refresh_tokens
    (db (@Lifecycle.steps Sample.pwd Sample.jose Sample.entropy Sample.outside
           Sample.limiter
           default_settings Sample.world
           [Lifecycle.OpLogin 5 Sample.request "alice@x.com" "pw12345678";
            Lifecycle.OpRevoke "r1";
            Lifecycle.OpResetPassword 6 "p1" "abcdefgh";
            Lifecycle.OpLogout (Some "r2")])) !! 1%nat
  = Some Sample.rt2.
Proof.
  apply (proj1 (proj2 (@revoked_flag_monotonic Sample.pwd Sample.jose
                         Sample.entropy Sample.engine Sample.outside
                         Sample.limiter default_settings))).
  - reflexivity.
  - reflexivity.
Defined.

(** ** Password reset ([api/auth.py], [services/user.py]) *)

Lemma filter_nil_all {A} (p : A → bool) (l : list A) x :
  all p l = [] → x ∈ l → p x = false.
Proof.
  unfold all. intros Hnil Hx. destruct (p x) eqn:Hp; [|done].
  assert (Hin : x ∈ filter (λ y, p y = true) l) by (by apply list_elem_of_filter).
  rewrite Hnil in Hin. by apply elem_of_nil in Hin.
Qed.

Lemma revoke_all_lookup db user_id i r :
  refresh_tokens db !! i = Some r → RefreshToken.user_id r = user_id →
  refresh_tokens (Services.revoke_all_user_refresh_tokens db user_id).2 !! i
  = Some (RefreshToken.set_revoked r).
Proof.
  intros Hi Hu. unfold Services.revoke_all_user_refresh_tokens.
  destruct (all _ (refresh_tokens db)) eqn:Hall; simpl.
  - rewrite Hi. f_equal. symmetry. apply set_revoked_revoked.
    eapply filter_nil_all in Hall; [|by eapply list_elem_of_lookup_2].
    simpl in Hall. rewrite Hu, bool_decide_eq_true_2 in Hall by done.
    simpl in Hall. apply bool_decide_eq_false in Hall.
    by destruct (RefreshToken.revoked r).
  - rewrite list_lookup_fmap, Hi. simpl. f_equal.
    rewrite Hu, bool_decide_eq_true_2 by done. simpl.
    case_bool_decide as Hr; [done|].
    symmetry. apply set_revoked_revoked. by destruct (RefreshToken.revoked r).
Qed.

Lemma revoke_all_token_column db user_id :
  RefreshToken.token <$> refresh_tokens (Services.revoke_all_user_refresh_tokens db user_id).2
  = RefreshToken.token <$> refresh_tokens db.
Proof.
  unfold Services.revoke_all_user_refresh_tokens.
  destruct (all _ (refresh_tokens db)); simpl; [done|].
  rewrite <- list_fmap_compose. apply list_fmap_ext. intros i r _. simpl.
  by destruct (_ && _).
Qed.

Lemma reset_user_password_refresh_tokens `{PasswordContext} db now token pw :
  refresh_tokens (Services.reset_user_password db now token pw).2 = refresh_tokens db.
Proof. unfold Services.reset_user_password. by repeat case_match. Qed.

(** A revoked row with a unique token string answers no lookup. *)
Lemma get_refresh_token_revoked db now i r :
  NoDup (RefreshToken.token <$> refresh_tokens db) →
  refresh_tokens db !! i = Some r → RefreshToken.revoked r = true →
  Services.get_refresh_token db now (RefreshToken.token r) = None.
Proof.
  intros Hnd Hi Hr. unfold Services.get_refresh_token. apply first_None.
  intros x Hx. apply list_elem_of_lookup in Hx as [j Hj].
  destruct (decide (RefreshToken.token x = RefreshToken.token r)) as [Heq|Hne].
  - assert (j = i) as ->.
    { eapply (NoDup_lookup _ j i (RefreshToken.token r) Hnd);
        rewrite list_lookup_fmap.
      - rewrite Hj. simpl. by f_equal.
      - by rewrite Hi. }
    assert (x = r) as -> by congruence.
    rewrite Hr. rewrite (bool_decide_eq_false_2 (true = false)) by done.
    apply andb_false_r.
  - by rewrite (bool_decide_eq_false_2 _ Hne).
Qed.

(** C1: when the reset-password flow succeeds, every refresh token stored
    for that user is then marked revoked, and a later [get_refresh_token]
    with any such token string finds nothing.  Token strings are unique in
    the table (its unique index). *)
Theorem reset_password_revokes_all `{PasswordContext}
    (now : Z) (token new_password : string) (w w1 : World) (msg : string) :
  NoDup (RefreshToken.token <$> refresh_tokens (db w)) →
  Auth.reset_password now token new_password w = (inr msg, w1) →
  ∃ user,
    (Services.reset_user_password (db w) now token new_password).1 = Some user
    ∧ ∀ i r,
        refresh_tokens (db w) !! i = Some r →
        RefreshToken.user_id r = User.id user →
        (∃ r', refresh_tokens (db w1) !! i = Some r'
               ∧ r' = RefreshToken.set_revoked r
               ∧ RefreshToken.revoked r' = true)
        ∧ ∀ now', Services.get_refresh_token (db w1) now' (RefreshToken.token r)
                  = None.
Proof.
  intros Hnd. unfold Auth.reset_password, run, mbind, M_bind, mret, M_ret, http_error, raise.
  pose proof (reset_user_password_refresh_tokens (db w) now token new_password) as Hsame.
  destruct (Services.reset_user_password (db w) now token new_password)
    as [[user|] d1] eqn:Hreset; simpl in *; [|done].
  pose proof (revoke_all_lookup d1 (User.id user)) as Hlook.
  pose proof (revoke_all_token_column d1 (User.id user)) as Hcol.
  destruct (Services.revoke_all_user_refresh_tokens d1 (User.id user))
    as [b d2] eqn:Hrev; simpl in *.
  intros [= <- <-]. simpl. exists user. split; [done|].
  intros i r Hi Hu. rewrite <- Hsame in Hi.
  specialize (Hlook i r Hi Hu).
  split; [by eexists|].
  intros now'.
  change (RefreshToken.token r) with (RefreshToken.token (RefreshToken.set_revoked r)).
  eapply get_refresh_token_revoked; [|exact Hlook|done].
  by rewrite Hcol, Hsame.
Qed.

Lemma reset_password_revokes_all_witness :
  Services.get_refresh_token
    (db (@Auth.reset_password Sample.pwd 5 "p1" "abcdefgh" Sample.world).2)
    7 "r1" = None.
Proof.
  destruct (@reset_password_revokes_all Sample.pwd 5 "p1" "abcdefgh" Sample.world
              (@Auth.reset_password Sample.pwd 5 "p1" "abcdefgh" Sample.world).2
              "Password successfully reset") as (user & Hu & Hall).
  - apply (bool_decide_unpack _). vm_compute. exact I.
  - reflexivity.
  - injection Hu as <-.
    exact (proj2 (Hall 0%nat Sample.rt1 eq_refl eq_refl) 7).
Defined.

(** ** Single-use tokens ([services/user.py]) *)

Lemma verify_user_email_used `{PasswordContext} db now token user db1 :
  NoDup (VerificationToken.token <$> verification_tokens db) →
  Services.verify_user_email db now token = (Some user, db1) →
  ∀ t, t ∈ verification_tokens db1 → VerificationToken.token t ≠ token.
Proof.
  intros Hnd. unfold Services.verify_user_email.
  destruct (first_ref _ (verification_tokens db)) as [[ti tk]|] eqn:Ht; [|done].
  destruct (first_ref _ (users db)) as [[ui u]|] eqn:Hu; [|done].
  intros [= <- <-] t Hin. simpl in Hin.
  apply first_ref_Some in Ht as (Hti & Hp & _).
  apply andb_true_iff in Hp as [Hp _]. apply bool_decide_eq_true in Hp.
  rewrite <- Hp. by eapply (delete_unique VerificationToken.token).
Qed.

Lemma reset_user_password_used `{PasswordContext} db now token pw user db1 :
  NoDup (PasswordResetToken.token <$> password_reset_tokens db) →
  Services.reset_user_password db now token pw = (Some user, db1) →
  ∀ t, t ∈ password_reset_tokens db1 → PasswordResetToken.token t ≠ token.
Proof.
  intros Hnd. unfold Services.reset_user_password.
  destruct (first_ref _ (password_reset_tokens db)) as [[ti tk]|] eqn:Ht; [|done].
  destruct (first_ref _ (users db)) as [[ui u]|] eqn:Hu; [|done].
  intros [= <- <-] t Hin. simpl in Hin.
  apply first_ref_Some in Ht as (Hti & Hp & _).
  apply andb_true_iff in Hp as [Hp _]. apply bool_decide_eq_true in Hp.
  rewrite <- Hp. by eapply (delete_unique PasswordResetToken.token).
Qed.

Lemma verify_user_email_absent db now token :
  (∀ t, t ∈ verification_tokens db → VerificationToken.token t ≠ token) →
  Services.verify_user_email db now token = (None, db).
Proof.
  intros Habs. unfold Services.verify_user_email.
  destruct (first_ref _ (verification_tokens db)) as [[ti tk]|] eqn:Ht; [|done].
  apply first_ref_Some in Ht as (Hti & Hp & _).
  apply andb_true_iff in Hp as [Hp _]. apply bool_decide_eq_true in Hp.
  destruct (Habs tk); [by eapply list_elem_of_lookup_2|done].
Qed.

Lemma reset_user_password_absent `{PasswordContext} db now token pw :
  (∀ t, t ∈ password_reset_tokens db → PasswordResetToken.token t ≠ token) →
  Services.reset_user_password db now token pw = (None, db).
Proof.
  intros Habs. unfold Services.reset_user_password.
  destruct (first_ref _ (password_reset_tokens db)) as [[ti tk]|] eqn:Ht; [|done].
  apply first_ref_Some in Ht as (Hti & Hp & _).
  apply andb_true_iff in Hp as [Hp _]. apply bool_decide_eq_true in Hp.
  destruct (Habs tk); [by eapply list_elem_of_lookup_2|done].
Qed.

(** C7: verification and password-reset tokens are single-use.  Once
    [verify_email] (resp. [reset_password]) has succeeded with a token
    string, the token row is gone from its table, and any later attempt
    with the same string, at any time and with any new password, is
    answered 400 "Invalid or expired ..." and changes nothing.  Token
    strings are unique in their tables (the unique indexes). *)
Theorem tokens_single_use `{PasswordContext}
    (w w1 : World) (now now' : Z) (token : string) :
  (∀ msg,
     NoDup (VerificationToken.token <$> verification_tokens (db w)) →
     Auth.verify_email now token w = (inr msg, w1) →
     (token ∉ (VerificationToken.token <$> verification_tokens (db w1)))
     ∧ Auth.verify_email now' token w1
       = (inl (HTTPException 400 "Invalid or expired verification token"), w1))
  ∧ (∀ msg new_password new_password',
       NoDup (PasswordResetToken.token <$> password_reset_tokens (db w)) →
       Auth.reset_password now token new_password w = (inr msg, w1) →
       (token ∉ (PasswordResetToken.token <$> password_reset_tokens (db w1)))
       ∧ Auth.reset_password now' token new_password' w1
         = (inl (HTTPException 400 "Invalid or expired password reset token"), w1)).
Proof.
  split.
  - intros msg Hnd.
    unfold Auth.verify_email, run, mbind, M_bind, mret, M_ret, http_error, raise.
    destruct (Services.verify_user_email (db w) now token) as [[user|] d1] eqn:Hv;
      simpl; [|done].
    intros [= <- <-]. simpl.
    pose proof (verify_user_email_used _ _ _ _ _ Hnd Hv) as Habs.
    split.
    + intros (t & Heq & Hin)%list_elem_of_fmap. by destruct (Habs t Hin).
    + rewrite (verify_user_email_absent d1 now' token Habs). simpl.
      by destruct w.
  - intros msg pw pw' Hnd.
    unfold Auth.reset_password, run, mbind, M_bind, mret, M_ret, http_error, raise.
    destruct (Services.reset_user_password (db w) now token pw) as [[user|] d1] eqn:Hv;
      simpl; [|done].
    pose proof (reset_user_password_used _ _ _ _ _ _ Hnd Hv) as Habs.
    destruct (Services.revoke_all_user_refresh_tokens d1 (User.id user))
      as [b d2] eqn:Hrev; simpl.
    intros [= <- <-]. simpl.
    assert (Hd2 : password_reset_tokens d2 = password_reset_tokens d1).
    { revert Hrev. unfold Services.revoke_all_user_refresh_tokens.
      destruct (all _ _); by intros [= <- <-]. }
    rewrite <- Hd2 in Habs.
    split.
    + intros (t & Heq & Hin)%list_elem_of_fmap. by destruct (Habs t Hin).
    + rewrite (reset_user_password_absent d2 now' token pw' Habs). simpl.
      done.
Qed.

Lemma tokens_single_use_witness :
  Auth.verify_email 9 "v1" (Auth.verify_email 5 "v1" Sample.world).2
  = (inl (HTTPException 400 "Invalid or expired verification token"),
     (Auth.verify_email 5 "v1" Sample.world).2)
  ∧ @Auth.reset_password Sample.pwd 9 "p1" "ijklmnop"
      (@Auth.reset_password Sample.pwd 5 "p1" "abcdefgh" Sample.world).2
    = (inl (HTTPException 400 "Invalid or expired password reset token"),
       (@Auth.reset_password Sample.pwd 5 "p1" "abcdefgh" Sample.world).2).
Proof.
  split.
  - refine (proj2 (proj1 (@tokens_single_use Sample.pwd Sample.world _ 5 9 "v1")
                     "Email successfully verified" _ _)).
    + apply (bool_decide_unpack _). vm_compute. exact I.
    + reflexivity.
  - refine (proj2 (proj2 (@tokens_single_use Sample.pwd Sample.world _ 5 9 "p1")
                     "Password successfully reset" "abcdefgh" "ijklmnop" _ _)).
    + apply (bool_decide_unpack _). vm_compute. exact I.
    + reflexivity.
Defined.

(** ** The CSRF check ([core/security.py], [api/auth.py]) *)

Lemma code_inj a b : PyStr.code a = PyStr.code b → a = b.
Proof.
  unfold PyStr.code. intros Heq.
  by rewrite <- (ascii_N_embedding a), <- (ascii_N_embedding b), Heq.
Qed.

Lemma tscmp_fold_zero left right acc :
  Security.tscmp_fold left right acc = 0%N → acc = 0%N.
Proof.
  revert right acc. induction left as [|x left IH]; intros [|y right] acc; simpl;
    try done.
  intros Hz. apply IH in Hz. by apply N.lor_eq_0_iff in Hz as [? _].
Qed.

Lemma tscmp_fold_eq left right :
  String.length left = String.length right →
  Security.tscmp_fold left right 0 = 0%N → left = right.
Proof.
  revert right. induction left as [|x left IH]; intros [|y right]; simpl; try done.
  intros [= Hlen] Hz.
  pose proof (tscmp_fold_zero _ _ _ Hz) as Hxy.
  rewrite Hxy in Hz. apply N.lxor_eq in Hxy. apply code_inj in Hxy as ->.
  f_equal. by apply IH.
Qed.

Lemma tscmp_fold_refl s acc : Security.tscmp_fold s s acc = acc.
Proof.
  revert acc. induction s as [|x s IH]; intros acc; simpl; [done|].
  by rewrite N.lxor_nilpotent, N.lor_0_r.
Qed.

(** The comparison loop decides equality. *)
Lemma tscmp_spec a b : Security.tscmp a b = bool_decide (a = b).
Proof.
  unfold Security.tscmp. case_bool_decide as Hlen.
  - case_bool_decide as Heq.
    + subst. rewrite tscmp_fold_refl. done.
    + apply N.eqb_neq. intros Hz. by apply Heq, tscmp_fold_eq.
  - rewrite bool_decide_eq_false_2 by (by intros ->).
    apply N.eqb_neq. intros Hz. by apply tscmp_fold_zero in Hz.
Qed.

Lemma verify_csrf_token_mismatch csrf_token csrf_cookie :
  csrf_token ≠ csrf_cookie →
  Security.verify_csrf_token csrf_token csrf_cookie = false.
Proof.
  intros Hne. unfold Security.verify_csrf_token, Security.compare_digest.
  destruct (_ || _); [done|]. destruct (_ && _); [|done].
  rewrite tscmp_spec. by apply bool_decide_eq_false_2.
Qed.

(** C2: a refresh request whose CSRF cookie and client-supplied CSRF value
    are both present but differ is answered 401, mints nothing and leaves
    the world as it was, whatever the refresh-token cookie is; so is a
    request in which either value is missing (absent or empty).  On two
    non-empty values the verdict of [verify_csrf_token] is the one of
    [compare_digest], which folds over every position before it tests the
    result, and which on ASCII text decides equality. *)
Theorem refresh_rejects_csrf_mismatch
    `{Jose} `{Entropy} (settings : Settings)
    (now : Z) (refresh_token csrf_token x_csrf_token : option string) (w : World) :
  (∀ c x, csrf_token = Some c → x_csrf_token = Some x → c ≠ x →
     ∃ detail,
       Auth.refresh_token settings now refresh_token csrf_token x_csrf_token w
       = (inl (HTTPException 401 detail), w))
  ∧ (PyStr.truthy_opt csrf_token = false ∨ PyStr.truthy_opt x_csrf_token = false →
     ∃ detail,
       Auth.refresh_token settings now refresh_token csrf_token x_csrf_token w
       = (inl (HTTPException 401 detail), w))
  ∧ (∀ c x, c ≠ EmptyString → x ≠ EmptyString →
       Security.verify_csrf_token x c
       = default false (Security.compare_digest x c))
  ∧ (∀ c x, PyStr.isascii c = true → PyStr.isascii x = true →
       Security.compare_digest x c = Some (bool_decide (x = c))).
Proof.
  split; [|split; [|split]].
  - intros c x -> -> Hne. unfold Auth.refresh_token.
    destruct (negb (PyStr.truthy_opt refresh_token)); [by eexists|].
    destruct (_ || _); [by eexists|]. simpl.
    rewrite verify_csrf_token_mismatch by done. by eexists.
  - intros Hmiss. unfold Auth.refresh_token.
    destruct (negb (PyStr.truthy_opt refresh_token)); [by eexists|].
    destruct Hmiss as [-> | ->]; simpl; rewrite ?orb_true_r; by eexists.
  - intros c x Hc Hx. unfold Security.verify_csrf_token, PyStr.truthy.
    rewrite !bool_decide_eq_false_2 by done. simpl.
    by destruct (Security.compare_digest x c).
  - intros c x Hc Hx. unfold Security.compare_digest.
    by rewrite Hc, Hx, tscmp_spec.
Qed.

Lemma refresh_rejects_csrf_mismatch_witness :
  (∃ detail,
     @Auth.refresh_token Sample.jose Sample.entropy default_settings 5
       (Some "r1") (Some "abc") (Some "abd") Sample.world
     = (inl (HTTPException 401 detail), Sample.world))
  ∧ (∃ detail,
       @Auth.refresh_token Sample.jose Sample.entropy default_settings 5
         (Some "r1") None (Some "abd") Sample.world
       = (inl (HTTPException 401 detail), Sample.world)).
Proof.
  split.
  - apply (proj1 (@refresh_rejects_csrf_mismatch Sample.jose Sample.entropy
                    default_settings 5 (Some "r1") (Some "abc") (Some "abd")
                    Sample.world) "abc" "abd" eq_refl eq_refl).
    discriminate.
  - apply (proj1 (proj2 (@refresh_rejects_csrf_mismatch Sample.jose Sample.entropy
                           default_settings 5 (Some "r1") None (Some "abd")
                           Sample.world))).
    left. reflexivity.
Defined.

(** ** Registration and login ([api/auth.py]) *)

(** C4: a registration whose email is the email of a stored user, or
    whose username is the username of a stored user, is answered 400 and
    leaves the world (the user table with it) as it was. *)
Theorem register_duplicate_rejected `{PasswordContext} `{Entropy} `{Outside}
    (now : Z) (request : Request) (user_create : UserCreate) (w : World) :
  (∃ u, u ∈ users (db w)
        ∧ (User.email u = uc_email user_create
           ∨ User.username u = uc_username user_create)) →
  ∃ detail,
    Auth.register now request user_create w = (inl (HTTPException 400 detail), w).
Proof.
  intros (u & Hin & Hdup).
  unfold Auth.register, get_session, mbind, M_bind, http_error, raise. simpl.
  case_bool_decide as Hemail; [by eexists|].
  case_bool_decide as Huser; [by eexists|].
  destruct Hdup as [He|Hu].
  - destruct Hemail. unfold Services.get_user_by_email.
    eapply first_is_Some; [exact Hin|]. by apply bool_decide_eq_true_2.
  - destruct Huser. unfold Services.get_user_by_username.
    eapply first_is_Some; [exact Hin|]. by apply bool_decide_eq_true_2.
Qed.

Lemma register_duplicate_rejected_witness :
  ∃ detail,
    @Auth.register Sample.pwd Sample.entropy Sample.outside 5 Sample.request
      (mkUserCreate "new@x.com" "alice" None "pw12345678" "pw12345678")
      Sample.world
    = (inl (HTTPException 400 detail), Sample.world).
Proof.
  apply (@register_duplicate_rejected Sample.pwd Sample.entropy Sample.outside).
  exists Sample.alice. split.
  - apply (bool_decide_unpack _). vm_compute. exact I.
  - right. reflexivity.
Defined.

Lemma get_client_ip_known `{Outside} request :
  client request ≠ None → ∃ ip, Email.get_client_ip request = inr ip.
Proof.
  intros Hc. unfold Email.get_client_ip.
  destruct (client request) as [host|]; [|done].
  destruct (headers_get _ _); [|by eexists].
  destruct (PyStr.truthy _); [|by eexists].
  destruct (ip_address_ok _); by eexists.
Qed.

(** C5, as the code has it: a login with correct credentials.  For an
    inactive user it is answered 401 and changes nothing.  For an active
    user, when the address of the client can be determined (a valid first
    entry of X-Forwarded-For, or the peer address) and the refresh token
    drawn is not already stored, it answers a token whose type is "bearer"
    and whose [expires_in] is [ACCESS_TOKEN_EXPIRE_MINUTES * 60], carrying
    the access token that the first cookie holds, and sets exactly three
    cookies: access_token, refresh_token, csrf_token, in that order; the
    row of the refresh token is added for that user and that address. *)
Theorem login_correct_credentials
    `{PasswordContext} `{Jose} `{Entropy} `{Outside} (settings : Settings)
    (now : Z) (request : Request) (email password : string) (w : World)
    (user : User.t) (client_ip : string) :
  Services.authenticate_user (db w) email password = Some user →
  (User.is_active user = false →
     Auth.login settings now request email password w
     = (inl (HTTPException 401 "Inactive user"), w))
  ∧ (User.is_active user = true →
     Email.get_client_ip request = inr client_ip →
     token_urlsafe_at (S (drawn w)) 64
       ∉ (RefreshToken.token <$> refresh_tokens (db w)) →
     ∃ access refresh csrf w',
       Auth.login settings now request email password w
       = (inr (mkResponse
                 [set_cookie (mkCookie "access_token" access true true "lax"
                                (ACCESS_TOKEN_EXPIRE_MINUTES settings * 60) "/");
                  set_cookie (mkCookie "refresh_token" refresh true true "lax"
                                (REFRESH_TOKEN_EXPIRE_DAYS settings * 24 * 60 * 60) "/");
                  set_cookie (mkCookie "csrf_token" csrf false true "lax"
                                (ACCESS_TOKEN_EXPIRE_MINUTES settings * 60) "/")]
                 (mkToken access "bearer"
                          (ACCESS_TOKEN_EXPIRE_MINUTES settings * 60))), w')
       ∧ ∃ r, refresh_tokens (db w') = refresh_tokens (db w) ++ [r]
              ∧ RefreshToken.token r = refresh
              ∧ RefreshToken.user_id r = User.id user
              ∧ RefreshToken.ip_address r = Some client_ip
              ∧ RefreshToken.revoked r = false).
Proof.
  intros Hauth. split.
  - intros Hact. unfold Auth.login, Auth.login_with, get_session, mbind, M_bind,
      http_error, raise. simpl. by rewrite Hauth, Hact.
  - intros Hact Hip Hfresh.
    unfold Auth.login, Auth.login_with, Security.create_access_token,
      Security.create_refresh_token, Security.generate_csrf_token,
      Security.token_urlsafe, Security.uuid4, Auth.lift, draw, get_session,
      commit, Security.insert_refresh_token, mbind, M_bind, mret, M_ret.
    simpl. rewrite Hauth, Hact. simpl. rewrite Hip. simpl.
    rewrite bool_decide_eq_false_2 by done. simpl.
    do 4 eexists. split; [reflexivity|]. simpl. by eexists.
Qed.

Lemma login_correct_credentials_witness :
  @Auth.login Sample.pwd Sample.jose Sample.entropy Sample.outside
    default_settings 5 Sample.request "bob@x.com" "pw12345678" Sample.world
  = (inl (HTTPException 401 "Inactive user"), Sample.world)
  ∧ ∃ access refresh csrf w',
      @Auth.login Sample.pwd Sample.jose Sample.entropy Sample.outside
        default_settings 5 Sample.request "alice@x.com" "pw12345678" Sample.world
      = (inr (mkResponse
                [set_cookie (mkCookie "access_token" access true true "lax" 1800 "/");
                 set_cookie (mkCookie "refresh_token" refresh true true "lax" 604800 "/");
                 set_cookie (mkCookie "csrf_token" csrf false true "lax" 1800 "/")]
                (mkToken access "bearer" 1800)), w').
Proof.
  split.
  - apply (proj1 (@login_correct_credentials Sample.pwd Sample.jose Sample.entropy
                    Sample.outside default_settings 5 Sample.request
                    "bob@x.com" "pw12345678" Sample.world Sample.bob_inactive
                    "10.0.0.1" eq_refl) eq_refl).
  - destruct (proj2 (@login_correct_credentials Sample.pwd Sample.jose
                       Sample.entropy Sample.outside default_settings 5
                       Sample.request "alice@x.com" "pw12345678" Sample.world
                       Sample.alice "10.0.0.1" eq_refl) eq_refl)
      as (access & refresh & csrf & w' & Hlogin & _).
    + reflexivity.
    + apply (bool_decide_unpack _). vm_compute. exact I.
    + by exists access, refresh, csrf, w'.
Defined.

(** The claim as the specification states it fails for an active user
    with correct credentials in two ways.  A request that reaches the
    application without a peer address and without a forwarding header:
    [get_client_ip] reads [request.client.host] and the login ends in an
    unhandled exception, after the access token was made.  A store that
    already holds the refresh token drawn: the unique index refuses the
    row.  Neither answers a token or sets a cookie. *)
Lemma login_active_user_fails :
  @Services.authenticate_user Sample.pwd (db Sample.world)
    "alice@x.com" "pw12345678" = Some Sample.alice
  ∧ User.is_active Sample.alice = true
  ∧ @Auth.login Sample.pwd Sample.jose Sample.entropy Sample.outside
      default_settings 5 Sample.request_no_peer "alice@x.com" "pw12345678"
      Sample.world
    = (inl (UnhandledError "AttributeError"), mkWorld Sample.store 1 [])
  ∧ @Services.authenticate_user Sample.pwd (db Sample.colliding_world)
      "alice@x.com" "pw12345678" = Some Sample.alice
  ∧ @Auth.login Sample.pwd Sample.jose Sample.entropy Sample.outside
      default_settings 5 Sample.request "alice@x.com" "pw12345678"
      Sample.colliding_world
    = (inl IntegrityError, mkWorld (db Sample.colliding_world) 2 []).
Proof. split_and!; by vm_compute. Qed.

(** ** Session resolution ([core/security.py]) *)

Lemma first_filter_head {A} (p : A → bool) (l : list A) :
  first p l = head (filter (λ x, p x = true) l).
Proof.
  unfold first. induction l as [|a l IH]; simpl; [done|].
  rewrite filter_cons. destruct (p a) eqn:Hp.
  - by rewrite decide_True.
  - rewrite decide_False by done. rewrite <- IH.
    by destruct (first_ref p l) as [[i x]|].
Qed.

(** The pattern of the classifier on the type claim, as a test. *)
Lemma match_access {A} (o : option jval) (X Y : A) :
  match o with Some (JStr "access") => X | _ => Y end
  = if decide (o = Some (JStr "access")) then X else Y.
Proof.
  destruct o as [[s|n|b|]|]; try done.
  case_decide as Heq; [by injection Heq as ->|].
  do 6 (destruct s as [|[[] [] [] [] [] [] [] []] s]; try done).
  destruct s; [by destruct Heq|done].
Qed.

(** C6: session resolution proceeds, with the resolved user, exactly in
    the state [Valid]; in each other state (no token, expired, malformed,
    wrong type, user missing, user inactive) it raises a 401.  The bearer
    header takes no part. *)
Theorem get_current_user_only_valid `{Jose} `{SqlEngine} (settings : Settings)
    (d : Session) (now : Z) (token access_token : option string) :
  match SessionStates.session_state settings d now access_token with
  | SessionStates.Valid user =>
      Security.get_current_user settings d now token access_token = inr user
  | _ =>
      ∃ detail,
        Security.get_current_user settings d now token access_token
        = inl (HTTPException 401 detail)
  end.
Proof.
  unfold SessionStates.session_state, Security.get_current_user,
    Security.unauthorized.
  destruct access_token as [[|c tok]|]; simpl; try (by eexists).
  destruct (jwt_decode _ _ _ _) as [[]|payload]; try (by eexists).
  rewrite match_access. case_decide as Hty.
  - rewrite bool_decide_eq_true_2 by done. simpl.
    destruct (payload !! "sub") as [[s|n|b|]|]; try (by eexists);
      rewrite first_filter_head;
      (destruct (filter _ (users d)) as [|user rest]; simpl; [by eexists|]);
      (destruct (User.is_active user); simpl; [done|by eexists]).
  - rewrite bool_decide_eq_false_2 by done. simpl. by eexists.
Qed.

(** What a resolved session guarantees, read off the code alone. *)
Lemma get_current_user_inr `{Jose} `{SqlEngine} (settings : Settings)
    (d : Session) (now : Z) (token access_token : option string) (user : User.t) :
  Security.get_current_user settings d now token access_token = inr user →
  user ∈ users d ∧ User.is_active user = true
  ∧ ∃ tok payload,
      access_token = Some tok ∧ tok ≠ EmptyString
      ∧ jwt_decode now tok (SECRET_KEY settings) [ALGORITHM settings] = inr payload
      ∧ payload !! "type" = Some (JStr "access").
Proof.
  unfold Security.get_current_user, Security.unauthorized.
  destruct access_token as [tok|]; [|done].
  destruct (decide (tok = EmptyString)) as [->|Hne]; [done|].
  unfold PyStr.truthy. rewrite bool_decide_eq_false_2 by done. simpl.
  destruct (jwt_decode _ _ _ _) as [e|payload] eqn:Hdec; [done|].
  case_bool_decide as Hty; [|done]. simpl.
  destruct (payload !! "sub") as [[s|n|b|]|]; try done;
    (destruct (first _ (users d)) as [u|] eqn:Hf; [|done]);
    (destruct (User.is_active u) eqn:Hact; [|done]);
    intros [= <-]; apply first_Some_elem in Hf as [Hin _];
    (split; [done|split; [done|by exists tok, payload]]).
Qed.

(** ** The admin gate ([core/security.py], [api/endpoints/admin.py]) *)

(** C10: the admin gate reads the email, not the role.  A user whose
    lower-cased email contains "admin" passes [is_admin] and is let
    through by the admin endpoints, whatever the role; the user
    "admin@example.com" with role [USER] passes; and [is_admin] of a user
    is that containment test for every user, so a role [ADMIN] alone does
    not pass. *)
Theorem is_admin_by_email (user : User.t) :
  (PyStr.contains "admin" (PyStr.lower (User.email user)) = true →
     Security.is_admin user = true
     ∧ Admin.admin_gate user = inr tt
     ∧ (∃ stats, Admin.get_dashboard_stats user = inr stats)
     ∧ (∀ user_id, ∃ r, Admin.delete_user user_id user = inr r))
  ∧ Security.is_admin user
    = PyStr.contains "admin" (PyStr.lower (User.email user))
  ∧ (User.role Sample.admin_by_email = USER
     ∧ User.email Sample.admin_by_email = "admin@example.com"
     ∧ Security.is_admin Sample.admin_by_email = true
     ∧ Admin.admin_gate Sample.admin_by_email = inr tt).
Proof.
  assert (Hdef : Security.is_admin user
                 = PyStr.contains "admin" (PyStr.lower (User.email user))).
  { unfold Security.is_admin, Security.is_admin_of. simpl.
    by destruct (PyStr.contains _ _). }
  split; [|split; [exact Hdef|by vm_compute]].
  intros Hc. rewrite <- Hdef in Hc.
  unfold Admin.get_dashboard_stats, Admin.delete_user, Admin.admin_gate.
  rewrite Hc. simpl. repeat split; by eexists.
Qed.

Lemma is_admin_by_email_witness :
  Security.is_admin (User.mk 7 "Site.ADMIN@corp.org" "eve" "h" None MODERATOR true true 0 None)
  = true.
Proof.
  apply (proj1 (is_admin_by_email
                  (User.mk 7 "Site.ADMIN@corp.org" "eve" "h" None MODERATOR true true 0 None))).
  reflexivity.
Defined.

(** A stored administrator whose email lacks the word is refused. *)
Example role_admin_refused :
  Admin.admin_gate (User.mk 8 "root@corp.org" "root" "h" None ADMIN true true 0 None)
  = inl (HTTPException 403 "Admin access required").
Proof. reflexivity. Qed.

(** ** The question pipeline ([api/endpoints/smart_AI_pdf.py]) *)

Lemma check_question_generation_limits_true now subscriptions :
  SmartPdf.check_question_generation_limits now subscriptions = true.
Proof.
  unfold SmartPdf.check_question_generation_limits.
  destruct (first _ subscriptions); [|done]. by repeat case_bool_decide.
Qed.

Section Pipeline.
Context `{SmartPdf.Pipeline}.

(** With a non-empty pool the [try] of a slot gets past the choice of the
    subject: it keeps the questions and leaves [subject] bound. *)
Lemma try_slot_nonempty all_docs q_type i st :
  all_docs ≠ [] →
  ∃ r st', SmartPdf.try_slot all_docs q_type i st = (r, st')
           ∧ SmartPdf.l_questions st' = SmartPdf.l_questions st
           ∧ is_Some (SmartPdf.subject st').
Proof.
  intros Hne. unfold SmartPdf.try_slot.
  rewrite bool_decide_eq_false_2 by (by destruct all_docs).
  destruct (all_docs !! _) as [page|] eqn:Hdoc.
  - destruct (SmartPdf.parse_result _ _ _) as [r used]. by eexists _, _.
  - apply lookup_ge_None in Hdoc.
    pose proof (Nat.mod_upper_bound (i + length (SmartPdf.l_questions st))
                  (length all_docs)) as Hlt.
    destruct all_docs; [done|]. simpl in *. lia.
Qed.

(** One slot adds exactly one question: the parsed one, or, when the
    [try] raised, the templated fallback for the subject at hand. *)
Lemma slot_nonempty all_docs q_type i st :
  all_docs ≠ [] →
  ∃ q st',
    SmartPdf.slot all_docs q_type i st = inr st'
    ∧ SmartPdf.l_questions st' = SmartPdf.l_questions st ++ [q]
    ∧ match SmartPdf.try_slot all_docs q_type i st with
      | (inr parsed, _) => q = parsed
      | (inl _, tried) =>
          ∃ subj, SmartPdf.subject tried = Some subj
                  ∧ q = SmartPdf.fallback_question q_type subj i
                          (length (SmartPdf.l_questions st))
                          (SmartPdf.used_questions tried)
      end.
Proof.
  intros Hne. unfold SmartPdf.slot.
  destruct (try_slot_nonempty all_docs q_type i st Hne)
    as (r & st' & -> & Hq & [subj Hs]).
  destruct r as [e|parsed].
  - rewrite Hs. eexists _, _. split; [done|]. simpl. rewrite Hq.
    split; [done|]. by exists subj.
  - eexists _, _. split; [done|]. simpl. by rewrite Hq.
Qed.

Lemma run_slots_count all_docs q_type idxs : ∀ st,
  all_docs ≠ [] →
  ∃ st', SmartPdf.run_slots all_docs q_type idxs st = inr st'
         ∧ length (SmartPdf.l_questions st')
           = (length (SmartPdf.l_questions st) + length idxs)%nat.
Proof.
  induction idxs as [|i idxs IH]; intros st Hne; simpl.
  - exists st. split; [done|lia].
  - destruct (slot_nonempty all_docs q_type i st Hne) as (q & st1 & -> & Hq & _).
    destruct (IH st1 Hne) as (st' & -> & Hlen).
    exists st'. split; [done|]. rewrite Hlen, Hq, length_app. simpl. lia.
Qed.

Lemma run_types_count all_docs per_type types : ∀ remaining st,
  all_docs ≠ [] → 0 ≤ per_type → 0 ≤ remaining →
  ∃ st', SmartPdf.run_types all_docs per_type remaining types st = inr st'
         ∧ Z.of_nat (length (SmartPdf.l_questions st'))
           = Z.of_nat (length (SmartPdf.l_questions st))
             + per_type * Z.of_nat (length types)
             + Z.min remaining (Z.of_nat (length types)).
Proof.
  induction types as [|q_type types IH]; intros remaining st Hne Hq Hr; simpl.
  - exists st. split; [done|lia].
  - set (extra := if bool_decide (0 < remaining) then 1 else 0).
    assert (Hextra : 0 ≤ extra ≤ 1 ∧ (extra = 1 ↔ 0 < remaining)).
    { subst extra. case_bool_decide; lia. }
    destruct (run_slots_count all_docs q_type
                (SmartPdf.range (per_type + extra)) st Hne) as (st1 & -> & Hlen1).
    destruct (IH (remaining - extra) st1 Hne Hq ltac:(lia)) as (st' & -> & Hlen).
    exists st'. split; [done|]. rewrite Hlen, Hlen1.
    unfold SmartPdf.range. rewrite length_seq. lia.
Qed.

End Pipeline.

Lemma add_docs_grows docs : ∀ st,
  (length st.1 ≤ length (SmartPdf.add_docs docs st).1)%nat.
Proof.
  unfold SmartPdf.add_docs.
  induction docs as [|doc docs IH]; intros [all_docs used]; simpl; [lia|].
  case_bool_decide.
  - apply (IH (all_docs, used)).
  - etrans; [|apply IH]. simpl. rewrite length_app. simpl. lia.
Qed.

Lemma more_docs_grows retriever n idxs : ∀ st,
  (length st.1 ≤ length (SmartPdf.more_docs retriever n idxs st).1)%nat.
Proof.
  induction idxs as [|i idxs IH]; intros st; simpl; [lia|].
  case_bool_decide.
  - apply add_docs_grows.
  - etrans; [apply (add_docs_grows (retriever ("topic_" +:+ pretty i)) st)|apply IH].
Qed.

Lemma foldl_add_docs_grows (retriever : string → list string) topics : ∀ st,
  (length st.1
   ≤ length (foldl (λ st topic, SmartPdf.add_docs (retriever topic) st) st topics).1)%nat.
Proof.
  induction topics as [|topic topics IH]; intros st; simpl; [lia|].
  etrans; [apply (add_docs_grows (retriever topic))|apply IH].
Qed.

(** An index that answers the first topic with some chunk gives a
    non-empty pool. *)
Lemma gather_docs_nonempty retriever n :
  retriever "main concepts and principles" ≠ [] →
  SmartPdf.gather_docs retriever n ≠ [].
Proof.
  intros Hfirst.
  assert (Hlen : (1 ≤ length (SmartPdf.gather_docs retriever n))%nat);
    [|by destruct (SmartPdf.gather_docs retriever n); [simpl in Hlen; lia|]].
  unfold SmartPdf.gather_docs.
  set (st6 := foldl _ _ _).
  assert (H6 : (1 ≤ length st6.1)%nat).
  { subst st6.
    change (take 6 SmartPdf.query_topics)
      with ("main concepts and principles" :: take 5 (drop 1 SmartPdf.query_topics)).
    cbn [foldl]. etrans; [|apply foldl_add_docs_grows].
    destruct (retriever _) as [|doc docs]; [done|].
    unfold SmartPdf.add_docs. cbn [foldl].
    rewrite bool_decide_eq_false_2 by set_solver.
    etrans; [|apply (add_docs_grows docs)]. simpl. lia. }
  case_bool_decide; [|done].
  etrans; [exact H6|apply more_docs_grows].
Qed.

(** What a parsed question tells about the text it came from: none of the
    three conditions held. *)
Lemma parse_result_inr_text q_type result used q used' :
  SmartPdf.parse_result q_type result used = (inr q, used') →
  ¬ parse_fails q_type result
  ∧ ¬ wrong_option_count q_type result
  ∧ (question_text_of q_type result ∉ used)
  ∧ SmartPdf.question q = question_text_of q_type result
  ∧ used' = {[SmartPdf.question q]} ∪ used.
Proof.
  unfold SmartPdf.parse_result, parse_fails, wrong_option_count,
    question_text_of, options_of.
  destruct (PyStr.contains "Error:" result) eqn:Herr; [done|].
  destruct (length _ <? 2)%nat eqn:Hparts; [done|].
  apply Nat.ltb_ge in Hparts.
  destruct (PyStr.split "Question:" result !! 1%nat) as [part1|]; [|done].
  simpl. case_bool_decide as Hused; [done|].
  case_bool_decide as Hmc.
  - destruct (PyStr.contains "Options:" result) eqn:Hopt; [|done].
    destruct (PyStr.contains "Answer:" result) eqn:Hans; [|done]. simpl.
    destruct (PyStr.split "Options:" result !! 1%nat) as [ao|]; [|done].
    destruct (PyStr.split "Answer:" result !! 1%nat) as [aa|]; [|done].
    simpl. case_bool_decide as Hlen; simpl; [|done].
    intros [= <- <-]. simpl. split_and!; try done.
    + intros [?|[?|[[_ ?]|?]]]; try done. lia.
    + by intros [_ ?].
  - destruct (PyStr.contains "Answer:" result) eqn:Hans; [|done]. simpl.
    destruct (PyStr.split "Answer:" result !! 1%nat) as [aa|]; [|done].
    intros [= <- <-]. simpl. split_and!; try done.
    + intros [?|[?|[[? _]|?]]]; try done. lia.
    + by intros [? _].
Qed.

(** The used question texts as the [try] leaves them: as they were, or
    with the question text of the slot added. *)
Lemma parse_result_used q_type result used :
  (SmartPdf.parse_result q_type result used).2 = used
  ∨ (SmartPdf.parse_result q_type result used).2
    = {[question_text_of q_type result]} ∪ used.
Proof.
  unfold SmartPdf.parse_result, question_text_of.
  destruct (PyStr.contains "Error:" result); [by left|].
  destruct (length _ <? 2)%nat; [by left|].
  destruct (PyStr.split "Question:" result !! 1%nat) as [part1|]; [|by left].
  simpl. case_bool_decide; [by left|].
  right. by repeat case_match.
Qed.

Section Slots.
Context `{SmartPdf.Pipeline}.

Lemma slot_text_nonempty all_docs q_type i st :
  all_docs ≠ [] →
  ∃ result subj, slot_text all_docs q_type i st = Some result
                 ∧ slot_subject all_docs i st = Some subj.
Proof.
  intros Hne. unfold slot_text, slot_subject.
  destruct (all_docs !! _) as [page|] eqn:Hdoc; simpl; [by eexists _, _|].
  apply lookup_ge_None in Hdoc.
  pose proof (Nat.mod_upper_bound (i + length (SmartPdf.l_questions st))
                (length all_docs)) as Hlt.
  destruct all_docs; [done|]. simpl in *. lia.
Qed.

(** The [try] of a slot is one call to the model, whose text goes through
    [parse_result]. *)
Lemma try_slot_text all_docs q_type i st result subj :
  slot_text all_docs q_type i st = Some result →
  slot_subject all_docs i st = Some subj →
  SmartPdf.try_slot all_docs q_type i st
  = ((SmartPdf.parse_result q_type result (SmartPdf.used_questions st)).1,
     SmartPdf.mkLoop (SmartPdf.l_questions st)
       ({[subj]} ∪ SmartPdf.used_subjects st)
       (SmartPdf.parse_result q_type result (SmartPdf.used_questions st)).2
       (S (SmartPdf.calls st)) (Some subj)).
Proof.
  unfold slot_text, slot_subject, SmartPdf.try_slot.
  destruct (all_docs !! _) as [page|] eqn:Hdoc; simpl; [|done].
  intros [= <-] [= <-].
  rewrite bool_decide_eq_false_2
    by (destruct all_docs; [by rewrite lookup_nil in Hdoc|done]).
  by destruct (SmartPdf.parse_result _ _ _) as [r used'].
Qed.

(** A slot whose text is turned down adds the fallback question. *)
Lemma slot_fallback all_docs q_type i st result subj :
  slot_text all_docs q_type i st = Some result →
  slot_subject all_docs i st = Some subj →
  parse_fails q_type result ∨ wrong_option_count q_type result
  ∨ duplicate_text q_type result st →
  ∃ used' st',
    SmartPdf.slot all_docs q_type i st = inr st'
    ∧ SmartPdf.l_questions st'
      = SmartPdf.l_questions st
        ++ [SmartPdf.fallback_question q_type subj i
              (length (SmartPdf.l_questions st)) used']
    ∧ (used' = SmartPdf.used_questions st
       ∨ used' = {[question_text_of q_type result]} ∪ SmartPdf.used_questions st).
Proof.
  intros Htext Hsubj Hcond. unfold SmartPdf.slot.
  rewrite (try_slot_text _ _ _ _ _ _ Htext Hsubj).
  pose proof (parse_result_used q_type result (SmartPdf.used_questions st)) as Hused.
  destruct (SmartPdf.parse_result _ _ _) as [[e|q] used'] eqn:Hp; simpl in *.
  - by eexists used', _.
  - apply parse_result_inr_text in Hp as (Hp1 & Hp2 & Hp3 & _).
    by destruct Hcond as [?|[?|?]].
Qed.

(** What the [try] of a slot leaves. *)
Lemma try_slot_state all_docs q_type i st r st1 :
  SmartPdf.try_slot all_docs q_type i st = (r, st1) →
  SmartPdf.l_questions st1 = SmartPdf.l_questions st
  ∧ SmartPdf.used_questions st ⊆ SmartPdf.used_questions st1
  ∧ ∀ q, r = inr q → SmartPdf.question q ∈ SmartPdf.used_questions st1.
Proof.
  unfold SmartPdf.try_slot. case_bool_decide.
  { by intros [= <- <-]. }
  destruct (all_docs !! _) as [page|].
  2:{ by intros [= <- <-]. }
  simpl.
  match goal with
  | |- context [SmartPdf.parse_result ?t ?res ?u] =>
      pose proof (parse_result_used t res u) as Hused;
      destruct (SmartPdf.parse_result t res u) as [r' used'] eqn:Hp
  end.
  intros [= <- <-]. simpl in *. split_and!; [done| |].
  - destruct Hused as [->| ->]; [done|apply union_subseteq_r].
  - intros q ->. apply parse_result_inr_text in Hp as (_ & _ & _ & _ & ->).
    by apply elem_of_union_l, elem_of_singleton.
Qed.

Lemma slot_texts_recorded all_docs q_type i st st' :
  texts_recorded st →
  SmartPdf.slot all_docs q_type i st = inr st' →
  texts_recorded st'.
Proof.
  intros Hrec. unfold SmartPdf.slot.
  destruct (SmartPdf.try_slot all_docs q_type i st) as [r st1] eqn:Ht.
  apply try_slot_state in Ht as (Hq & Hsub & Hnew).
  destruct r as [e|parsed].
  - destruct (SmartPdf.subject st1) as [subj|]; [|done].
    intros [= <-]. intros q. simpl. rewrite Hq.
    intros [Hin|Hin%list_elem_of_singleton]%elem_of_app.
    + apply elem_of_union_r, Hsub. by apply Hrec.
    + subst q. apply elem_of_union_l. by apply elem_of_singleton.
  - intros [= <-]. intros q. simpl. rewrite Hq.
    intros [Hin|Hin%list_elem_of_singleton]%elem_of_app.
    + apply Hsub. by apply Hrec.
    + subst q. by apply Hnew.
Qed.

(** No question asked for: no slot is run. *)
Lemma run_types_zero all_docs types : ∀ st,
  SmartPdf.run_types all_docs 0 0 types st = inr st.
Proof.
  induction types as [|q_type types IH]; intros st; [done|].
  cbn [SmartPdf.run_types]. rewrite bool_decide_eq_false_2 by lia.
  simpl. apply IH.
Qed.

End Slots.

(** C8, as the code has it.  For a request for [num_questions >= 0]
    questions with a non-empty list of types, whose index exists and loads
    and, when a question is asked for, yields at least one chunk, the
    answer is a response with exactly [num_questions] questions.  In each
    slot over such a pool the model is called once, and whenever its text
    does not parse, a multiple-choice text does not have exactly four
    options, or the question text is one already recorded as used, the
    slot adds the templated fallback question: a function of the type, the
    subject of the slot, the slot index, the number of questions so far and
    the used question texts.  The text of every question produced is
    recorded as used, from the start and from slot to slot, so a text that
    duplicates a question already produced is among those turned down. *)
Theorem generate_questions_count `{SmartPdf.Pipeline} `{SmartPdf.Messages}
    (now : Z) (request : SmartPdf.QuestionRequest)
    (subscriptions : list Subscription.t) (retriever : string → list string) :
  0 ≤ SmartPdf.num_questions request →
  SmartPdf.question_types request ≠ [] →
  SmartPdf.path_exists ("vectorstores/" +:+ SmartPdf.pdf_id request) = true →
  SmartPdf.load_local ("vectorstores/" +:+ SmartPdf.pdf_id request) = Some retriever →
  (0 < SmartPdf.num_questions request →
   SmartPdf.gather_docs retriever (SmartPdf.num_questions request) ≠ []) →
  (∃ qs,
     SmartPdf.generate_questions now request subscriptions
     = inr (SmartPdf.mkQuestionResponse qs)
     ∧ Z.of_nat (length qs) = SmartPdf.num_questions request)
  ∧ (SmartPdf.gather_docs retriever (SmartPdf.num_questions request) ≠ [] →
     ∀ q_type i st,
       ∃ result subj,
         slot_text (SmartPdf.gather_docs retriever (SmartPdf.num_questions request))
                   q_type i st = Some result
         ∧ slot_subject (SmartPdf.gather_docs retriever (SmartPdf.num_questions request))
                        i st = Some subj
         ∧ (parse_fails q_type result ∨ wrong_option_count q_type result
            ∨ duplicate_text q_type result st →
            ∃ used' st',
              SmartPdf.slot
                (SmartPdf.gather_docs retriever (SmartPdf.num_questions request))
                q_type i st = inr st'
              ∧ SmartPdf.l_questions st'
                = SmartPdf.l_questions st
                  ++ [SmartPdf.fallback_question q_type subj i
                        (length (SmartPdf.l_questions st)) used']
              ∧ (used' = SmartPdf.used_questions st
                 ∨ used' = {[question_text_of q_type result]}
                           ∪ SmartPdf.used_questions st)))
  ∧ texts_recorded SmartPdf.initial_loop
  ∧ (∀ q_type i st st',
       texts_recorded st →
       SmartPdf.slot (SmartPdf.gather_docs retriever (SmartPdf.num_questions request))
                     q_type i st = inr st' →
       texts_recorded st').
Proof.
  intros Hnum Htypes Hpath Hload Hpool. split_and!.
  - unfold SmartPdf.generate_questions.
    rewrite check_question_generation_limits_true, Hpath, Hload. simpl.
    set (L := Z.of_nat (length (SmartPdf.question_types request))).
    assert (HL : 0 < L).
    { subst L. destruct (SmartPdf.question_types request); [done|]. simpl. lia. }
    rewrite bool_decide_eq_false_2 by lia.
    destruct (decide (SmartPdf.num_questions request = 0)) as [Hzero|Hpos].
    + rewrite Hzero, Z.div_0_l, Z.mod_0_l by lia.
      rewrite run_types_zero. by exists [].
    + pose proof (Z.div_mod (SmartPdf.num_questions request) L ltac:(lia)) as Hdm.
      pose proof (Z.mod_pos_bound (SmartPdf.num_questions request) L HL) as Hmod.
      assert (Hdiv : 0 ≤ SmartPdf.num_questions request `div` L)
        by (apply Z.div_pos; lia).
      destruct (run_types_count _ _ (SmartPdf.question_types request)
                  (SmartPdf.num_questions request `mod` L) SmartPdf.initial_loop
                  (Hpool ltac:(lia)) Hdiv ltac:(lia)) as (st' & -> & Hlen).
      exists (SmartPdf.l_questions st'). split; [done|].
      rewrite Hlen. simpl. fold L. nia.
  - intros Hne q_type i st.
    destruct (slot_text_nonempty _ q_type i st Hne) as (result & subj & Ht & Hs).
    exists result, subj. split_and!; [done..|].
    by apply slot_fallback.
  - intros q Hq. by apply elem_of_nil in Hq.
  - intros q_type i st st'. apply slot_texts_recorded.
Qed.

Lemma generate_questions_count_witness :
  (∃ qs,
     @SmartPdf.generate_questions Sample.pipeline Sample.messages 0
       (SmartPdf.mkQuestionRequest "doc" 3 ["multiple_choice"; "descriptive"]) []
     = inr (SmartPdf.mkQuestionResponse qs)
     ∧ Z.of_nat (length qs) = 3)
  ∧ ∃ used' st',
      @SmartPdf.slot Sample.pipeline
        (SmartPdf.gather_docs (λ _, ["Alpha Beta gamma delta"]) 3)
        "multiple_choice" 0 SmartPdf.initial_loop = inr st'
      ∧ SmartPdf.l_questions st'
        = [SmartPdf.fallback_question "multiple_choice" "Alpha Beta" 0 0 used'].
Proof.
  assert (Hpool : SmartPdf.gather_docs (λ _ : string, ["Alpha Beta gamma delta"]) 3 ≠ [])
    by (vm_compute; discriminate).
  destruct (@generate_questions_count Sample.pipeline Sample.messages 0
              (SmartPdf.mkQuestionRequest "doc" 3 ["multiple_choice"; "descriptive"])
              [] (λ _, ["Alpha Beta gamma delta"])
              ltac:(simpl; lia) ltac:(discriminate) eq_refl eq_refl
              (λ _, Hpool)) as (Hcount & Hslots & _).
  split; [exact Hcount|].
  destruct (Hslots Hpool "multiple_choice" 0%nat SmartPdf.initial_loop)
    as (result & subj & Htext & Hsubj & Hfallback).
  vm_compute in Htext. vm_compute in Hsubj.
  injection Htext as <-. injection Hsubj as <-.
  destruct Hfallback as (used' & st' & Hslot & Hq & _).
  { left. right. right. left. split; [reflexivity|]. by vm_compute. }
  by exists used', st'.
Defined.

(** The claim as the specification states it fails in three ways, each
    for a well-formed request whose list of types is non-empty and whose
    index exists.  A negative count: the answer holds no question, not
    "minus one".  An index that is there but does not load: the request
    ends in a 500.  An index that loads but holds no chunk, asked for one
    question: the first slot fails before [subject] is assigned, the
    handler reads it, and the request ends in a 500. *)
Lemma generate_questions_count_fails :
  (SmartPdf.question_types Sample.negative_request ≠ []
   ∧ @SmartPdf.path_exists Sample.pipeline
       ("vectorstores/" +:+ SmartPdf.pdf_id Sample.negative_request) = true
   ∧ @SmartPdf.generate_questions Sample.pipeline Sample.messages 0
       Sample.negative_request []
     = inr (SmartPdf.mkQuestionResponse [])
   ∧ ¬ ∃ qs, @SmartPdf.generate_questions Sample.pipeline Sample.messages 0
               Sample.negative_request []
             = inr (SmartPdf.mkQuestionResponse qs)
             ∧ Z.of_nat (length qs) = SmartPdf.num_questions Sample.negative_request)
  ∧ (SmartPdf.question_types Sample.one_request ≠ []
     ∧ @SmartPdf.path_exists Sample.unloadable_pipeline
         ("vectorstores/" +:+ SmartPdf.pdf_id Sample.one_request) = true
     ∧ ∃ detail,
         @SmartPdf.generate_questions Sample.unloadable_pipeline Sample.messages 0
           Sample.one_request []
         = inl (HTTPException 500 detail))
  ∧ (@SmartPdf.path_exists Sample.empty_pipeline
       ("vectorstores/" +:+ SmartPdf.pdf_id Sample.one_request) = true
     ∧ is_Some (@SmartPdf.load_local Sample.empty_pipeline
                  ("vectorstores/" +:+ SmartPdf.pdf_id Sample.one_request))
     ∧ ∃ detail,
         @SmartPdf.generate_questions Sample.empty_pipeline Sample.messages 0
           Sample.one_request []
         = inl (HTTPException 500 detail)).
Proof.
  split; [|split].
  - split; [done|]. split; [done|]. split; [by vm_compute|].
    intros (qs & Hq & Hlen). simpl in Hlen. lia.
  - split; [done|]. split; [done|]. eexists. by vm_compute.
  - split; [done|]. split; [by eexists|]. eexists. by vm_compute.
Qed.

(** A slot of the sample pipeline: the text has no options section, so a
    multiple-choice slot turns it down and adds the first fallback. *)
Example slot_fallback_ex :
  ∃ st',
    @SmartPdf.slot Sample.pipeline ["Alpha Beta gamma delta"] "multiple_choice" 0
      SmartPdf.initial_loop = inr st'
    ∧ SmartPdf.question <$> SmartPdf.l_questions st'
      = ["What is the primary role of Alpha Beta described in the text?"].
Proof. eexists. split; by vm_compute. Qed.

(** Python strings on small inputs. *)
Example split_two : PyStr.split "ab" "xabyabab" = ["x"; "y"; ""; ""].
Proof. reflexivity. Qed.

Example split_ws_ex : PyStr.split_ws "  The  Quick fox " = ["The"; "Quick"; "fox"].
Proof. reflexivity. Qed.

Example lower_ex : PyStr.lower "Admin@X.com" = "admin@x.com".
Proof. reflexivity. Qed.

Example parse_options_ex :
  SmartPdf.parse_options
    ("A) one" +:+ SmartPdf.nl +:+ " B) two " +:+ SmartPdf.nl +:+ "note" +:+
     SmartPdf.nl +:+ "C) three" +:+ SmartPdf.nl +:+ "D) four")
  = ["one"; "two"; "three"; "four"].
Proof. reflexivity. Qed.

(** * Further properties of the code *)

(** ** Handlers and properties of the store *)

Section Preserves.
Context (P : Session → Prop).

Lemma preserves_ret {A} (a : A) : preserves P (mret a).
Proof. by intros w. Qed.

Lemma preserves_raise {A} (e : Exn) : preserves P (@raise A e).
Proof. by intros w. Qed.

Lemma preserves_http_error {A} s d : preserves P (@http_error A s d).
Proof. by intros w. Qed.

Lemma preserves_bind {A B} (c : M A) (f : A → M B) :
  preserves P c → (∀ a, preserves P (f a)) → preserves P (c ≫= f).
Proof.
  intros Hc Hf w Hw. unfold mbind, M_bind. specialize (Hc w Hw).
  destruct (c w) as [[e|a] w']; simpl in *; [done|]. by apply Hf.
Qed.

Lemma preserves_try_except {A} (c : M A) (h : Exn → M A) :
  preserves P c → (∀ e, preserves P (h e)) → preserves P (try_except c h).
Proof.
  intros Hc Hh w Hw. unfold try_except. specialize (Hc w Hw).
  destruct (c w) as [[e|a] w']; simpl in *; [|done]. by apply Hh.
Qed.

Lemma preserves_get_session : preserves P get_session.
Proof. by intros w. Qed.

Lemma preserves_draw : preserves P draw.
Proof. by intros w. Qed.

Lemma preserves_post msg : preserves P (post msg).
Proof. by intros w. Qed.

Lemma preserves_lift {A} (r : Exn + A) : preserves P (Auth.lift r).
Proof. by intros w. Qed.

Lemma preserves_commit {A} (op : Session → Exn + (A * Session)) :
  (∀ d a d', P d → op d = inr (a, d') → P d') → preserves P (commit op).
Proof.
  intros Hop w Hw. unfold commit.
  destruct (op (db w)) as [e|[a d']] eqn:Ho; simpl; [done|]. by eapply Hop.
Qed.

Lemma preserves_run {A} (op : Session → A * Session) :
  (∀ d, P d → P (op d).2) → preserves P (run op).
Proof.
  intros Hop w Hw. unfold run. specialize (Hop (db w) Hw).
  by destruct (op (db w)) as [a d'].
Qed.

Lemma preserves_Depends verdict : preserves P (Depends verdict).
Proof. by destruct verdict; intros w. Qed.

End Preserves.

Create HintDb preserves discriminated.
#[local] Hint Resolve preserves_ret preserves_raise preserves_http_error
  preserves_get_session preserves_draw preserves_post preserves_lift
  preserves_Depends : preserves.

Ltac preserves_step :=
  match goal with
  | |- preserves _ (_ ≫= _) => apply preserves_bind; [|intros ?]
  | |- preserves _ (try_except _ _) => apply preserves_try_except; [|intros ?]
  | |- preserves _ (if ?b then _ else _) => destruct b
  | |- preserves _ (match ?x with _ => _ end) => destruct x
  | |- preserves _ _ => solve [auto with preserves]
  end.

(** ** The unique indexes are kept *)

Lemma next_id_fresh (ids : list Z) : next_id ids ∉ ids.
Proof.
  assert (Hmax : ∀ x, x ∈ ids → x ≤ foldr Z.max 0 ids).
  { induction ids as [|y ids IH]; intros x Hx; [by apply elem_of_nil in Hx|].
    simpl. apply elem_of_cons in Hx as [->|Hx]; [lia|]. specialize (IH x Hx). lia. }
  intros Hin. apply Hmax in Hin. unfold next_id in Hin. lia.
Qed.

Lemma NoDup_snoc {A} (l : list A) (x : A) : NoDup l → x ∉ l → NoDup (l ++ [x]).
Proof.
  intros Hl Hx. apply NoDup_app. split; [done|]. split.
  - intros y Hy Hy'. apply list_elem_of_singleton in Hy' as ->. done.
  - apply NoDup_singleton.
Qed.

(** Writing a row that agrees on a column leaves the column as it was. *)
Lemma column_insert {A B} (f : A → B) (l : list A) i x y :
  l !! i = Some x → f y = f x → f <$> <[i := y]> l = f <$> l.
Proof.
  intros Hi Hf. rewrite list_fmap_insert, Hf. apply list_insert_id.
  by rewrite list_lookup_fmap, Hi.
Qed.

Lemma NoDup_column_delete {A B} (f : A → B) (l : list A) i :
  NoDup (f <$> l) → NoDup (f <$> delete i l).
Proof.
  intros Hnd. eapply sublist_NoDup; [exact Hnd|].
  apply fmap_sublist, sublist_delete.
Qed.

Lemma unique_revoke_refresh_token d token :
  unique_indexes d → unique_indexes (Services.revoke_refresh_token d token).2.
Proof.
  intros [? ? ? Hr ? ?]. unfold Services.revoke_refresh_token.
  destruct (first_ref _ (refresh_tokens d)) as [[i x]|] eqn:Hf; simpl; [|done].
  apply first_ref_Some in Hf as (Hi & _ & _).
  split; simpl; try done.
  by rewrite (column_insert RefreshToken.token _ i x).
Qed.

Lemma unique_revoke_all d user_id :
  unique_indexes d →
  unique_indexes (Services.revoke_all_user_refresh_tokens d user_id).2.
Proof.
  intros [? ? ? Hr ? ?].
  pose proof (revoke_all_token_column d user_id) as Hcol.
  unfold Services.revoke_all_user_refresh_tokens in *.
  destruct (all _ (refresh_tokens d)); simpl in *; [done|].
  split; simpl; try done. by rewrite Hcol.
Qed.

Lemma unique_verify_user_email d now token :
  unique_indexes d → unique_indexes (Services.verify_user_email d now token).2.
Proof.
  intros [Hid He Hn ? Hv ?]. unfold Services.verify_user_email.
  destruct (first_ref _ (verification_tokens d)) as [[ti tk]|]; [|done].
  destruct (first_ref _ (users d)) as [[ui u]|] eqn:Hu; [|done].
  apply first_ref_Some in Hu as (Hui & _ & _).
  split; simpl; try done.
  - by rewrite (column_insert User.id _ ui u).
  - by rewrite (column_insert User.email _ ui u).
  - by rewrite (column_insert User.username _ ui u).
  - by apply NoDup_column_delete.
Qed.

Lemma unique_reset_user_password `{PasswordContext} d now token pw :
  unique_indexes d →
  unique_indexes (Services.reset_user_password d now token pw).2.
Proof.
  intros [Hid He Hn ? ? Hp]. unfold Services.reset_user_password.
  destruct (first_ref _ (password_reset_tokens d)) as [[ti tk]|]; [|done].
  destruct (first_ref _ (users d)) as [[ui u]|] eqn:Hu; [|done].
  apply first_ref_Some in Hu as (Hui & _ & _).
  split; simpl; try done.
  - by rewrite (column_insert User.id _ ui u).
  - by rewrite (column_insert User.email _ ui u).
  - by rewrite (column_insert User.username _ ui u).
  - by apply NoDup_column_delete.
Qed.

Lemma unique_create_user `{PasswordContext} d now uc user d' :
  unique_indexes d → Services.create_user d now uc = inr (user, d') →
  unique_indexes d'.
Proof.
  intros [Hid He Hn ? ? ?]. unfold Services.create_user, Services.users_insert_ok.
  destruct (_ && _) eqn:Hok; [|done]. intros [= <- <-].
  apply andb_true_iff in Hok as [Hemail Huser].
  apply bool_decide_eq_true in Hemail, Huser. simpl in *.
  split; simpl; try done; rewrite fmap_app; simpl; apply NoDup_snoc; try done.
  apply next_id_fresh.
Qed.

Lemma unique_insert_refresh_token r d a d' :
  unique_indexes d → Security.insert_refresh_token r d = inr (a, d') →
  unique_indexes d'.
Proof.
  intros [? ? ? Hr ? ?]. unfold Security.insert_refresh_token.
  case_bool_decide as Hin; [done|]. intros [= <- <-].
  split; simpl; try done. rewrite fmap_app. by apply NoDup_snoc.
Qed.

Lemma unique_insert_verification_token t d a d' :
  unique_indexes d → Email.insert_verification_token t d = inr (a, d') →
  unique_indexes d'.
Proof.
  intros [? ? ? ? Hv ?]. unfold Email.insert_verification_token.
  case_bool_decide as Hin; [done|]. intros [= <- <-].
  split; simpl; try done. rewrite fmap_app. by apply NoDup_snoc.
Qed.

Lemma unique_insert_password_reset_token t d a d' :
  unique_indexes d → Email.insert_password_reset_token t d = inr (a, d') →
  unique_indexes d'.
Proof.
  intros [? ? ? ? ? Hp]. unfold Email.insert_password_reset_token.
  case_bool_decide as Hin; [done|]. intros [= <- <-].
  split; simpl; try done. rewrite fmap_app. by apply NoDup_snoc.
Qed.

Lemma loaded_Some d user i row :
  Services.loaded d user = Some (i, row) →
  users d !! i = Some row ∧ User.id row = User.id user.
Proof.
  unfold Services.loaded. intros (Hi & Hp & _)%first_ref_Some.
  split; [done|]. by apply bool_decide_eq_true in Hp.
Qed.

(** Writing a row whose value in a unique column no other row holds
    keeps the column free of duplicates. *)
Lemma NoDup_column_insert {A B} (f : A → B) (l : list A) i y :
  NoDup (f <$> l) → (i < length l)%nat → f y ∉ (f <$> delete i l) →
  NoDup (f <$> <[i := y]> l).
Proof.
  intros Hnd Hlt Hfresh.
  pose proof (NoDup_column_delete f l i Hnd) as Hdel.
  rewrite delete_take_drop in Hdel, Hfresh.
  rewrite insert_take_drop by done.
  rewrite fmap_app in *. rewrite fmap_cons.
  eapply (NoDup_Permutation_proper _ (f y :: (f <$> take i l) ++ (f <$> drop (S i) l))).
  - by rewrite Permutation_middle.
  - by apply NoDup_cons.
Qed.

Lemma unique_update_user d now user uu user' d' :
  unique_indexes d → Services.update_user d now user uu = inr (user', d') →
  unique_indexes d'.
Proof.
  intros [Hid He Hn ? ? ?]. unfold Services.update_user.
  destruct (Services.loaded d user) as [[i row]|] eqn:Hl; [|done].
  apply loaded_Some in Hl as [Hi _].
  destruct (default _ (uu_email uu)) as [e|]; [|done].
  destruct (default _ (uu_username uu)) as [n|]; [|done].
  destruct (_ || _) eqn:Hclash; [done|]. intros [= <- <-].
  apply orb_false_iff in Hclash as [Hce Hcn].
  apply bool_decide_eq_false in Hce, Hcn.
  assert (Hlt : (i < length (users d))%nat) by (by eapply lookup_lt_Some).
  split; simpl; try done.
  - by rewrite (column_insert User.id _ i row).
  - by apply NoDup_column_insert.
  - by apply NoDup_column_insert.
Qed.

Lemma unique_change_user_password `{PasswordContext} d now user pw user' d' :
  unique_indexes d → Services.change_user_password d now user pw = inr (user', d') →
  unique_indexes d'.
Proof.
  intros [Hid He Hn ? ? ?]. unfold Services.change_user_password.
  destruct (Services.loaded d user) as [[i row]|] eqn:Hl; [|done].
  apply loaded_Some in Hl as [Hi _]. intros [= <- <-].
  split; simpl; try done.
  - by rewrite (column_insert User.id _ i row).
  - by rewrite (column_insert User.email _ i row).
  - by rewrite (column_insert User.username _ i row).
Qed.

Lemma unique_update_user_role d now user role user' d' :
  unique_indexes d → Services.update_user_role d now user role = inr (user', d') →
  unique_indexes d'.
Proof.
  intros [Hid He Hn ? ? ?]. unfold Services.update_user_role.
  destruct (Services.loaded d user) as [[i row]|] eqn:Hl; [|done].
  apply loaded_Some in Hl as [Hi _]. intros [= <- <-].
  split; simpl; try done.
  - by rewrite (column_insert User.id _ i row).
  - by rewrite (column_insert User.email _ i row).
  - by rewrite (column_insert User.username _ i row).
Qed.

Section UniqueIndexes.
Context `{PasswordContext} `{Jose} `{Entropy} `{SqlEngine} `{Outside} `{Limiter}.
Variable settings : Settings.

Lemma unique_token_urlsafe n : preserves unique_indexes (Security.token_urlsafe n).
Proof. unfold Security.token_urlsafe. repeat preserves_step. Qed.

Lemma unique_create_access_token now subject role delta :
  preserves unique_indexes
    (Security.create_access_token settings now subject role delta).
Proof. unfold Security.create_access_token, Security.uuid4. repeat preserves_step. Qed.

Lemma unique_create_refresh_token now user_id ua ip :
  preserves unique_indexes
    (Security.create_refresh_token settings now user_id ua ip).
Proof.
  unfold Security.create_refresh_token.
  pose proof unique_token_urlsafe. repeat preserves_step.
  apply preserves_commit. intros dA rA dB. apply unique_insert_refresh_token.
Qed.

Lemma unique_send_verification_email now user url :
  preserves unique_indexes (Email.send_verification_email now user url).
Proof.
  unfold Email.send_verification_email, Email.create_verification_token,
    Email.send_email.
  pose proof unique_token_urlsafe. repeat preserves_step.
  apply preserves_commit. intros dA rA dB. apply unique_insert_verification_token.
Qed.

Lemma unique_send_password_reset_email now user url :
  preserves unique_indexes (Email.send_password_reset_email now user url).
Proof.
  unfold Email.send_password_reset_email, Email.create_password_reset_token,
    Email.send_email.
  pose proof unique_token_urlsafe. repeat preserves_step.
  apply preserves_commit. intros dA rA dB.
  apply unique_insert_password_reset_token.
Qed.

Lemma unique_step w op :
  unique_indexes (db w) → unique_indexes (db (Lifecycle.step settings w op)).
Proof.
  pose proof unique_token_urlsafe. pose proof unique_create_access_token.
  pose proof unique_create_refresh_token.
  pose proof unique_send_verification_email.
  pose proof unique_send_password_reset_email.
  revert w. change (preserves unique_indexes (λ w, (inr tt, Lifecycle.step settings w op))).
  destruct op; simpl; intros w Hw; simpl.
  - revert w Hw. change (preserves unique_indexes (Auth.register now request user_create)).
    unfold Auth.register. repeat preserves_step.
    apply preserves_commit. intros dA rA dB. apply unique_create_user.
  - revert w Hw.
    change (preserves unique_indexes (Auth.login settings now request email password)).
    unfold Auth.login, Auth.login_with, Security.generate_csrf_token.
    repeat preserves_step.
  - by apply unique_create_refresh_token.
  - done.
  - revert w Hw.
    apply (preserves_run _ (λ d, Services.revoke_refresh_token d token)).
    intros d. apply unique_revoke_refresh_token.
  - revert w Hw.
    apply (preserves_run _ (λ d, Services.revoke_all_user_refresh_tokens d user_id)).
    intros d. apply unique_revoke_all.
  - revert w Hw. change (preserves unique_indexes (Auth.logout refresh_token)).
    unfold Auth.logout. repeat preserves_step.
    apply preserves_run. intros d. apply unique_revoke_refresh_token.
  - revert w Hw.
    change (preserves unique_indexes
              (Auth.refresh_token settings now refresh_token csrf_token x_csrf_token)).
    unfold Auth.refresh_token, Security.generate_csrf_token. repeat preserves_step.
  - revert w Hw. change (preserves unique_indexes (Auth.verify_email now token)).
    unfold Auth.verify_email. apply preserves_bind; [|intros ?; repeat preserves_step].
    apply preserves_run. intros d. apply unique_verify_user_email.
  - revert w Hw.
    change (preserves unique_indexes (Auth.request_password_reset now request email)).
    unfold Auth.request_password_reset. repeat preserves_step.
  - revert w Hw.
    change (preserves unique_indexes (Auth.reset_password now token new_password)).
    unfold Auth.reset_password. apply preserves_bind.
    + apply preserves_run. intros d. apply unique_reset_user_password.
    + intros [u|]; repeat preserves_step.
      apply preserves_run. intros d. apply unique_revoke_all.
Qed.

End UniqueIndexes.

(** X1: the handlers of the authentication subsystem keep the unique
    indexes of the store.  From a store without duplicate user ids,
    emails, usernames or token strings, any sequence of register, login,
    create, lookup, revoke, revoke-all, logout, refresh, verify-email,
    request-password-reset and reset-password operations, answered or
    raised, leaves a store without such duplicates. *)
Theorem unique_indexes_invariant
    `{PasswordContext} `{Jose} `{Entropy} `{SqlEngine} `{Outside} `{Limiter}
    (settings : Settings) (ops : list Lifecycle.Op) (w : World) :
  unique_indexes (db w) →
  unique_indexes (db (Lifecycle.steps settings w ops)).
Proof.
  revert w. induction ops as [|op ops IH]; intros w Hw; simpl; [done|].
  apply IH. by apply unique_step.
Qed.

Lemma sample_store_unique : unique_indexes Sample.store.
Proof. split; apply (bool_decide_unpack _); vm_compute; exact I. Defined.

Lemma unique_indexes_invariant_witness :
  unique_indexes
    (db (@Lifecycle.steps Sample.pwd Sample.jose Sample.entropy Sample.outside
           Sample.limiter
           default_settings Sample.world
           [Lifecycle.OpRegister 5 Sample.request
              (mkUserCreate "carol@x.com" "carol" None "pw12345678" "pw12345678");
            Lifecycle.OpLogin 6 Sample.request "alice@x.com" "pw12345678";
            Lifecycle.OpVerifyEmail 7 "v1";
            Lifecycle.OpResetPassword 8 "p1" "abcdefgh"])).
Proof.
  apply (@unique_indexes_invariant Sample.pwd Sample.jose Sample.entropy
           Sample.engine Sample.outside Sample.limiter).
  exact sample_store_unique.
Defined.

(** ** Profile, password and role updates ([api/users.py], [services/user.py]) *)

(** X2: a profile update touches only the profile.  For a loaded user, a
    successful [update_current_user] rewrites that user's row in place and
    the new row keeps the id, the password hash, the role and the active
    and verified flags (also when the email changes); the token tables are
    untouched and the unique indexes are kept.  The only failure is an
    [IntegrityError] (a null or taken email or username), and it leaves the
    world as it was. *)
Theorem update_current_user_frame
    (now : Z) (user_update : UserUpdate) (current_user : User.t) (w : World)
    (i : nat) (row : User.t) :
  Services.loaded (db w) current_user = Some (i, row) →
  match Users.update_current_user now user_update current_user w with
  | (inr row', w') =>
      users (db w') = <[i := row']> (users (db w))
      ∧ User.id row' = User.id row
      ∧ User.hashed_password row' = User.hashed_password row
      ∧ User.role row' = User.role row
      ∧ User.is_active row' = User.is_active row
      ∧ User.is_verified row' = User.is_verified row
      ∧ refresh_tokens (db w') = refresh_tokens (db w)
      ∧ verification_tokens (db w') = verification_tokens (db w)
      ∧ password_reset_tokens (db w') = password_reset_tokens (db w)
      ∧ (unique_indexes (db w) → unique_indexes (db w'))
  | (inl e, w') => e = IntegrityError ∧ w' = w
  end.
Proof.
  intros Hl. unfold Users.update_current_user, commit.
  destruct (Services.update_user (db w) now current_user user_update)
    as [e|[row' d']] eqn:Hu.
  - split; [|done]. revert Hu. unfold Services.update_user. rewrite Hl.
    repeat case_match; congruence.
  - simpl. assert (Huniq := λ Hw, unique_update_user _ _ _ _ _ _ Hw Hu).
    revert Hu. unfold Services.update_user. rewrite Hl.
    destruct (default _ (uu_email user_update)) as [e|]; [|done].
    destruct (default _ (uu_username user_update)) as [n|]; [|done].
    destruct (_ || _); [done|]. intros [= <- <-]. simpl.
    split_and!; done.
Qed.

Lemma update_current_user_frame_witness :
  ∃ row' w',
    Users.update_current_user 9 (mkUserUpdate (Some (Some "al@x.com")) None None)
      Sample.alice Sample.world = (inr row', w')
    ∧ User.role row' = USER ∧ User.is_verified row' = false.
Proof.
  pose proof (update_current_user_frame 9
                (mkUserUpdate (Some (Some "al@x.com")) None None)
                Sample.alice Sample.world 0%nat Sample.alice eq_refl) as Hf.
  destruct (Users.update_current_user _ _ _ _) as [[e|row'] w'] eqn:Hu.
  - by vm_compute in Hu.
  - exists row', w'. destruct Hf as (_ & _ & _ & Hr & _ & Hv & _).
    by rewrite Hr, Hv.
Defined.

(** X3: changing the password.  With a wrong current password the answer
    is 400 and nothing changes.  With the right one, for a loaded user,
    the stored row gets the hash of the new password and keeps everything
    else but [updated_at]; no refresh token is revoked or removed, so the
    sessions opened under the old password stay valid. *)
Theorem change_password_keeps_sessions `{PasswordContext}
    (now : Z) (password_change : PasswordChange) (current_user : User.t)
    (w : World) (i : nat) (row : User.t) :
  Services.loaded (db w) current_user = Some (i, row) →
  (pwd_verify (pc_current_password password_change)
              (User.hashed_password current_user) = false →
   Users.change_current_user_password now password_change current_user w
   = (inl (HTTPException 400 "Incorrect current password"), w))
  ∧ (pwd_verify (pc_current_password password_change)
                (User.hashed_password current_user) = true →
     ∃ w',
       Users.change_current_user_password now password_change current_user w
       = (inr "Password successfully changed", w')
       ∧ users (db w')
         = <[i := Services.set_hashed_password now
                     (pwd_hash (pc_new_password password_change)) row]>
             (users (db w))
       ∧ refresh_tokens (db w') = refresh_tokens (db w)
       ∧ ∀ now' token,
           Services.get_refresh_token (db w') now' token
           = Services.get_refresh_token (db w) now' token).
Proof.
  intros Hl. unfold Users.change_current_user_password, Security.verify_password.
  split; intros ->; simpl; [done|].
  unfold commit, mbind, M_bind, mret, M_ret, Services.change_user_password.
  rewrite Hl. simpl. eexists. split; [done|]. simpl. done.
Qed.

Lemma change_password_keeps_sessions_witness :
  ∃ w',
    @Users.change_current_user_password Sample.pwd 9
      (mkPasswordChange "pw12345678" "abcdefgh" "abcdefgh") Sample.alice Sample.world
    = (inr "Password successfully changed", w')
    ∧ refresh_tokens (db w') = refresh_tokens Sample.store.
Proof.
  destruct (proj2 (@change_password_keeps_sessions Sample.pwd 9
                     (mkPasswordChange "pw12345678" "abcdefgh" "abcdefgh")
                     Sample.alice Sample.world 0%nat Sample.alice eq_refl) eq_refl)
    as (w' & Hc & _ & Hr & _).
  by exists w'.
Defined.

Lemma get_user_by_id_ref d user_id user :
  Services.get_user_by_id d user_id = Some user →
  ∃ i, Services.loaded d user = Some (i, user) ∧ User.id user = user_id.
Proof.
  unfold Services.get_user_by_id, first, Services.loaded.
  destruct (first_ref _ (users d)) as [[i u]|] eqn:Hf; simpl; [|done].
  intros [= <-]. pose proof Hf as (_ & Hp & _)%first_ref_Some.
  apply bool_decide_eq_true in Hp. subst user_id. by exists i.
Qed.

(** X4: the role endpoint never touches a row that carries the caller's
    id.  An unknown id is answered 404 and the caller's own id 400, both
    leaving the world as it was; otherwise the first row with the target
    id gets the role, and every other row of [users], the caller's
    included, stays as it was.  So an administrator cannot lose the role
    through this endpoint. *)
Theorem update_user_role_endpoint_frame (role_text : UserRole → string)
    (now : Z) (user_id : Z) (role : UserRole) (current_user : User.t) (w : World) :
  match Users.update_user_role_endpoint role_text now user_id role current_user w with
  | (inr detail, w') =>
      user_id ≠ User.id current_user
      ∧ ∃ i user,
          Services.loaded (db w) user = Some (i, user)
          ∧ User.id user = user_id
          ∧ users (db w') = <[i := Services.set_role now role user]> (users (db w))
          ∧ (∀ j me, users (db w) !! j = Some me →
                     User.id me = User.id current_user →
                     users (db w') !! j = Some me)
          ∧ Services.get_user_by_id (db w') user_id
            = Some (Services.set_role now role user)
  | (inl e, w') =>
      w' = w
      ∧ ((e = HTTPException 404 "User not found"
          ∧ Services.get_user_by_id (db w) user_id = None)
         ∨ (e = HTTPException 400 "Cannot change own role"
            ∧ user_id = User.id current_user))
  end.
Proof.
  unfold Users.update_user_role_endpoint, get_session, mbind, M_bind, mret, M_ret,
    http_error, raise, commit. simpl.
  destruct (Services.get_user_by_id (db w) user_id) as [user|] eqn:Hg;
    [|by split; [|left]].
  destruct (get_user_by_id_ref _ _ _ Hg) as (i & Hl & Hid).
  case_bool_decide as Hown; [split; [done|right; split; [done|congruence]]|].
  unfold Services.update_user_role. rewrite Hl. simpl.
  split; [congruence|]. exists i, user. split_and!; try done.
  - intros j me Hj Hme. rewrite list_lookup_insert_ne; [done|].
    intros ->. apply loaded_Some in Hl as [Hi _]. congruence.
  - subst user_id. unfold Services.get_user_by_id, first, Services.loaded in *.
    simpl. rewrite (first_ref_insert _ _ _ _ (Services.set_role now role user) Hl);
      [done|]. simpl. by apply bool_decide_eq_true_2.
Qed.

(** ** The role gate ([core/rbac.py]) *)

(** X5: the role gate is monotone in its list of roles and never alters
    the user.  A user let through by a checker is let through, unchanged,
    by every checker whose list contains the first one's, so whoever passes
    [allow_admin] passes [allow_moderator], and whoever passes that passes
    [allow_all_users], which refuses nobody; and a refusal is always a
    403. *)
Theorem role_gate_monotone (role_text : UserRole → string)
    (allowed allowed' : list UserRole) (user : User.t) :
  (allowed ⊆ allowed' →
   ∀ u, Rbac.RoleChecker role_text allowed user = inr u →
        u = user ∧ Rbac.RoleChecker role_text allowed' user = inr user)
  ∧ (∀ u, Rbac.allow_admin role_text user = inr u →
          Rbac.allow_moderator role_text user = inr user)
  ∧ (∀ u, Rbac.allow_moderator role_text user = inr u →
          Rbac.allow_all_users role_text user = inr user)
  ∧ Rbac.allow_all_users role_text user = inr user
  ∧ (∀ e, Rbac.RoleChecker role_text allowed user = inl e →
          status_of e = 403 ∧ User.role user ∉ allowed).
Proof.
  assert (Hmono : ∀ a a', a ⊆ a' →
            ∀ u, Rbac.RoleChecker role_text a user = inr u →
                 u = user ∧ Rbac.RoleChecker role_text a' user = inr user).
  { intros a a' Hsub u. unfold Rbac.RoleChecker.
    case_bool_decide as Hin; simpl; [|done]. intros [= <-]. split; [done|].
    rewrite bool_decide_eq_true_2; [done|]. by apply Hsub. }
  split_and!.
  - apply Hmono.
  - intros u Hu. eapply (Hmono [ADMIN] [ADMIN; MODERATOR]); [by apply (bool_decide_unpack _)|exact Hu].
  - intros u Hu.
    eapply (Hmono [ADMIN; MODERATOR] [ADMIN; MODERATOR; USER]);
      [by apply (bool_decide_unpack _)|exact Hu].
  - unfold Rbac.allow_all_users, Rbac.RoleChecker.
    rewrite bool_decide_eq_true_2; [done|].
    destruct (User.role user); by apply (bool_decide_unpack _).
  - intros e. unfold Rbac.RoleChecker. case_bool_decide; simpl; [done|].
    by intros [= <-].
Qed.

Lemma role_gate_monotone_witness :
  Rbac.RoleChecker UserRole_value [ADMIN; MODERATOR] Sample.alice
  = inl (HTTPException 403 "Role user not authorized to access this resource")
  ∧ Rbac.allow_moderator UserRole_value
      (User.mk 9 "m@x.com" "mod" "h" None MODERATOR true true 0 None)
    = inr (User.mk 9 "m@x.com" "mod" "h" None MODERATOR true true 0 None).
Proof.
  split; [reflexivity|].
  apply (proj2 (proj1 (role_gate_monotone UserRole_value [MODERATOR] [ADMIN; MODERATOR]
                         (User.mk 9 "m@x.com" "mod" "h" None MODERATOR true true 0 None))
                  ltac:(by apply (bool_decide_unpack _)) _ eq_refl)).
Defined.

(** ** More on the [/auth] handlers ([api/auth.py]) *)

(** The body of [request_password_reset], once the limiter has let the
    request through. *)
Lemma request_password_reset_through `{Entropy} `{Outside} `{Limiter}
    (now : Z) (request : Request) (email : string) (w : World) :
  password_reset_rate_limiter now request = None →
  ∃ w',
    Auth.request_password_reset now request email w
    = (inr "If your email is registered, you will receive a password reset link", w')
    ∧ (Services.get_user_by_email (db w) email = None → w' = w)
    ∧ users (db w') = users (db w)
    ∧ refresh_tokens (db w') = refresh_tokens (db w).
Proof.
  intros Hthrough.
  unfold Auth.request_password_reset, get_session, mbind, M_bind, mret, M_ret.
  rewrite Hthrough. simpl.
  destruct (Services.get_user_by_email (db w) email) as [user|];
    [|by exists w].
  unfold try_except, Email.send_password_reset_email,
    Email.create_password_reset_token, Security.token_urlsafe, draw, get_session,
    commit, Email.insert_password_reset_token, Email.send_email, post, raise,
    mbind, M_bind, mret, M_ret. simpl.
  case_bool_decide; simpl; [by eexists|].
  destruct (smtp_send _ _ _); simpl; by eexists.
Qed.

(** X6: [request_password_reset] gives nothing away.  The rate limiter of
    the route decides first: when it raises, that exception is the outcome
    and the world is left as it was.  When it lets the request through,
    then whatever the email, the store, the random source and the SMTP
    relay do, the handler answers the same sentence and does not raise; for
    an email that is not registered it leaves the world as it was; and it
    never touches the users or the refresh tokens.  Either way the outcome
    is the same for any two emails. *)
Theorem request_password_reset_uniform `{Entropy} `{Outside} `{Limiter}
    (now : Z) (request : Request) (email : string) (w : World) :
  (∀ e, password_reset_rate_limiter now request = Some e →
        Auth.request_password_reset now request email w = (inl e, w))
  ∧ (password_reset_rate_limiter now request = None →
     ∃ w',
       Auth.request_password_reset now request email w
       = (inr "If your email is registered, you will receive a password reset link", w')
       ∧ (Services.get_user_by_email (db w) email = None → w' = w)
       ∧ users (db w') = users (db w)
       ∧ refresh_tokens (db w') = refresh_tokens (db w))
  ∧ (∀ other,
       (Auth.request_password_reset now request email w).1
       = (Auth.request_password_reset now request other w).1).
Proof.
  assert (Hrefused : ∀ e address,
            password_reset_rate_limiter now request = Some e →
            Auth.request_password_reset now request address w = (inl e, w)).
  { intros e address He.
    unfold Auth.request_password_reset, mbind, M_bind. by rewrite He. }
  split_and!.
  - intros e. apply Hrefused.
  - apply request_password_reset_through.
  - intros other.
    destruct (password_reset_rate_limiter now request) as [e|] eqn:Hv.
    + by rewrite !(Hrefused e _ eq_refl).
    + destruct (request_password_reset_through now request email w Hv)
        as (w1 & -> & _).
      by destruct (request_password_reset_through now request other w Hv)
        as (w2 & -> & _).
Qed.

Lemma request_password_reset_uniform_witness :
  @Auth.request_password_reset Sample.entropy Sample.outside
    Sample.uninitialised_limiter 5 Sample.request "alice@x.com" Sample.world
  = (inl (UnhandledError "Exception"), Sample.world)
  ∧ ∃ w',
      @Auth.request_password_reset Sample.entropy Sample.outside Sample.limiter
        5 Sample.request "alice@x.com" Sample.world
      = (inr "If your email is registered, you will receive a password reset link", w')
      ∧ users (db w') = users (db Sample.world).
Proof.
  split.
  - apply (proj1 (@request_password_reset_uniform Sample.entropy Sample.outside
                    Sample.uninitialised_limiter 5 Sample.request "alice@x.com"
                    Sample.world)).
    reflexivity.
  - destruct (proj1 (proj2 (@request_password_reset_uniform Sample.entropy
                              Sample.outside Sample.limiter 5 Sample.request
                              "alice@x.com" Sample.world)) eq_refl)
      as (w' & Hw & _ & Hu & _).
    by exists w'.
Defined.

(** X7: a login that does not authenticate.  When no stored user has the
    email, or the password does not verify against the first such user's
    hash, the answer is the same 401 "Incorrect email or password" in both
    cases, and the world is left as it was: no token is drawn or stored. *)
Theorem login_rejects_bad_credentials
    `{PasswordContext} `{Jose} `{Entropy} `{Outside} (settings : Settings)
    (now : Z) (request : Request) (email password : string) (w : World) :
  (Services.get_user_by_email (db w) email = None
   ∨ ∃ user, Services.get_user_by_email (db w) email = Some user
             ∧ pwd_verify password (User.hashed_password user) = false) →
  Auth.login settings now request email password w
  = (inl (HTTPException 401 "Incorrect email or password"), w)
  ∧ Auth.login_json settings now request email password w
    = (inl (HTTPException 401 "Incorrect email or password"), w).
Proof.
  intros Hbad.
  assert (Hauth : Services.authenticate_user (db w) email password = None).
  { unfold Services.authenticate_user.
    destruct Hbad as [-> | (user & -> & ->)]; done. }
  unfold Auth.login, Auth.login_json, Auth.login_with, get_session, mbind, M_bind.
  simpl. by rewrite Hauth.
Qed.

Lemma login_rejects_bad_credentials_witness :
  @Auth.login Sample.pwd Sample.jose Sample.entropy Sample.outside
    default_settings 5 Sample.request "alice@x.com" "wrongpassword" Sample.world
  = (inl (HTTPException 401 "Incorrect email or password"), Sample.world).
Proof.
  apply (@login_rejects_bad_credentials Sample.pwd Sample.jose Sample.entropy
           Sample.outside default_settings 5 Sample.request
           "alice@x.com" "wrongpassword" Sample.world).
  right. exists Sample.alice. split; reflexivity.
Defined.

(** X8: [logout] always answers.  With or without a cookie, known or
    unknown, it answers "Successfully logged out" and deletes the three
    cookies; it draws nothing and sends nothing; users and the other token
    tables are untouched; and a refresh-token row whose token string is not
    the cookie's stays exactly as it was. *)
Theorem logout_always_answers (refresh_token : option string) (w : World) :
  ∃ w',
    Auth.logout refresh_token w
    = (inr (mkResponse [delete_cookie "access_token" "/";
                        delete_cookie "refresh_token" "/";
                        delete_cookie "csrf_token" "/"]
                       "Successfully logged out"), w')
    ∧ drawn w' = drawn w ∧ outbox w' = outbox w
    ∧ users (db w') = users (db w)
    ∧ verification_tokens (db w') = verification_tokens (db w)
    ∧ password_reset_tokens (db w') = password_reset_tokens (db w)
    ∧ length (refresh_tokens (db w')) = length (refresh_tokens (db w))
    ∧ ∀ i r, refresh_tokens (db w) !! i = Some r →
             Some (RefreshToken.token r) ≠ refresh_token →
             refresh_tokens (db w') !! i = Some r.
Proof.
  unfold Auth.logout, run, mbind, M_bind, mret, M_ret.
  destruct (PyStr.truthy_opt refresh_token) eqn:Ht; simpl.
  - destruct refresh_token as [t|]; [|done]. simpl.
    unfold Services.revoke_refresh_token.
    destruct (first_ref _ (refresh_tokens (db w))) as [[j x]|] eqn:Hf; simpl.
    + eexists. split; [done|]. simpl. split_and!; try done.
      * by rewrite length_insert.
      * intros i r Hi Hne. apply first_ref_Some in Hf as (Hj & Hp & _).
        apply bool_decide_eq_true in Hp.
        rewrite list_lookup_insert_ne; [done|]. intros ->. congruence.
    + eexists. split; [done|]. by destruct w.
  - eexists. split; [done|]. by destruct w.
Qed.

Lemma verify_csrf_token_equal (c : string) :
  c ≠ EmptyString → PyStr.isascii c = true →
  Security.verify_csrf_token c c = true.
Proof.
  intros Hne Ha. unfold Security.verify_csrf_token, Security.compare_digest,
    PyStr.truthy.
  rewrite !bool_decide_eq_false_2 by done. simpl.
  rewrite Ha. simpl. rewrite tscmp_spec. by apply bool_decide_eq_true_2.
Qed.

(** The handler's path once the refresh token, the CSRF pair, the owner
    and the owner's active flag have passed. *)
Lemma refresh_token_accepted `{Jose} `{Entropy} (settings : Settings)
    (now : Z) (rt csrf : string) (w : World)
    (row : RefreshToken.t) (user : User.t) :
  rt ≠ EmptyString → csrf ≠ EmptyString → PyStr.isascii csrf = true →
  Services.get_refresh_token (db w) now rt = Some row →
  Services.get_user_by_id (db w) (RefreshToken.user_id row) = Some user →
  User.is_active user = true →
  ∃ resp w',
    Auth.refresh_token settings now (Some rt) (Some csrf) (Some csrf) w
    = (inr resp, w')
    ∧ db w' = db w ∧ token_type (body resp) = "bearer".
Proof.
  intros Hrt Hcsrf Hascii Hrow Huser Hact.
  unfold Auth.refresh_token. simpl. unfold PyStr.truthy.
  rewrite !bool_decide_eq_false_2 by done. simpl.
  rewrite verify_csrf_token_equal by done. simpl.
  unfold get_session, Security.create_access_token, Security.generate_csrf_token,
    Security.token_urlsafe, Security.uuid4, draw, mbind, M_bind, mret, M_ret.
  simpl. rewrite Hrow, Huser, Hact. simpl.
  by eexists _, _.
Qed.

(** X9: [verify_csrf_token] accepts exactly the pairs of equal, non-empty,
    ASCII-only values.  In particular two equal values that hold a
    non-ASCII character are refused: the comparison raises and the
    function answers [False]. *)
Theorem verify_csrf_token_iff (csrf_token csrf_cookie : string) :
  Security.verify_csrf_token csrf_token csrf_cookie = true
  ↔ csrf_token = csrf_cookie ∧ csrf_token ≠ EmptyString
    ∧ PyStr.isascii csrf_token = true.
Proof.
  unfold Security.verify_csrf_token, Security.compare_digest, PyStr.truthy.
  split.
  - case_bool_decide as H1; [done|]. case_bool_decide as H2; [done|]. simpl.
    destruct (PyStr.isascii csrf_token) eqn:Ha; simpl; [|done].
    destruct (PyStr.isascii csrf_cookie); [|done].
    rewrite tscmp_spec. intros Heq%bool_decide_eq_true. done.
  - intros (<- & Hne & Ha).
    rewrite !bool_decide_eq_false_2 by done. simpl.
    rewrite Ha. simpl. rewrite tscmp_spec. by apply bool_decide_eq_true_2.
Qed.

Lemma first_app_None {A} (p : A → bool) (l l' : list A) :
  first p l = None → first p (l ++ l') = first p l'.
Proof.
  unfold first. induction l as [|a l IH]; simpl; [done|].
  destruct (p a); [done|].
  destruct (first_ref p l) as [[i x]|] eqn:Hr; simpl; [done|].
  intros _. specialize (IH eq_refl).
  destruct (first_ref p (l ++ l')) as [[i x]|], (first_ref p l') as [[j y]|];
    simpl in *; congruence.
Qed.

(** In a column without duplicates the first row with a stored row's
    value is that row. *)
Lemma first_ref_unique {A B} `{EqDecision B} (f : A → B) (l : list A) i x :
  NoDup (f <$> l) → l !! i = Some x →
  first_ref (λ u, bool_decide (f u = f x)) l = Some (i, x).
Proof.
  intros Hnd Hi.
  destruct (first_ref _ l) as [[j y]|] eqn:Hf.
  - apply first_ref_Some in Hf as (Hj & Hp & _).
    apply bool_decide_eq_true in Hp.
    assert (j = i) as ->.
    { eapply (NoDup_lookup _ j i (f x) Hnd); rewrite list_lookup_fmap.
      - rewrite Hj. simpl. by f_equal.
      - by rewrite Hi. }
    congruence.
  - rewrite first_ref_None in Hf.
    specialize (Hf x (list_elem_of_lookup_2 _ _ _ Hi)). simpl in Hf.
    by rewrite bool_decide_eq_true_2 in Hf.
Qed.

(** X10: a registration with a free email and a free username succeeds
    whatever the mail side does (a token clash or an SMTP failure is
    swallowed).  The new user is appended with role [USER], active and not
    verified, carrying the hash of the password; a lookup by that email
    then finds this user; and no refresh token is created. *)
Theorem register_creates_user `{PasswordContext} `{Entropy} `{Outside}
    (now : Z) (request : Request) (user_create : UserCreate) (w : World) :
  Services.get_user_by_email (db w) (uc_email user_create) = None →
  Services.get_user_by_username (db w) (uc_username user_create) = None →
  ∃ user w',
    Auth.register now request user_create w = (inr user, w')
    ∧ user = User.mk (next_id (User.id <$> users (db w)))
                     (uc_email user_create) (uc_username user_create)
                     (pwd_hash (uc_password user_create))
                     (uc_full_name user_create) USER true false now None
    ∧ users (db w') = users (db w) ++ [user]
    ∧ Services.get_user_by_email (db w') (uc_email user_create) = Some user
    ∧ refresh_tokens (db w') = refresh_tokens (db w).
Proof.
  intros Hemail Huser.
  assert (Hok : ∀ u, Services.users_insert_ok (db w) u = true
                     ∨ User.email u ≠ uc_email user_create
                     ∨ User.username u ≠ uc_username user_create).
  { intros u.
    destruct (decide (User.email u = uc_email user_create)) as [He|]; [|auto].
    destruct (decide (User.username u = uc_username user_create)) as [Hn|]; [|auto].
    left. unfold Services.users_insert_ok. apply andb_true_iff.
    split; apply bool_decide_eq_true_2; intros (v & Hv & Hin)%list_elem_of_fmap.
    - unfold Services.get_user_by_email in Hemail. rewrite first_None in Hemail.
      specialize (Hemail v Hin). apply bool_decide_eq_false in Hemail. congruence.
    - unfold Services.get_user_by_username in Huser. rewrite first_None in Huser.
      specialize (Huser v Hin). apply bool_decide_eq_false in Huser. congruence. }
  unfold Auth.register, get_session, mbind, M_bind, mret, M_ret, commit,
    Services.create_user. simpl.
  rewrite Hemail, Huser.
  rewrite !bool_decide_eq_false_2 by (by intros [? ?]).
  match goal with |- context [Services.users_insert_ok _ ?u] =>
    destruct (Hok u) as [-> | [Hne|Hne]]; [|by destruct Hne..] end.
  simpl.
  unfold try_except, Email.send_verification_email, Email.create_verification_token,
    Security.token_urlsafe, draw, get_session, commit,
    Email.insert_verification_token, Email.send_email, post, raise,
    mbind, M_bind, mret, M_ret. simpl.
  assert (Hfind : ∀ u, User.email u = uc_email user_create →
            first (λ v, bool_decide (User.email v = uc_email user_create))
                  (users (db w) ++ [u]) = Some u).
  { intros u Hu. rewrite first_app_None by exact Hemail.
    unfold first. simpl. by rewrite bool_decide_eq_true_2. }
  case_bool_decide; simpl.
  - eexists _, _. split; [done|]. simpl. split_and!; try done. by apply Hfind.
  - destruct (smtp_send _ _ _); simpl;
      (eexists _, _; split; [done|]; simpl; split_and!; try done; by apply Hfind).
Qed.

Lemma register_creates_user_witness :
  ∃ user w',
    @Auth.register Sample.pwd Sample.entropy Sample.outside 5 Sample.request
      (mkUserCreate "carol@x.com" "carol" None "pw12345678" "pw12345678")
      Sample.world = (inr user, w')
    ∧ User.role user = USER ∧ User.is_verified user = false.
Proof.
  destruct (@register_creates_user Sample.pwd Sample.entropy Sample.outside 5
              Sample.request
              (mkUserCreate "carol@x.com" "carol" None "pw12345678" "pw12345678")
              Sample.world eq_refl eq_refl) as (user & w' & Hr & Hu & _).
  exists user, w'. split; [exact Hr|]. rewrite Hu. split; reflexivity.
Defined.

(** X11: a refresh does not rotate or consume the refresh token.  With a
    refresh token that [get_refresh_token] accepts, an active owner and two
    equal, non-empty, ASCII CSRF values, the handler answers a "bearer"
    token, sets exactly the cookies access_token and csrf_token (no new
    refresh_token cookie), and leaves the store exactly as it was, so the
    same refresh token is accepted again. *)
Theorem refresh_does_not_rotate `{Jose} `{Entropy} (settings : Settings)
    (now : Z) (rt csrf : string) (w : World)
    (row : RefreshToken.t) (user : User.t) :
  rt ≠ EmptyString → csrf ≠ EmptyString → PyStr.isascii csrf = true →
  Services.get_refresh_token (db w) now rt = Some row →
  Services.get_user_by_id (db w) (RefreshToken.user_id row) = Some user →
  User.is_active user = true →
  ∃ access new_csrf w',
    Auth.refresh_token settings now (Some rt) (Some csrf) (Some csrf) w
    = (inr (mkResponse
              [set_cookie (mkCookie "access_token" access true true "lax"
                             (ACCESS_TOKEN_EXPIRE_MINUTES settings * 60) "/");
               set_cookie (mkCookie "csrf_token" new_csrf false true "lax"
                             (ACCESS_TOKEN_EXPIRE_MINUTES settings * 60) "/")]
              (mkToken access "bearer"
                       (ACCESS_TOKEN_EXPIRE_MINUTES settings * 60))), w')
    ∧ db w' = db w
    ∧ Services.get_refresh_token (db w') now rt = Some row.
Proof.
  intros Hrt Hcsrf Hascii Hrow Huser Hact.
  unfold Auth.refresh_token. simpl. unfold PyStr.truthy.
  rewrite !bool_decide_eq_false_2 by done. simpl.
  rewrite verify_csrf_token_equal by done. simpl.
  unfold get_session, Security.create_access_token, Security.generate_csrf_token,
    Security.token_urlsafe, Security.uuid4, draw, mbind, M_bind, mret, M_ret.
  simpl. rewrite Hrow, Huser, Hact. simpl.
  by eexists _, _, _.
Qed.

Lemma refresh_does_not_rotate_witness :
  ∃ resp w',
    @Auth.refresh_token Sample.jose Sample.entropy default_settings 5
      (Some "r1") (Some "abc") (Some "abc") Sample.world = (inr resp, w')
    ∧ db w' = Sample.store.
Proof.
  destruct (@refresh_does_not_rotate Sample.jose Sample.entropy default_settings
              5 "r1" "abc" Sample.world Sample.rt1 Sample.alice)
    as (access & new_csrf & w' & Hr & Hdb & _); try reflexivity; try discriminate.
  by eexists _, w'.
Defined.

(** X12: a logged-out refresh token is dead.  In a store whose refresh
    token strings are unique, after [logout] with a refresh-token cookie no
    refresh request that presents that cookie is ever answered with a
    token: at any time and with any CSRF values it gets a 401 and changes
    nothing. *)
Theorem logout_then_refresh_rejected `{Jose} `{Entropy} (settings : Settings)
    (rt : string) (w : World) (now : Z) (csrf x_csrf : option string) :
  NoDup (RefreshToken.token <$> refresh_tokens (db w)) →
  ∃ detail,
    Auth.refresh_token settings now (Some rt) csrf x_csrf
      (Auth.logout (Some rt) w).2
    = (inl (HTTPException 401 detail), (Auth.logout (Some rt) w).2).
Proof.
  intros Hnd. set (w1 := (Auth.logout (Some rt) w).2).
  assert (Hdead : rt ≠ EmptyString →
                  Services.get_refresh_token (db w1) now rt = None).
  { intros Hne. subst w1.
    unfold Auth.logout, run, mbind, M_bind, mret, M_ret. simpl.
    unfold PyStr.truthy. rewrite bool_decide_eq_false_2 by done. simpl.
    unfold Services.revoke_refresh_token.
    destruct (first_ref _ (refresh_tokens (db w))) as [[i x]|] eqn:Hf; simpl.
    - pose proof Hf as (Hi & Hp & _)%first_ref_Some.
      apply bool_decide_eq_true in Hp. rewrite <- Hp.
      change (RefreshToken.token x)
        with (RefreshToken.token (RefreshToken.set_revoked x)).
      eapply (get_refresh_token_revoked _ now i); simpl; [| |done].
      + by rewrite (column_insert RefreshToken.token _ i x).
      + apply list_lookup_insert_eq. by eapply lookup_lt_Some.
    - unfold Services.get_refresh_token. apply first_None. intros r Hr.
      rewrite first_ref_None in Hf. specialize (Hf r Hr). simpl in Hf.
      by rewrite Hf. }
  unfold Auth.refresh_token.
  destruct (negb (PyStr.truthy_opt (Some rt))) eqn:Ht; [by eexists|].
  destruct (_ || _); [by eexists|].
  destruct (negb (Security.verify_csrf_token _ _)); [by eexists|].
  unfold get_session, mbind, M_bind. simpl.
  rewrite Hdead; [by eexists|].
  intros ->. by vm_compute in Ht.
Qed.

Lemma logout_then_refresh_rejected_witness :
  ∃ detail,
    @Auth.refresh_token Sample.jose Sample.entropy default_settings 5
      (Some "r1") (Some "abc") (Some "abc") (Auth.logout (Some "r1") Sample.world).2
    = (inl (HTTPException 401 detail), (Auth.logout (Some "r1") Sample.world).2).
Proof.
  apply (@logout_then_refresh_rejected Sample.jose Sample.entropy default_settings
           "r1" Sample.world 5 (Some "abc") (Some "abc")).
  apply (bool_decide_unpack _). vm_compute. exact I.
Defined.

(** ** Verification, reset and expiry ([services/user.py]) *)

(** X13: a successful email verification marks the token's user, and only
    that row.  The token presented is stored and not expired, and the first
    such row of the token table is the one consumed; the user marked is the
    first stored row whose id is that token's [user_id].  The returned user
    is that row with [is_verified] set and every other field but
    [updated_at] as before; looked up by id afterwards it is found and
    passes [get_current_active_verified_user]; all other user rows, the
    other verification tokens, the refresh tokens and the password-reset
    tokens are as they were. *)
Theorem verify_user_email_marks_user
    (d d' : Session) (now : Z) (token : string) (user : User.t) :
  Services.verify_user_email d now token = (Some user, d') →
  ∃ ti tk i old,
    verification_tokens d !! ti = Some tk
    ∧ VerificationToken.token tk = token
    ∧ now < VerificationToken.expires_at tk
    ∧ (∀ j t, (j < ti)%nat → verification_tokens d !! j = Some t →
              ¬ (VerificationToken.token t = token
                 ∧ now < VerificationToken.expires_at t))
    ∧ users d !! i = Some old
    ∧ User.id old = VerificationToken.user_id tk
    ∧ (∀ j u, (j < i)%nat → users d !! j = Some u →
              User.id u ≠ VerificationToken.user_id tk)
    ∧ user = Services.set_is_verified now old
    ∧ User.id user = VerificationToken.user_id tk
    ∧ users d' = <[i := user]> (users d)
    ∧ verification_tokens d' = delete_row ti (verification_tokens d)
    ∧ User.is_verified user = true
    ∧ User.role user = User.role old ∧ User.is_active user = User.is_active old
    ∧ User.hashed_password user = User.hashed_password old
    ∧ Services.get_user_by_id d' (User.id user) = Some user
    ∧ Security.get_current_active_verified_user user = inr user
    ∧ refresh_tokens d' = refresh_tokens d
    ∧ password_reset_tokens d' = password_reset_tokens d.
Proof.
  unfold Services.verify_user_email.
  destruct (first_ref _ (verification_tokens d)) as [[ti tk]|] eqn:Ht; [|done].
  destruct (first_ref _ (users d)) as [[ui u]|] eqn:Hu; [|done].
  intros [= <- <-].
  apply first_ref_Some in Ht as (Hti & Htk & Htfirst).
  apply andb_true_iff in Htk as [Htok Hexp].
  apply bool_decide_eq_true in Htok. apply bool_decide_eq_true in Hexp.
  pose proof Hu as (Hui & Hp & Hufirst)%first_ref_Some.
  apply bool_decide_eq_true in Hp.
  exists ti, tk, ui, u. simpl. split_and!; try done.
  - intros j t Hj Hjt [Hjtok Hjexp].
    specialize (Htfirst j t Hj Hjt). apply andb_false_iff in Htfirst.
    destruct Htfirst as [Hf|Hf]; apply bool_decide_eq_false in Hf; done.
  - intros j u' Hj Hju. specialize (Hufirst j u' Hj Hju).
    by apply bool_decide_eq_false in Hufirst.
  - unfold Services.get_user_by_id, first. simpl. rewrite <- Hp in Hu.
    rewrite (first_ref_insert _ _ _ _ (Services.set_is_verified now u) Hu);
      [done|by apply bool_decide_eq_true_2].
Qed.

Lemma verify_user_email_marks_user_witness :
  ∃ user d', Services.verify_user_email Sample.store 5 "v1" = (Some user, d')
             ∧ User.id user = VerificationToken.user_id Sample.vt1
             ∧ User.is_verified user = true
             ∧ verification_tokens d' = [].
Proof.
  destruct (Services.verify_user_email Sample.store 5 "v1") as [[user|] d'] eqn:Hv;
    [|by vm_compute in Hv].
  destruct (verify_user_email_marks_user Sample.store d' 5 "v1" user Hv)
    as (ti & tk & i & old & Hti & Htok & _ & _ & _ & _ & _ & _ & Hid & _
        & Hdel & Hver & _).
  exists user, d'. split; [done|].
  destruct ti as [|ti]; [|by destruct ti].
  injection Hti as <-. rewrite Hdel. by split_and!.
Defined.

(** X14: after a password reset the new password opens the account and
    the old one does not, unless it verifies against the new hash.  With
    unique emails, and a hash function whose output verifies the password
    it was made from, [authenticate_user] with the user's email and the new
    password returns the updated user; with a password that does not verify
    against the new hash it returns nothing. *)
Theorem reset_then_authenticate `{PasswordContext}
    (d d' : Session) (now : Z) (token new_password : string) (user : User.t) :
  NoDup (User.email <$> users d) →
  pwd_verify new_password (pwd_hash new_password) = true →
  Services.reset_user_password d now token new_password = (Some user, d') →
  User.hashed_password user = pwd_hash new_password
  ∧ Services.authenticate_user d' (User.email user) new_password = Some user
  ∧ ∀ other, pwd_verify other (pwd_hash new_password) = false →
             Services.authenticate_user d' (User.email user) other = None.
Proof.
  intros Hnd Hlaw. unfold Services.reset_user_password.
  destruct (first_ref _ (password_reset_tokens d)) as [[ti tk]|]; [|done].
  destruct (first_ref _ (users d)) as [[ui u]|] eqn:Hu; [|done].
  intros [= <- <-]. apply first_ref_Some in Hu as (Hui & _ & _).
  set (u' := Services.set_hashed_password now (pwd_hash new_password) u).
  assert (Hfind : Services.get_user_by_email
                    (mkSession (<[ui := u']> (users d)) (refresh_tokens d)
                               (verification_tokens d)
                               (delete_row ti (password_reset_tokens d)))
                    (User.email u') = Some u').
  { unfold Services.get_user_by_email, first. simpl.
    rewrite (first_ref_unique User.email _ ui u'); [done| |].
    - by rewrite (column_insert User.email _ ui u).
    - apply list_lookup_insert_eq. by eapply lookup_lt_Some. }
  split; [done|]. unfold Services.authenticate_user. rewrite Hfind. simpl.
  rewrite Hlaw. split; [done|]. by intros other ->.
Qed.

Lemma reset_then_authenticate_witness :
  ∃ user d',
    @Services.reset_user_password Sample.pwd Sample.store 5 "p1" "abcdefgh"
    = (Some user, d')
    ∧ @Services.authenticate_user Sample.pwd d' "alice@x.com" "abcdefgh" = Some user
    ∧ @Services.authenticate_user Sample.pwd d' "alice@x.com" "pw12345678" = None.
Proof.
  destruct (@Services.reset_user_password Sample.pwd Sample.store 5 "p1" "abcdefgh")
    as [[user|] d'] eqn:Hr; [|by vm_compute in Hr].
  destruct (@reset_then_authenticate Sample.pwd Sample.store d' 5 "p1" "abcdefgh"
              user (ui_email _ sample_store_unique) eq_refl Hr) as (_ & Hnew & Hold).
  assert (He : User.email user = "alice@x.com").
  { vm_compute in Hr. by injection Hr as <- _. }
  rewrite He in Hnew, Hold.
  exists user, d'. split; [done|]. split; [exact Hnew|]. by apply Hold.
Defined.

(** X15: a token is dead from its expiry instant on.  If every row with
    the presented token string has [expires_at <= now], then verification
    and password reset answer nothing and leave the store untouched (the
    expired row is not deleted), and a refresh-token lookup finds
    nothing. *)
Theorem expired_tokens_rejected `{PasswordContext}
    (d : Session) (now : Z) (token new_password : string) :
  ((∀ t, t ∈ verification_tokens d → VerificationToken.token t = token →
         VerificationToken.expires_at t ≤ now) →
   Services.verify_user_email d now token = (None, d))
  ∧ ((∀ t, t ∈ password_reset_tokens d → PasswordResetToken.token t = token →
           PasswordResetToken.expires_at t ≤ now) →
     Services.reset_user_password d now token new_password = (None, d))
  ∧ ((∀ t, t ∈ refresh_tokens d → RefreshToken.token t = token →
           RefreshToken.expires_at t ≤ now) →
     Services.get_refresh_token d now token = None).
Proof.
  split_and!; intros Hexp.
  - unfold Services.verify_user_email.
    destruct (first_ref _ (verification_tokens d)) as [[ti tk]|] eqn:Ht; [|done].
    apply first_ref_Some in Ht as (Hti & Hp & _).
    apply andb_true_iff in Hp as [Hp1 Hp2].
    apply bool_decide_eq_true in Hp1, Hp2.
    specialize (Hexp tk (list_elem_of_lookup_2 _ _ _ Hti) Hp1). lia.
  - unfold Services.reset_user_password.
    destruct (first_ref _ (password_reset_tokens d)) as [[ti tk]|] eqn:Ht; [|done].
    apply first_ref_Some in Ht as (Hti & Hp & _).
    apply andb_true_iff in Hp as [Hp1 Hp2].
    apply bool_decide_eq_true in Hp1, Hp2.
    specialize (Hexp tk (list_elem_of_lookup_2 _ _ _ Hti) Hp1). lia.
  - unfold Services.get_refresh_token. apply first_None. intros r Hr.
    destruct (decide (RefreshToken.token r = token)) as [Heq|Hne].
    + specialize (Hexp r Hr Heq).
      rewrite (bool_decide_eq_false_2 (now < _)) by lia.
      by rewrite andb_false_r.
    + by rewrite (bool_decide_eq_false_2 _ Hne).
Qed.

Lemma expired_tokens_rejected_witness :
  Services.verify_user_email Sample.store 1000 "v1" = (None, Sample.store)
  ∧ Services.get_refresh_token Sample.store 1000 "r1" = None.
Proof.
  pose proof (@expired_tokens_rejected Sample.pwd Sample.store 1000 "v1" "abcdefgh")
    as (Hv & _ & _).
  pose proof (@expired_tokens_rejected Sample.pwd Sample.store 1000 "r1" "abcdefgh")
    as (_ & _ & Hr).
  split.
  - apply Hv. intros t Hin _.
    apply list_elem_of_singleton in Hin as ->. simpl. lia.
  - apply Hr. intros t Hin _.
    repeat (apply elem_of_cons in Hin as [->|Hin]; [simpl; lia|]).
    by apply elem_of_nil in Hin.
Defined.

(** Revoking rows cannot make a lookup find a different row: a map that
    only turns matching rows into non-matching ones and fixes the row
    found leaves the first match where it was. *)
Lemma first_fmap_fixed {A} (p : A → bool) (g : A → A) (l : list A) r :
  (∀ x, p (g x) = true → p x = true) → g r = r →
  first p l = Some r → first p (g <$> l) = Some r.
Proof.
  intros Hweak Hfix. unfold first.
  induction l as [|a l IH]; simpl; [done|].
  destruct (p a) eqn:Hpa; simpl.
  - intros [= ->]. rewrite Hfix, Hpa. done.
  - destruct (p (g a)) eqn:Hpga; [by rewrite (Hweak _ Hpga) in Hpa|].
    destruct (first_ref p l) as [[i x]|]; simpl; [|done].
    intros Hx. specialize (IH Hx).
    change (g <$> l) with (list_fmap A A g l) in IH.
    destruct (first_ref p (list_fmap A A g l)) as [[j y]|]; simpl in *; [|done].
    by injection IH as ->.
Qed.

(** X16: a password reset ends the sessions of that user only.  After a
    successful reset-password flow for [user], a refresh token of another
    user that was accepted before is accepted as before, with the same
    row; refresh-token rows of other users are not modified. *)
Theorem reset_password_spares_others `{PasswordContext}
    (now : Z) (token new_password : string) (w w1 : World) (msg : string)
    (user : User.t) :
  Auth.reset_password now token new_password w = (inr msg, w1) →
  (Services.reset_user_password (db w) now token new_password).1 = Some user →
  (∀ i r, refresh_tokens (db w) !! i = Some r →
          RefreshToken.user_id r ≠ User.id user →
          refresh_tokens (db w1) !! i = Some r)
  ∧ ∀ now' t r,
      Services.get_refresh_token (db w) now' t = Some r →
      RefreshToken.user_id r ≠ User.id user →
      Services.get_refresh_token (db w1) now' t = Some r.
Proof.
  unfold Auth.reset_password, run, mbind, M_bind, mret, M_ret, http_error, raise.
  pose proof (reset_user_password_refresh_tokens (db w) now token new_password)
    as Hsame.
  destruct (Services.reset_user_password (db w) now token new_password)
    as [[u|] d1] eqn:Hreset; simpl in *; [|done].
  intros Hrun [= <-]. revert Hrun.
  unfold Services.revoke_all_user_refresh_tokens.
  destruct (all _ (refresh_tokens d1)) eqn:Hall; simpl; intros [= <- <-]; simpl.
  - split; [by rewrite Hsame|]. unfold Services.get_refresh_token.
    by rewrite Hsame.
  - rewrite Hsame. split.
    + intros i r Hi Hne. rewrite list_lookup_fmap, Hi. simpl.
      by rewrite (bool_decide_eq_false_2 _ Hne).
    + intros now' tk r Hget Hne. unfold Services.get_refresh_token in *.
      apply first_fmap_fixed; [| |done].
      * intros x.
        destruct (bool_decide (RefreshToken.user_id x = User.id u)
                  && bool_decide (RefreshToken.revoked x = false)); [|done].
        intros [_ Hp%bool_decide_eq_true]%andb_true_iff. done.
      * by rewrite (bool_decide_eq_false_2 _ Hne).
Qed.

Lemma reset_password_spares_others_witness :
  Services.get_refresh_token
    (db (@Auth.reset_password Sample.pwd 5 "p1" "abcdefgh" Sample.world).2)
    7 "r3" = Some Sample.rt3.
Proof.
  refine (proj2 (@reset_password_spares_others Sample.pwd 5 "p1" "abcdefgh"
                   Sample.world _ "Password successfully reset"
                   (Services.set_hashed_password 5 "h:abcdefgh" Sample.alice)
                   eq_refl eq_refl) 7 "r3" Sample.rt3 eq_refl _).
  discriminate.
Defined.

(** X17: the session that [login] opens can be refreshed.  After a
    successful login of an active user (peer address known, refresh token
    drawn not already stored), a refresh request that presents the issued
    refresh token and echoes the issued CSRF token, at any time before
    [now + REFRESH_TOKEN_EXPIRE_DAYS], is answered with a token and leaves
    the store as the login left it.  The tokens drawn are non-empty and
    the CSRF token is ASCII, as [token_urlsafe] makes them; the user is
    the row found by its id. *)
Theorem login_then_refresh
    `{PasswordContext} `{Jose} `{Entropy} `{Outside} (settings : Settings)
    (now now' : Z) (request : Request) (email password : string) (w : World)
    (user : User.t) :
  Services.authenticate_user (db w) email password = Some user →
  User.is_active user = true →
  Services.get_user_by_id (db w) (User.id user) = Some user →
  client request ≠ None →
  token_urlsafe_at (S (drawn w)) 64
    ∉ (RefreshToken.token <$> refresh_tokens (db w)) →
  token_urlsafe_at (S (drawn w)) 64 ≠ EmptyString →
  token_urlsafe_at (S (S (drawn w))) 32 ≠ EmptyString →
  PyStr.isascii (token_urlsafe_at (S (S (drawn w))) 32) = true →
  now' < now + days (REFRESH_TOKEN_EXPIRE_DAYS settings) →
  ∃ resp w1 resp' w2,
    Auth.login settings now request email password w = (inr resp, w1)
    ∧ cookie_key <$> cookies resp = ["access_token"; "refresh_token"; "csrf_token"]
    ∧ Auth.refresh_token settings now'
        (Some (token_urlsafe_at (S (drawn w)) 64))
        (Some (token_urlsafe_at (S (S (drawn w))) 32))
        (Some (token_urlsafe_at (S (S (drawn w))) 32)) w1
      = (inr resp', w2)
    ∧ db w2 = db w1
    ∧ token_type (body resp') = "bearer".
Proof.
  intros Hauth Hact Hid Hclient Hfresh Hrt Hcsrf Hascii Hnow.
  destruct (get_client_ip_known request Hclient) as [ip Hip].
  set (rt := token_urlsafe_at (S (drawn w)) 64) in *.
  set (csrf := token_urlsafe_at (S (S (drawn w))) 32) in *.
  assert (Hlogin : ∃ resp w1,
    Auth.login settings now request email password w = (inr resp, w1)
    ∧ cookie_key <$> cookies resp = ["access_token"; "refresh_token"; "csrf_token"]
    ∧ users (db w1) = users (db w)
    ∧ ∃ r, refresh_tokens (db w1) = refresh_tokens (db w) ++ [r]
           ∧ RefreshToken.token r = rt
           ∧ RefreshToken.user_id r = User.id user
           ∧ RefreshToken.revoked r = false
           ∧ RefreshToken.expires_at r
             = now + days (REFRESH_TOKEN_EXPIRE_DAYS settings)).
  { unfold Auth.login, Auth.login_with, Security.create_access_token,
      Security.create_refresh_token, Security.generate_csrf_token,
      Security.token_urlsafe, Security.uuid4, Auth.lift, draw, get_session,
      commit, Security.insert_refresh_token, mbind, M_bind, mret, M_ret.
    simpl. rewrite Hauth, Hact. simpl. rewrite Hip. simpl.
    rewrite bool_decide_eq_false_2 by done. simpl.
    do 2 eexists. split; [reflexivity|]. simpl. split; [done|]. split; [done|].
    by eexists. }
  destruct Hlogin as (resp & w1 & Hl & Hkeys & Husers & r & Hrows & Htok & Huid
                      & Hrev & Hexp).
  assert (Hget : Services.get_refresh_token (db w1) now' rt = Some r).
  { unfold Services.get_refresh_token. rewrite Hrows, first_app_None.
    - unfold first. simpl. rewrite Htok, Hrev, Hexp.
      rewrite !bool_decide_eq_true_2 by (done || lia). done.
    - apply first_None. intros x Hx.
      rewrite (bool_decide_eq_false_2 (RefreshToken.token x = rt)); [done|].
      intros Heq. apply Hfresh. apply list_elem_of_fmap. by exists x. }
  assert (Huser : Services.get_user_by_id (db w1) (RefreshToken.user_id r)
                  = Some user).
  { unfold Services.get_user_by_id in *. by rewrite Husers, Huid. }
  destruct (refresh_token_accepted settings now' rt csrf w1 r user
              Hrt Hcsrf Hascii Hget Huser Hact)
    as (resp' & w2 & Hr & Hdb & Hbearer).
  by exists resp, w1, resp', w2.
Qed.

Lemma login_then_refresh_witness :
  ∃ resp w1 resp' w2,
    @Auth.login Sample.pwd Sample.jose Sample.entropy Sample.outside
      default_settings 5 Sample.request "alice@x.com" "pw12345678" Sample.world
    = (inr resp, w1)
    ∧ @Auth.refresh_token Sample.jose Sample.entropy default_settings 6
        (Some "tok1") (Some "tok2") (Some "tok2") w1 = (inr resp', w2).
Proof.
  destruct (@login_then_refresh Sample.pwd Sample.jose Sample.entropy
              Sample.outside default_settings 5 6 Sample.request
              "alice@x.com" "pw12345678" Sample.world Sample.alice)
    as (resp & w1 & resp' & w2 & Hl & _ & Hr & _);
    try reflexivity; try discriminate.
  - apply (bool_decide_unpack _). vm_compute. exact I.
  - by exists resp, w1, resp', w2.
Defined.

(** ** The client address ([core/rate_limiter.py]) *)

(** X18: [get_client_ip] never returns a forwarded value that the
    [ipaddress] parser did not accept.  Its answer is either the stripped
    first entry of a non-empty X-Forwarded-For header, accepted by the
    parser, or the peer host of the connection; it raises only when it
    falls back to a connection that has no peer address. *)
Theorem get_client_ip_sound `{Outside} (request : Request) :
  match Email.get_client_ip request with
  | inr ip =>
      (∃ forwarded_for,
         headers_get "X-Forwarded-For" request = Some forwarded_for
         ∧ forwarded_for ≠ EmptyString
         ∧ ip = PyStr.strip (default "" (head (PyStr.split "," forwarded_for)))
         ∧ ip_address_ok ip = true)
      ∨ client request = Some ip
  | inl e => client request = None ∧ status_of e = 500
  end.
Proof.
  unfold Email.get_client_ip.
  destruct (headers_get _ request) as [fwd|] eqn:Hh.
  - unfold PyStr.truthy. case_bool_decide as Hempty; simpl.
    + destruct (client request); [by right|done].
    + destruct (ip_address_ok _) eqn:Hok.
      * left. by exists fwd.
      * destruct (client request); [by right|done].
  - destruct (client request); [by right|done].
Qed.

(** ** More on the question pipeline ([api/endpoints/smart_AI_pdf.py]) *)

Lemma take_length_le n s : (String.length (PyStr.take n s) ≤ n)%nat.
Proof.
  revert s. induction n as [|n IH]; intros [|c s]; simpl; try lia.
  specialize (IH s). lia.
Qed.

Lemma take_all n s : (String.length s ≤ n)%nat → PyStr.take n s = s.
Proof.
  revert s. induction n as [|n IH]; intros [|c s]; simpl; try done; try lia.
  intros Hle. f_equal. apply IH. lia.
Qed.

Lemma startswith_app p s : PyStr.startswith p (p +:+ s) = true.
Proof.
  induction p as [|c p IH]; simpl; [done|].
  by rewrite bool_decide_eq_true_2.
Qed.

(** X19: what [generate_text] hands back and what it sends.  Its result
    either contains the marker "Question:" or is the error text that
    starts "Error: Could not generate question. Details: "; the latter
    exactly when the model call raised.  And only the first 800 characters
    of the prompt count: a prompt and its first 800 characters give the
    same result. *)
Theorem generate_text_shape `{SmartPdf.Pipeline} (n : nat) (prompt : string) :
  (PyStr.contains "Question:" (SmartPdf.generate_text n prompt) = true
   ∨ PyStr.startswith "Error: Could not generate question. Details: "
       (SmartPdf.generate_text n prompt) = true)
  ∧ SmartPdf.generate_text n (PyStr.take 800 prompt)
    = SmartPdf.generate_text n prompt
  ∧ (∀ e, SmartPdf.text_generation n
            (SmartPdf.system_prompt +:+ SmartPdf.nl +:+ SmartPdf.nl
             +:+ PyStr.take 800 prompt) = inl e →
          SmartPdf.generate_text n prompt
          = "Error: Could not generate question. Details: " +:+ e).
Proof.
  assert (Htrim : (if (800 <? String.length prompt)%nat
                   then PyStr.take 800 prompt else prompt)
                  = PyStr.take 800 prompt).
  { destruct (800 <? String.length prompt)%nat eqn:Hlen; [done|].
    apply Nat.ltb_ge in Hlen. symmetry. by apply take_all. }
  assert (Htrim' : (if (800 <? String.length (PyStr.take 800 prompt))%nat
                    then PyStr.take 800 (PyStr.take 800 prompt)
                    else PyStr.take 800 prompt)
                   = PyStr.take 800 prompt).
  { pose proof (take_length_le 800 prompt) as Hle.
    destruct (800 <? String.length (PyStr.take 800 prompt))%nat eqn:Hlen;
      [apply Nat.ltb_lt in Hlen; lia|reflexivity]. }
  unfold SmartPdf.generate_text. rewrite Htrim, Htrim'.
  split_and!; [|done|by intros e ->].
  destruct (SmartPdf.text_generation _ _) as [e|response].
  - right. apply startswith_app.
  - left. destruct (PyStr.contains "Question:" (PyStr.strip response)) eqn:Hc;
      simpl; [done|].
    by destruct (PyStr.contains "multiple_choice" _).
Qed.

Lemma parse_result_inr q_type result used q used' :
  SmartPdf.parse_result q_type result used = (inr q, used') →
  SmartPdf.question_type q = q_type
  ∧ well_formed_question q
  ∧ (SmartPdf.question q ∉ used)
  ∧ used' = {[SmartPdf.question q]} ∪ used.
Proof.
  unfold SmartPdf.parse_result, well_formed_question.
  destruct (PyStr.contains "Error:" result); [done|].
  destruct (length _ <? 2)%nat; [done|].
  destruct (PyStr.split "Question:" result !! 1%nat) as [part1|]; [|done].
  case_bool_decide as Hused; [done|].
  case_bool_decide as Hmc.
  - destruct (_ || _); [done|].
    destruct (PyStr.split "Options:" result !! 1%nat) as [ao|]; [|done].
    destruct (PyStr.split "Answer:" result !! 1%nat) as [aa|]; [|done].
    case_bool_decide as Hlen; simpl; [|done].
    intros [= <- <-]. simpl. rewrite bool_decide_eq_true_2 by done.
    split_and!; try done. by eexists.
  - destruct (negb _); [done|].
    destruct (PyStr.split "Answer:" result !! 1%nat) as [aa|]; [|done].
    intros [= <- <-]. simpl. by rewrite bool_decide_eq_false_2.
Qed.

Lemma fallback_question_well_formed q_type subj i n used :
  SmartPdf.question_type (SmartPdf.fallback_question q_type subj i n used) = q_type
  ∧ well_formed_question (SmartPdf.fallback_question q_type subj i n used).
Proof.
  unfold SmartPdf.fallback_question, well_formed_question.
  pose proof (Nat.mod_upper_bound (i + n) 3 ltac:(done)) as Hlt.
  case_bool_decide as Hmc.
  - destruct ((i + n) mod 3)%nat as [|[|[|k]]]; simpl; try lia;
      rewrite bool_decide_eq_true_2 by done; (split; [done|by eexists]).
  - destruct ((i + n) mod 3)%nat as [|[|[|k]]]; simpl; try lia;
      by rewrite bool_decide_eq_false_2.
Qed.

Section LoopInvariant.
Context `{SmartPdf.Pipeline}.

(** The [try] of a slot over a non-empty pool, in full: one call to the
    model, whose text goes through [parse_result]. *)
Lemma try_slot_parse all_docs q_type i st :
  all_docs ≠ [] →
  ∃ result subj r used',
    SmartPdf.parse_result q_type result (SmartPdf.used_questions st) = (r, used')
    ∧ SmartPdf.try_slot all_docs q_type i st
      = (r, SmartPdf.mkLoop (SmartPdf.l_questions st)
                            ({[subj]} ∪ SmartPdf.used_subjects st) used'
                            (S (SmartPdf.calls st)) (Some subj)).
Proof.
  intros Hne. unfold SmartPdf.try_slot.
  rewrite bool_decide_eq_false_2 by (by destruct all_docs).
  destruct (all_docs !! _) as [page|] eqn:Hdoc.
  - destruct (SmartPdf.parse_result _ _ _) as [r used'] eqn:Hp.
    by eexists _, _, r, used'.
  - apply lookup_ge_None in Hdoc.
    pose proof (Nat.mod_upper_bound (i + length (SmartPdf.l_questions st))
                  (length all_docs)) as Hlt.
    destruct all_docs; [done|]. simpl in *. lia.
Qed.

Lemma slot_invariant all_docs types q_type i st st' :
  q_type ∈ types →
  SmartPdf.slot all_docs q_type i st = inr st' →
  loop_invariant all_docs types st → loop_invariant all_docs types st'.
Proof.
  intros Hty Hslot (Hall & Hcalls & Hused & Hsubj).
  destruct (decide (all_docs = [])) as [->|Hne].
  { revert Hslot. unfold SmartPdf.slot, SmartPdf.try_slot. simpl.
    by rewrite Hsubj. }
  destruct (try_slot_parse all_docs q_type i st Hne)
    as (result & subj & r & used' & Hp & Ht).
  revert Hslot. unfold SmartPdf.slot. rewrite Ht.
  destruct r as [e|parsed]; simpl; intros [= <-]; unfold loop_invariant; simpl.
  - destruct (fallback_question_well_formed q_type subj i
                (length (SmartPdf.l_questions st)) used') as [Hq Hw].
    split_and!; [| | |done].
    + apply Forall_app. split; [done|]. apply Forall_singleton.
      split; [done|]. by rewrite Hq.
    + rewrite length_app. simpl. lia.
    + intros q [Hin|Hin%list_elem_of_singleton]%elem_of_app.
      * apply elem_of_union_r.
        assert (Hmono : SmartPdf.used_questions st ⊆ used').
        { revert Hp. unfold SmartPdf.parse_result.
          repeat case_match; intros [= <- <-]; set_solver. }
        apply Hmono. by apply Hused.
      * subst q. apply elem_of_union_l. by apply elem_of_singleton.
  - apply parse_result_inr in Hp as (Hq & Hw & Hnew & ->).
    split_and!; [| | |done].
    + apply Forall_app. split; [done|]. apply Forall_singleton.
      split; [done|]. by rewrite Hq.
    + rewrite length_app. simpl. lia.
    + intros q [Hin|Hin%list_elem_of_singleton]%elem_of_app.
      * apply elem_of_union_r. by apply Hused.
      * subst q. apply elem_of_union_l. by apply elem_of_singleton.
Qed.

Lemma run_slots_invariant all_docs types q_type idxs : ∀ st st',
  q_type ∈ types →
  SmartPdf.run_slots all_docs q_type idxs st = inr st' →
  loop_invariant all_docs types st → loop_invariant all_docs types st'.
Proof.
  induction idxs as [|i idxs IH]; intros st st' Hty; simpl.
  - by intros [= <-].
  - destruct (SmartPdf.slot all_docs q_type i st) as [e|st1] eqn:Hs; [done|].
    intros Hrun Hinv. eapply IH; [done|exact Hrun|]. by eapply slot_invariant.
Qed.

Lemma run_types_invariant all_docs types per_type sub : ∀ remaining st st',
  sub ⊆ types →
  SmartPdf.run_types all_docs per_type remaining sub st = inr st' →
  loop_invariant all_docs types st → loop_invariant all_docs types st'.
Proof.
  induction sub as [|q_type sub IH]; intros remaining st st' Hsub; simpl.
  - by intros [= <-].
  - destruct (SmartPdf.run_slots _ _ _ _) as [e|st1] eqn:Hs; [done|].
    intros Hrun Hinv. eapply IH; [|exact Hrun|].
    + intros x Hx. apply Hsub. by right.
    + eapply run_slots_invariant; [|exact Hs|done]. apply Hsub. by left.
Qed.

End LoopInvariant.

Lemma initial_loop_invariant all_docs types :
  loop_invariant all_docs types SmartPdf.initial_loop.
Proof.
  unfold loop_invariant. simpl. split_and!; try done.
  intros q Hq. by apply elem_of_nil in Hq.
Qed.

Lemma generate_questions_inr `{SmartPdf.Pipeline} `{SmartPdf.Messages} now request subscriptions resp :
  SmartPdf.generate_questions now request subscriptions = inr resp →
  ∃ retriever st,
    SmartPdf.load_local ("vectorstores/" +:+ SmartPdf.pdf_id request) = Some retriever
    ∧ SmartPdf.run_types
        (SmartPdf.gather_docs retriever (SmartPdf.num_questions request))
        (SmartPdf.num_questions request
           `div` Z.of_nat (length (SmartPdf.question_types request)))
        (SmartPdf.num_questions request
           `mod` Z.of_nat (length (SmartPdf.question_types request)))
        (SmartPdf.question_types request) SmartPdf.initial_loop = inr st
    ∧ resp = SmartPdf.mkQuestionResponse (SmartPdf.l_questions st).
Proof.
  unfold SmartPdf.generate_questions.
  destruct (negb _); [done|]. destruct (negb _); [done|].
  destruct (SmartPdf.load_local _) as [retriever|]; [|done].
  case_bool_decide; [done|].
  destruct (SmartPdf.run_types _ _ _ _ _) as [[]|st] eqn:Hrun; try done.
  intros [= <-]. by exists retriever, st.
Qed.

(** X20: every response of [generate_questions] is well formed.  Each
    question it returns has the type of one of the requested types; a
    question of type "multiple_choice" carries exactly four options and
    any other question carries none, whether it was parsed from the
    model's text or built from a fallback template. *)
Theorem generate_questions_well_formed `{SmartPdf.Pipeline} `{SmartPdf.Messages}
    (now : Z) (request : SmartPdf.QuestionRequest)
    (subscriptions : list Subscription.t) (resp : SmartPdf.QuestionResponse) :
  SmartPdf.generate_questions now request subscriptions = inr resp →
  Forall (λ q, well_formed_question q
               ∧ (SmartPdf.question_type q ∈ SmartPdf.question_types request))
         (SmartPdf.questions resp).
Proof.
  intros (retriever & st & _ & Hrun & ->)%generate_questions_inr. simpl.
  eapply run_types_invariant in Hrun as (Hall & _); [exact Hall|done|].
  apply initial_loop_invariant.
Qed.

Lemma generate_questions_well_formed_witness :
  ∃ resp,
    @SmartPdf.generate_questions Sample.pipeline Sample.messages 0
      (SmartPdf.mkQuestionRequest "doc" 3 ["multiple_choice"; "descriptive"]) []
    = inr resp
    ∧ Forall (λ q, well_formed_question q
                   ∧ (SmartPdf.question_type q ∈ ["multiple_choice"; "descriptive"]))
             (SmartPdf.questions resp).
Proof.
  destruct (@SmartPdf.generate_questions Sample.pipeline Sample.messages 0
              (SmartPdf.mkQuestionRequest "doc" 3 ["multiple_choice"; "descriptive"])
              []) as [e|resp] eqn:Hg; [by vm_compute in Hg|].
  exists resp. split; [done|].
  exact (@generate_questions_well_formed Sample.pipeline Sample.messages 0 _ []
           resp Hg).
Defined.

(** X21: one call to the model per question, and no repeated parsed
    text.  When the generation loops end normally from the initial state,
    the model has been called exactly as many times as there are
    questions (no retry); and in a state the loops can reach, a question
    parsed from the model's text has a text that no earlier question of
    the response has. *)
Theorem one_call_per_question `{SmartPdf.Pipeline}
    (all_docs types : list string) (per_type remaining : Z) (st : SmartPdf.Loop) :
  SmartPdf.run_types all_docs per_type remaining types SmartPdf.initial_loop
  = inr st →
  SmartPdf.calls st = length (SmartPdf.l_questions st)
  ∧ ∀ q_type i parsed tried,
      SmartPdf.try_slot all_docs q_type i st = (inr parsed, tried) →
      ∀ q, q ∈ SmartPdf.l_questions st →
           SmartPdf.question q ≠ SmartPdf.question parsed.
Proof.
  intros Hrun.
  eapply (run_types_invariant all_docs types) in Hrun
    as (_ & Hcalls & Hused & Hsubj); [|done|apply initial_loop_invariant].
  split; [done|]. intros q_type i parsed tried Ht q Hq Heq.
  destruct (decide (all_docs = [])) as [->|Hne]; [by vm_compute in Ht|].
  destruct (try_slot_parse all_docs q_type i st Hne)
    as (result & subj & r & used' & Hp & Ht').
  rewrite Ht' in Ht. injection Ht as -> _.
  apply parse_result_inr in Hp as (_ & _ & Hnew & _).
  apply Hnew. rewrite <- Heq. by apply Hused.
Qed.

Lemma one_call_per_question_witness :
  ∃ st,
    @SmartPdf.run_types Sample.pipeline ["Alpha Beta gamma delta"] 2 0
      ["descriptive"] SmartPdf.initial_loop = inr st
    ∧ SmartPdf.calls st = length (SmartPdf.l_questions st).
Proof.
  destruct (@SmartPdf.run_types Sample.pipeline ["Alpha Beta gamma delta"] 2 0
              ["descriptive"] SmartPdf.initial_loop) as [e|st] eqn:Hr;
    [by vm_compute in Hr|].
  exists st. split; [done|].
  exact (proj1 (@one_call_per_question Sample.pipeline _ _ _ _ st Hr)).
Defined.

Section LoopErrors.
Context `{SmartPdf.Pipeline}.

(** The only exception that leaves the loops is the handler's read of an
    unbound [subject]. *)
Lemma slot_inl all_docs q_type i st e :
  SmartPdf.slot all_docs q_type i st = inl e →
  e = UnhandledError "UnboundLocalError".
Proof.
  unfold SmartPdf.slot. destruct (SmartPdf.try_slot _ _ _ _) as [[err|q] st'];
    [|done].
  destruct (SmartPdf.subject st'); [done|]. by intros [= <-].
Qed.

Lemma run_slots_inl all_docs q_type idxs : ∀ st e,
  SmartPdf.run_slots all_docs q_type idxs st = inl e →
  e = UnhandledError "UnboundLocalError".
Proof.
  induction idxs as [|i idxs IH]; intros st e; simpl; [done|].
  destruct (SmartPdf.slot all_docs q_type i st) as [e'|st1] eqn:Hs.
  - intros [= <-]. by eapply slot_inl.
  - apply IH.
Qed.

Lemma run_types_inl all_docs per_type types : ∀ remaining st e,
  SmartPdf.run_types all_docs per_type remaining types st = inl e →
  e = UnhandledError "UnboundLocalError".
Proof.
  induction types as [|q_type types IH]; intros remaining st e; simpl; [done|].
  destruct (SmartPdf.run_slots _ _ _ _) as [e'|st1] eqn:Hs.
  - intros [= <-]. by eapply run_slots_inl.
  - apply IH.
Qed.

End LoopErrors.

(** X22: the ways [generate_questions] ends.  It never answers 403: the
    subscription check accepts everyone.  Its errors are a 404 exactly
    when the index path does not exist, and otherwise a 500; with an
    existing, loadable index and an empty list of types it is a 500 (the
    division by the number of types). *)
Theorem generate_questions_errors `{SmartPdf.Pipeline} `{SmartPdf.Messages}
    (now : Z) (request : SmartPdf.QuestionRequest)
    (subscriptions : list Subscription.t) :
  match SmartPdf.generate_questions now request subscriptions with
  | inr _ =>
      SmartPdf.path_exists ("vectorstores/" +:+ SmartPdf.pdf_id request) = true
      ∧ SmartPdf.question_types request ≠ []
  | inl e =>
      (e = HTTPException 404
             ("PDF with ID " +:+ SmartPdf.pdf_id request +:+ " not found")
       ∧ SmartPdf.path_exists ("vectorstores/" +:+ SmartPdf.pdf_id request) = false)
      ∨ (∃ detail, e = HTTPException 500 detail
         ∧ SmartPdf.path_exists ("vectorstores/" +:+ SmartPdf.pdf_id request) = true)
  end.
Proof.
  unfold SmartPdf.generate_questions.
  rewrite check_question_generation_limits_true. simpl.
  destruct (SmartPdf.path_exists _) eqn:Hp; simpl; [|by left].
  destruct (SmartPdf.load_local _) as [retriever|]; [|right; by eexists].
  case_bool_decide as Hn; [right; by eexists|].
  destruct (SmartPdf.run_types _ _ _ _ _) as [e|st] eqn:Hrun.
  - apply run_types_inl in Hrun as ->. right. by eexists.
  - split; [done|]. intros Hnil. rewrite Hnil in Hn. done.
Qed.

(** X23: the upload limit.  [check_user_pdf_limits] is downward closed in
    the number of stored PDFs and always lets through a user with fewer
    than three; a user with ten or more passes only through a subscription
    that is active and not expired, and whose plan so selected is neither
    "free" nor "pro" in any letter case; without such a subscription the
    limit is the free tier's three. *)
Theorem check_user_pdf_limits_tiers
    (now : Z) (subscriptions : list Subscription.t) (n : nat) :
  (∀ m, (m ≤ n)%nat →
        SmartPdf.check_user_pdf_limits now subscriptions n = true →
        SmartPdf.check_user_pdf_limits now subscriptions m = true)
  ∧ ((n < 3)%nat → SmartPdf.check_user_pdf_limits now subscriptions n = true)
  ∧ ((10 ≤ n)%nat →
     SmartPdf.check_user_pdf_limits now subscriptions n = true →
     ∃ sub, sub ∈ subscriptions
            ∧ Subscription.is_active sub = true
            ∧ now < Subscription.end_date sub
            ∧ PyStr.lower (Subscription.plan_name sub) ≠ "free"
            ∧ PyStr.lower (Subscription.plan_name sub) ≠ "pro")
  ∧ ((∀ sub, sub ∈ subscriptions →
             Subscription.is_active sub = false
             ∨ Subscription.end_date sub ≤ now) →
     SmartPdf.check_user_pdf_limits now subscriptions n = (n <? 3)%nat).
Proof.
  unfold SmartPdf.check_user_pdf_limits.
  destruct (first _ subscriptions) as [sub|] eqn:Hf.
  - apply first_Some_elem in Hf as [Hin Hp].
    apply andb_true_iff in Hp as [Hact Hend]. apply bool_decide_eq_true in Hend.
    split_and!.
    + intros m Hm. repeat case_bool_decide; try done;
        rewrite !Nat.ltb_lt; lia.
    + intros Hn. repeat case_bool_decide; try done; apply Nat.ltb_lt; lia.
    + intros Hn. repeat case_bool_decide; try (rewrite Nat.ltb_lt; lia).
      intros _. by exists sub.
    + intros Hnone. destruct (Hnone sub Hin) as [Hi|He]; [congruence|lia].
  - split_and!.
    + intros m Hm. rewrite !Nat.ltb_lt. lia.
    + intros Hn. apply Nat.ltb_lt. lia.
    + intros Hn. rewrite Nat.ltb_lt. lia.
    + done.
Qed.

Lemma check_user_pdf_limits_tiers_witness :
  SmartPdf.check_user_pdf_limits 5
    [Subscription.mk 1 1 "Pro" None 100 true] 9 = true
  ∧ SmartPdf.check_user_pdf_limits 500
      [Subscription.mk 1 1 "Pro" None 100 true] 9 = false.
Proof.
  split.
  - apply (proj1 (check_user_pdf_limits_tiers 5
                    [Subscription.mk 1 1 "Pro" None 100 true] 9) 9%nat);
      [lia|reflexivity].
  - rewrite (proj2 (proj2 (proj2 (check_user_pdf_limits_tiers 500
                    [Subscription.mk 1 1 "Pro" None 100 true] 9)))); [reflexivity|].
    intros sub Hin. apply list_elem_of_singleton in Hin as ->. right. simpl. lia.
Defined.

Lemma add_docs_long docs : ∀ all_docs (used : gset string),
  (∀ s, s ∈ used → (String.length s ≤ 100)%nat) →
  (∀ d, d ∈ docs → (100 < String.length d)%nat) →
  (SmartPdf.add_docs docs (all_docs, used)).1 = all_docs ++ docs
  ∧ ∀ s, s ∈ (SmartPdf.add_docs docs (all_docs, used)).2 →
         (String.length s ≤ 100)%nat.
Proof.
  unfold SmartPdf.add_docs.
  induction docs as [|doc docs IH]; intros all_docs used Hused Hlong; simpl.
  - by rewrite app_nil_r.
  - assert (Hdoc : (100 < String.length doc)%nat) by (apply Hlong; by left).
    rewrite bool_decide_eq_false_2.
    2: { intros Hin. apply Hused in Hin. lia. }
    destruct (IH (all_docs ++ [doc]) ({[PyStr.take 100 doc]} ∪ used)) as [Hl Hu].
    + intros s [->%elem_of_singleton|Hs]%elem_of_union; [|by apply Hused].
      apply take_length_le.
    + intros d Hd. apply Hlong. by right.
    + rewrite <- app_assoc in Hl. split; [exact Hl|exact Hu].
Qed.

(** X24: chunks longer than 100 characters are never deduplicated.  The
    pool records the first 100 characters of each kept chunk but tests a
    whole chunk against those records; so when every chunk the retriever
    returns is longer than 100 characters, the pool starts with all the
    chunks returned for the six topics, in order and with their
    repetitions. *)
Theorem gather_docs_keeps_long_chunks
    (retriever : string → list string) (num_questions : Z) :
  (∀ query d, d ∈ retriever query → (100 < String.length d)%nat) →
  ∃ more,
    SmartPdf.gather_docs retriever num_questions
    = concat (retriever <$> take 6 SmartPdf.query_topics) ++ more.
Proof.
  intros Hlong.
  assert (Hfold : ∀ topics st,
            (∀ s, s ∈ st.2 → (String.length s ≤ 100)%nat) →
            (foldl (λ st topic, SmartPdf.add_docs (retriever topic) st) st topics).1
            = st.1 ++ concat (retriever <$> topics)
            ∧ ∀ s, s ∈ (foldl (λ st topic, SmartPdf.add_docs (retriever topic) st)
                          st topics).2 → (String.length s ≤ 100)%nat).
  { induction topics as [|topic topics IH]; intros [all_docs used] Hused; simpl.
    - by rewrite app_nil_r.
    - destruct (add_docs_long (retriever topic) all_docs used Hused (Hlong topic))
        as [Hl Hu].
      destruct (SmartPdf.add_docs (retriever topic) (all_docs, used))
        as [all' used'] eqn:Ha. simpl in *.
      destruct (IH (all', used') Hu) as [Hl' Hu']. split; [|done].
      rewrite Hl'. simpl. rewrite Hl. by rewrite app_assoc. }
  assert (Hmore : ∀ idxs st,
            (∀ s, s ∈ st.2 → (String.length s ≤ 100)%nat) →
            ∃ more, (SmartPdf.more_docs retriever num_questions idxs st).1
                    = st.1 ++ more).
  { induction idxs as [|i idxs IH]; intros [all_docs used] Hused; simpl.
    - exists []. by rewrite app_nil_r.
    - destruct (add_docs_long (retriever ("topic_" +:+ pretty i)) all_docs used
                  Hused (Hlong _)) as [Hl Hu].
      destruct (SmartPdf.add_docs _ (all_docs, used)) as [all' used'] eqn:Ha.
      simpl in *. case_bool_decide.
      + simpl. by eexists.
      + destruct (IH (all', used') Hu) as [more Hm]. simpl in Hm.
        exists (retriever ("topic_" +:+ pretty i) ++ more).
        rewrite Hm, Hl. by rewrite app_assoc. }
  unfold SmartPdf.gather_docs.
  destruct (Hfold (take 6 SmartPdf.query_topics) ([], ∅)) as [Hl Hu];
    [by intros s Hs%elem_of_empty|].
  set (st6 := foldl _ _ _) in *. cbn [fst app] in Hl.
  case_bool_decide.
  - destruct (Hmore (seq 0 10) st6 Hu) as [more Hm]. exists more.
    by rewrite Hm, Hl.
  - exists []. by rewrite Hl, app_nil_r.
Qed.

Lemma gather_docs_keeps_long_chunks_witness :
  ∃ more,
    SmartPdf.gather_docs
      (λ _, ["The quick brown fox jumps over the lazy dog. Pack my box with five dozen liquor jugs. Sphinx of black quartz, judge my vow."])
      1
    = replicate 6 "The quick brown fox jumps over the lazy dog. Pack my box with five dozen liquor jugs. Sphinx of black quartz, judge my vow."
      ++ more.
Proof.
  apply (gather_docs_keeps_long_chunks
           (λ _, ["The quick brown fox jumps over the lazy dog. Pack my box with five dozen liquor jugs. Sphinx of black quartz, judge my vow."]) 1).
  intros query d Hd. apply list_elem_of_singleton in Hd as ->. simpl. lia.
Defined.

(** ** From login to session resolution ([api/auth.py], [core/security.py]) *)

(** X25: the access token that [login] issues resolves to the user who
    logged in.  Its claims carry type "access" and the decimal text of the
    user's id as subject.  With a codec that, at the time of the request,
    decodes what it encoded to a payload with the same type and subject
    and never encodes to the empty text, and an engine that finds the user
    by that subject text, [get_current_user] on the store the login left,
    with the issued token as cookie, returns that user. *)
Theorem login_then_get_current_user
    `{PasswordContext} `{Jose} `{Entropy} `{SqlEngine} `{Outside}
    (settings : Settings) (now now' : Z) (request : Request)
    (email password : string) (w : World) (user : User.t) :
  Services.authenticate_user (db w) email password = Some user →
  User.is_active user = true →
  client request ≠ None →
  token_urlsafe_at (S (drawn w)) 64
    ∉ (RefreshToken.token <$> refresh_tokens (db w)) →
  (∀ claims : gmap string jval,
     claims !! "type" = Some (JStr "access") →
     claims !! "sub" = Some (JStr (pretty (User.id user))) →
     jwt_encode claims (SECRET_KEY settings) (ALGORITHM settings) ≠ EmptyString
     ∧ ∃ payload,
         jwt_decode now'
           (jwt_encode claims (SECRET_KEY settings) (ALGORITHM settings))
           (SECRET_KEY settings) [ALGORITHM settings] = inr payload
         ∧ payload !! "type" = Some (JStr "access")
         ∧ payload !! "sub" = Some (JStr (pretty (User.id user)))) →
  first (λ u, int_eq_param (User.id u) (JStr (pretty (User.id user))))
        (users (db w)) = Some user →
  ∃ resp w1,
    Auth.login settings now request email password w = (inr resp, w1)
    ∧ Security.get_current_user settings (db w1) now' None
        (Some (access_token (body resp))) = inr user.
Proof.
  intros Hauth Hact Hclient Hfresh Hcodec Hengine.
  destruct (get_client_ip_known request Hclient) as [ip Hip].
  unfold Auth.login, Auth.login_with, Security.create_access_token,
    Security.create_refresh_token, Security.generate_csrf_token,
    Security.token_urlsafe, Security.uuid4, Auth.lift, draw, get_session,
    commit, Security.insert_refresh_token, mbind, M_bind, mret, M_ret.
  simpl. rewrite Hauth, Hact. simpl. rewrite Hip. simpl.
  rewrite bool_decide_eq_false_2 by done. simpl.
  do 2 eexists. split; [reflexivity|]. simpl.
  match goal with |- context [jwt_encode ?c _ _] =>
    destruct (Hcodec c) as (Hne & payload & Hdec & Hty & Hsub) end.
  { by rewrite !lookup_insert_ne, lookup_insert_eq by done. }
  { by rewrite lookup_insert_ne, lookup_insert_eq by done. }
  unfold Security.get_current_user, PyStr.truthy.
  rewrite bool_decide_eq_false_2 by done. simpl.
  rewrite Hdec, Hty, Hsub. rewrite bool_decide_eq_true_2 by done. simpl.
  by rewrite Hengine, Hact.
Qed.

Lemma login_then_get_current_user_witness :
  ∃ resp w1,
    @Auth.login Sample.pwd Sample.jose Sample.entropy Sample.outside
      default_settings 5 Sample.request "alice@x.com" "pw12345678" Sample.world
    = (inr resp, w1)
    ∧ @Security.get_current_user Sample.jose Sample.engine default_settings
        (db w1) 9 None (Some (access_token (body resp))) = inr Sample.alice.
Proof.
  apply (@login_then_get_current_user Sample.pwd Sample.jose Sample.entropy
           Sample.engine Sample.outside default_settings 5 9 Sample.request
           "alice@x.com" "pw12345678" Sample.world Sample.alice);
    try reflexivity; try discriminate.
  - apply (bool_decide_unpack _). vm_compute. exact I.
  - intros claims _ Hsub. simpl. rewrite Hsub. split; [discriminate|].
    eexists. split; [reflexivity|]. split; reflexivity.
Defined.
